(** * Agentic-RAG-CRUD-MCP: supervisor orchestration and record store

    A shallow embedding of
      - [src/crew_supervisor.py]  (routing / validation normalizers and the
        bounded retry loop of [process_query]),
      - [src/tools/database.py], [src/mcp_servers/person_server.py] and
        [src/mcp_servers/bank_server.py] (the SQLite-backed record store),
      - the sensitive-identifier pattern of [src/config.py].

    Conventions.
      - Python [str] values are modelled as [string] and the text is taken
        to be ASCII; [str.lower] and SQLite's [LOWER] both fold exactly the
        letters A..Z on such text.
      - Python [int] is [Z]; Python [float] / SQLite REAL is the binary64
        type [float].
      - Python dict literals are association lists in insertion order.
      - Calls that leave the process (language-model crews, tool channels)
        are answered by an environment that sees the whole history of the
        run; every call is recorded on a trace, latest event first. *)

From Stdlib Require Import String Ascii List ZArith Bool Arith Lia.
From Stdlib Require Import DecimalString.
From Stdlib Require Import PrimFloat.
From Equations Require Import Equations.
Import ListNotations.

Local Open Scope list_scope.
Local Open Scope string_scope.
Local Set Warnings "-register-all".

(** ** Python values and string primitives *)

Module Py.

Inductive pyval : Type :=
| PNone
| PBool (b : bool)
| PInt (z : Z)
| PFloat (f : float)
| PStr (s : string)
| PList (l : list pyval)
| PDict (d : list (string * pyval)).

Definition pydict : Type := list (string * pyval).

(** [d.get(k)] *)
Fixpoint dict_get (k : string) (d : pydict) : option pyval :=
  match d with
  | [] => None
  | (k', v) :: d' => if String.eqb k k' then Some v else dict_get k d'
  end.

Definition dict_keys (d : pydict) : list string := map fst d.

(** [str(n)] for an [int]. *)
Definition str_of_int (z : Z) : string :=
  NilZero.string_of_int (Z.to_int z).

(** One character of [str.lower()]. *)
Definition lower_char (c : ascii) : ascii :=
  let n := nat_of_ascii c in
  if (65 <=? n)%nat && (n <=? 90)%nat then ascii_of_nat (n + 32) else c.

(** [s.lower()] *)
Fixpoint lower (s : string) : string :=
  match s with
  | EmptyString => EmptyString
  | String c s' => String (lower_char c) (lower s')
  end.

(** [hay.startswith(needle)] *)
Fixpoint startswith (needle hay : string) : bool :=
  match needle, hay with
  | EmptyString, _ => true
  | String _ _, EmptyString => false
  | String a n', String b h' => Ascii.eqb a b && startswith n' h'
  end.

(** [needle in hay] *)
Fixpoint str_in (needle hay : string) : bool :=
  match hay with
  | EmptyString => startswith needle EmptyString
  | String _ h' => startswith needle hay || str_in needle h'
  end.

(** [any(keyword in text for keyword in keywords)] *)
Definition any_in (keywords : list string) (text : string) : bool :=
  existsb (fun keyword => str_in keyword text) keywords.

(** Truth value of a [str]: the empty string is falsy. *)
Definition str_truthy (s : string) : bool :=
  match s with EmptyString => false | String _ _ => true end.

(** [x or default] for an [Optional[str]] argument. *)
Definition or_str (x : option string) (default : string) : string :=
  match x with
  | Some s => if str_truthy s then s else default
  | None => default
  end.

(** [x if x is not None else default] *)
Definition if_not_none {A : Type} (x : option A) (default : A) : A :=
  match x with
  | Some a => a
  | None => default
  end.

(** Normal completion, or a pending exception carrying [str(e)]. *)
Inductive res (A : Type) : Type :=
| Ok (a : A)
| Exc (e : string).
Arguments Ok {A} a.
Arguments Exc {A} e.

(** Code that threads a state [S] and may raise. *)
Definition M (S A : Type) : Type := S -> res A * S.

Definition ret {S A : Type} (a : A) : M S A := fun s => (Ok a, s).

Definition bind {S A B : Type} (m : M S A) (k : A -> M S B) : M S B :=
  fun s =>
    match m s with
    | (Ok a, s') => k a s'
    | (Exc e, s') => (Exc e, s')
    end.

Definition raise {S A : Type} (e : string) : M S A := fun s => (Exc e, s).

(** [try: body / except Exception as e: return handler(e)] *)
Definition try_except {S A : Type} (body : M S A) (handler : string -> A)
    : S -> A * S :=
  fun s =>
    match body s with
    | (Ok a, s') => (a, s')
    | (Exc e, s') => (handler e, s')
    end.

End Py.

Notation "x <- m ;; k" := (Py.bind m (fun x => k))
  (at level 61, m at next level, right associativity).
Notation "' pat <- m ;; k" := (Py.bind m (fun x => match x with pat => k end))
  (at level 61, pat pattern, m at next level, right associativity).

(** ** The supervisor: [src/crew_supervisor.py] *)

Module Supervisor.
Import Py.

(** The dict returned by [_parse_validation_result]: key ["status"] is always
    present, ["reason"] and ["next_agent"] only on some branches. *)
Record validation : Type := Validation {
  status : string;
  reason : option string;
  next_agent : option string
}.

Definition accept_keywords : list string :=
  ["accept"; "sufficient"; "complete"; "correct"; "accurate";
   "found"; "yes"; "good"; "adequate"; "satisfactory"].

Definition retry_keywords : list string :=
  ["retry"; "insufficient"; "incomplete"; "missing"; "try again";
   "not found"; "no"; "failed"].

Definition _parse_routing_decision (output : string) : string :=
  let output_lower := lower output in
  if str_in "both" output_lower || str_in "mcp_and_rag" output_lower then "BOTH"
  else if str_in "mcp" output_lower || str_in "database" output_lower then "MCP"
  else if str_in "rag" output_lower || str_in "document" output_lower then "RAG"
  else "BOTH".

Definition _parse_validation_result (output : string) : validation :=
  let output_lower := lower output in
  if any_in accept_keywords output_lower then
    Validation "ACCEPT" (Some output) None
  else if any_in retry_keywords output_lower then
    if str_in "both" output_lower then Validation "RETRY" None (Some "BOTH")
    else if str_in "mcp" output_lower then Validation "RETRY" None (Some "MCP")
    else if str_in "rag" output_lower then Validation "RETRY" None (Some "RAG")
    else Validation "RETRY" None (Some "BOTH")
  else if str_in "engine number" output_lower && str_in "en12345xyz" output_lower then
    Validation "ACCEPT" (Some "Answer contains requested information") None
  else
    Validation "ACCEPT" (Some "Validation unclear, accepting answer") None.

(** The reading of "the lowercased reply contains the term": the term
    occurs as a contiguous piece of [output.lower()]. *)
Definition mentions (term output : string) : Prop :=
  exists before after : string, lower output = before ++ term ++ after.

Definition mentions_any (terms : list string) (output : string) : Prop :=
  exists term : string, In term terms /\ mentions term output.

(** *** Calls that leave the process

    [OpenTools] is entering a [with MCPServerAdapter(...)] block (the tool
    list it yields is only handed on to the agents); the others are
    [Crew(...).kickoff(...)] of the task named, with the values the task
    description is built from.  Each either returns text ([str(result)]) or
    raises. *)
Inductive call : Type :=
| OpenTools (server : string)
| RoutingKickoff (query : string)
| McpKickoff (query : string)
| RagKickoff (query : string)
| SynthesisKickoff (query : string) (worker_results : list (string * string))
| ValidationKickoff (query : string) (current_answer : string).

Inductive outcome : Type :=
| Returns (text : string)
| Raises (e : string).

(** What a run leaves behind: the calls with their outcomes and the
    ["Attempt i/n"] banner printed at the top of each loop iteration. *)
Inductive event : Type :=
| Called (c : call) (o : outcome)
| AttemptBanner (attempt max_attempts : nat).

Definition trace : Type := list event.

Definition emit (ev : event) : M trace unit := fun tr => (Ok tt, ev :: tr).

Definition max_attempts : nat := 3.

(** A variable holding [None] or a [str], as a value. *)
Definition str_or_none (x : option string) : pyval :=
  match x with
  | Some s => PStr s
  | None => PNone
  end.

(** [if final_answer:] on a value that is [None] or a [str]. *)
Definition truthy (final_answer : option string) : bool :=
  match final_answer with
  | Some s => str_truthy s
  | None => false
  end.

(** *** Reading a trace *)

(** The attempt numbers announced, latest first. *)
Definition banners (tr : trace) : list nat :=
  flat_map (fun ev => match ev with AttemptBanner a _ => [a] | _ => [] end) tr.

(** The verdicts parsed from the validator's replies, latest first. *)
Definition verdicts (tr : trace) : list validation :=
  flat_map
    (fun ev =>
       match ev with
       | Called (ValidationKickoff _ _) (Returns reply) =>
           [_parse_validation_result reply]
       | _ => []
       end) tr.

(** The calls that raised, latest first. *)
Definition raised (tr : trace) : list (call * string) :=
  flat_map
    (fun ev => match ev with Called c (Raises e) => [(c, e)] | _ => [] end) tr.

(** The calls whose reply can become the candidate answer. *)
Definition answer_call (c : call) : bool :=
  match c with
  | McpKickoff _ | RagKickoff _ | SynthesisKickoff _ _ => true
  | _ => false
  end.

Definition is_accept (v : validation) : bool := String.eqb (status v) "ACCEPT".

Section Orchestration.

(** The world outside: its reply to a call may depend on everything that
    happened before in the run. *)
Variable env : trace -> call -> outcome.

Definition kickoff (c : call) : M trace string :=
  fun tr =>
    match env tr c with
    | Returns text => (Ok text, Called c (Returns text) :: tr)
    | Raises e => (Exc e, Called c (Raises e) :: tr)
    end.

(** Lines 265-313: run the workers the route selects, in this order. *)
Definition execute_workers (query route : string)
    : M trace (list (string * string)) :=
  worker_results <-
    (if String.eqb route "MCP" || String.eqb route "BOTH" then
       mcp_result <- kickoff (McpKickoff query) ;;
       ret [("MCP", mcp_result)]
     else ret []) ;;
  if String.eqb route "RAG" || String.eqb route "BOTH" then
    rag_result <- kickoff (RagKickoff query) ;;
    ret (worker_results ++ [("RAG", rag_result)])%list
  else ret worker_results.

(** Lines 315-363: the answer put before the validator. *)
Definition candidate_answer (query : string)
    (worker_results : list (string * string)) : M trace string :=
  if (1 <? List.length worker_results)%nat then
    kickoff (SynthesisKickoff query worker_results)
  else
    match worker_results with
    | (_, text) :: _ => ret text
    | [] => ret "No agents were executed"
    end.

(** One iteration of the [while] body up to the parsed verdict. *)
Definition attempt_once (query : string) (attempt : nat) (route : string)
    : M trace (string * validation) :=
  _ <- emit (AttemptBanner attempt max_attempts) ;;
  worker_results <- execute_workers query route ;;
  current_answer <- candidate_answer query worker_results ;;
  validation_result <- kickoff (ValidationKickoff query current_answer) ;;
  ret (current_answer, _parse_validation_result validation_result).

(** Lines 262-417: [while attempt <= max_attempts], leaving through [break]
    on ACCEPT.  Yields [final_answer] and the value of [attempt] on exit. *)
Equations? retry_loop (query : string) (attempt : nat) (route : string)
    (tr : trace) : res (option string * nat) * trace
    by wf (S max_attempts - attempt) lt :=
  retry_loop query attempt route tr with le_lt_dec attempt max_attempts := {
    | right _ => (Ok (None, attempt), tr)
    | left _ with attempt_once query attempt route tr := {
      | (Exc e, tr') => (Exc e, tr')
      | (Ok (current_answer, v), tr') with is_accept v := {
        | true => (Ok (Some current_answer, attempt), tr')
        | false =>
            retry_loop query (S attempt) (if_not_none (next_agent v) "BOTH") tr'
        }
      }
    }.
Proof. unfold max_attempts in *. destruct attempt as [|[|[|[|?]]]]; simpl; lia. Qed.

(** Lines 93-435: the body of the [try]. *)
Definition process_query_try (query : string) : M trace pydict :=
  _ <- kickoff (OpenTools "mcp_servers/person_server.py") ;;
  _ <- kickoff (OpenTools "mcp_servers/bank_server.py") ;;
  routing_result <- kickoff (RoutingKickoff query) ;;
  let route := _parse_routing_decision routing_result in
  '(final_answer, attempt) <- retry_loop query 1 route ;;
  if truthy final_answer then
    ret [("success", PBool true); ("query", PStr query);
         ("result", str_or_none final_answer);
         ("attempts", PInt (Z.of_nat attempt));
         ("pattern", PStr "supervisor_multi_agent")]
  else
    ret [("success", PBool false); ("query", PStr query);
         ("error", PStr "Could not generate satisfactory answer after maximum attempts");
         ("attempts", PInt (Z.of_nat max_attempts));
         ("pattern", PStr "supervisor_multi_agent")].

(** [process_query]: the [try] with its [except Exception as e] handler.
    The run starts from an empty trace; the trace is returned next to the
    result dict. *)
Definition process_query (query : string) : pydict * trace :=
  try_except (process_query_try query)
    (fun e => [("success", PBool false); ("query", PStr query); ("error", PStr e)])
    [].

(** Where a candidate answer comes from: the fixed text of the no-worker
    case, or the reply to a worker or synthesis call. *)
Definition answer_source (answer : string) : Prop :=
  answer = "No agents were executed" \/
  exists (tr : trace) (c : call),
    answer_call c = true /\ env tr c = Returns answer.

(** *** The ways a run can end

    The three dicts [process_query] returns, and for each the trace that
    goes with it.  [rejected] is a verdict that does not stop the loop. *)

Definition accepted_result (query answer : string) (attempts : nat) : pydict :=
  [("success", PBool true); ("query", PStr query); ("result", PStr answer);
   ("attempts", PInt (Z.of_nat attempts));
   ("pattern", PStr "supervisor_multi_agent")].

Definition exhausted_result (query : string) : pydict :=
  [("success", PBool false); ("query", PStr query);
   ("error", PStr "Could not generate satisfactory answer after maximum attempts");
   ("attempts", PInt (Z.of_nat max_attempts));
   ("pattern", PStr "supervisor_multi_agent")].

Definition error_result (query e : string) : pydict :=
  [("success", PBool false); ("query", PStr query); ("error", PStr e)].

Definition rejected (v : validation) : Prop := is_accept v = false.

Inductive run_outcome (query : string) : pydict -> trace -> Prop :=
| run_accepted (answer reply : string) (k : nat) (rest : trace) :
    1 <= k <= max_attempts ->
    answer <> "" ->
    banners rest = rev (seq 1 k) ->
    raised rest = [] ->
    Forall rejected (verdicts rest) ->
    List.length (verdicts rest) = k - 1 ->
    env rest (ValidationKickoff query answer) = Returns reply ->
    is_accept (_parse_validation_result reply) = true ->
    answer_source answer ->
    run_outcome query (accepted_result query answer k)
      (Called (ValidationKickoff query answer) (Returns reply) :: rest)
| run_accepted_empty (reply : string) (k : nat) (rest : trace) :
    1 <= k <= max_attempts ->
    banners rest = rev (seq 1 k) ->
    raised rest = [] ->
    Forall rejected (verdicts rest) ->
    List.length (verdicts rest) = k - 1 ->
    env rest (ValidationKickoff query "") = Returns reply ->
    is_accept (_parse_validation_result reply) = true ->
    answer_source "" ->
    run_outcome query (exhausted_result query)
      (Called (ValidationKickoff query "") (Returns reply) :: rest)
| run_exhausted (tr : trace) :
    banners tr = rev (seq 1 max_attempts) ->
    raised tr = [] ->
    Forall rejected (verdicts tr) ->
    List.length (verdicts tr) = max_attempts ->
    run_outcome query (exhausted_result query) tr
| run_errored (c : call) (e : string) (k : nat) (rest : trace) :
    k <= max_attempts ->
    banners rest = rev (seq 1 k) ->
    raised rest = [] ->
    Forall rejected (verdicts rest) ->
    env rest c = Raises e ->
    run_outcome query (error_result query e) (Called c (Raises e) :: rest).

End Orchestration.

End Supervisor.

(** ** The sensitive-identifier pattern: [src/config.py]

    [SENSITIVE_PATTERNS["aadhar"] = r"\b\d{4}\s?\d{4}\s?\d{4}\b"], read as
    [re.search] over ASCII text. *)

Module Config.

Definition is_digit (c : ascii) : bool :=
  let n := nat_of_ascii c in (48 <=? n)%nat && (n <=? 57)%nat.

(** [\s]: tab, newline, vertical tab, form feed, carriage return, the four
    separators 28..31 and the space. *)
Definition is_space (c : ascii) : bool :=
  let n := nat_of_ascii c in
  ((9 <=? n)%nat && (n <=? 13)%nat) || ((28 <=? n)%nat && (n <=? 32)%nat).

(** [\w]: letters, digits and the underscore. *)
Definition is_word (c : ascii) : bool :=
  let n := nat_of_ascii c in
  is_digit c || ((65 <=? n)%nat && (n <=? 90)%nat)
  || ((97 <=? n)%nat && (n <=? 122)%nat) || (n =? 95)%nat.

(** [\d{n}] at the head of [s]: the rest after [n] digits. *)
Fixpoint digits (n : nat) (s : string) : option string :=
  match n with
  | O => Some s
  | S n' =>
      match s with
      | String c s' => if is_digit c then digits n' s' else None
      | EmptyString => None
      end
  end.

(** [\s?] followed by a digit: the blank is taken when there is one. *)
Definition opt_space (s : string) : string :=
  match s with
  | String c s' => if is_space c then s' else s
  | EmptyString => s
  end.

(** [\b] after the last digit. *)
Definition boundary_after (s : string) : bool :=
  match s with
  | String c _ => negb (is_word c)
  | EmptyString => true
  end.

(** The pattern without its leading [\b], anchored at the head of [s]. *)
Definition aadhar_here (s : string) : bool :=
  match digits 4 s with
  | Some s1 =>
      match digits 4 (opt_space s1) with
      | Some s2 =>
          match digits 4 (opt_space s2) with
          | Some s3 => boundary_after s3
          | None => false
          end
      | None => false
      end
  | None => false
  end.

(** Scan for a match; [prev_word] tells whether the character before the
    current position is a word character. *)
Fixpoint aadhar_from (prev_word : bool) (s : string) : bool :=
  (negb prev_word && aadhar_here s)
  || match s with
     | String c s' => aadhar_from (is_word c) s'
     | EmptyString => false
     end.

(** [re.search(SENSITIVE_PATTERNS["aadhar"], text) is not None] *)
Definition has_aadhar (text : string) : bool := aadhar_from false text.

End Config.

(** ** Concrete environments used as test runs *)

Module Scenarios.
Import Py Supervisor.

(** The validator asks for a retry whatever it is shown. *)
Definition env_always_retry : trace -> call -> outcome :=
  fun _ _ => Returns "RETRY_WITH_MCP".

(** The database worker replies with the empty text and the validator
    accepts it. *)
Definition env_empty_answer : trace -> call -> outcome :=
  fun _ c =>
    match c with
    | RoutingKickoff _ => Returns "MCP"
    | ValidationKickoff _ _ => Returns "ACCEPT"
    | _ => Returns ""
    end.

(** Both workers are selected and the document worker raises. *)
Definition env_rag_fails : trace -> call -> outcome :=
  fun _ c =>
    match c with
    | RoutingKickoff _ => Returns "BOTH"
    | McpKickoff _ => Returns "Jane is 30, email jane@x.com"
    | RagKickoff _ => Raises "vector index unreachable"
    | SynthesisKickoff _ _ => Returns "Jane is 30."
    | ValidationKickoff _ _ => Returns "ACCEPT"
    | OpenTools _ => Returns ""
    end.

(** The document worker quotes a 12-digit identifier as it stands. *)
Definition env_unmasked : trace -> call -> outcome :=
  fun _ c =>
    match c with
    | RoutingKickoff _ => Returns "RAG"
    | RagKickoff _ => Returns "Aadhar number: 3345 5678 9012"
    | ValidationKickoff _ _ => Returns "ACCEPT"
    | _ => Returns ""
    end.

(** The document worker masks the identifier itself. *)
Definition env_masked : trace -> call -> outcome :=
  fun _ c =>
    match c with
    | RoutingKickoff _ => Returns "RAG"
    | RagKickoff _ => Returns "Aadhar number: XXXX-XXXX-9012"
    | ValidationKickoff _ _ => Returns "ACCEPT"
    | _ => Returns ""
    end.

(** Both workers are selected; their replies and the synthesis show the
    identifier masked. *)
Definition env_both_masked : trace -> call -> outcome :=
  fun _ c =>
    match c with
    | RoutingKickoff _ => Returns "BOTH"
    | McpKickoff _ => Returns "Jane is 30"
    | RagKickoff _ => Returns "Aadhar number: XXXX-XXXX-9012"
    | SynthesisKickoff _ _ => Returns "Jane is 30, Aadhar XXXX-XXXX-9012"
    | ValidationKickoff _ _ => Returns "ACCEPT"
    | OpenTools _ => Returns ""
    end.

(** C5 as the specification words it, for the document worker: after its
    failure the same run still reaches synthesis and validation. *)
Definition survives_rag_failure (env : trace -> call -> outcome)
    (query : string) : Prop :=
  forall (later earlier : trace) (e : string),
    snd (process_query env query)
    = (later ++ Called (RagKickoff query) (Raises e) :: earlier)%list ->
    (exists w o, In (Called (SynthesisKickoff query w) o) later) /\
    (exists a o, In (Called (ValidationKickoff query a) o) later).

(** C6 as the specification words it: whatever text a run returns shows no
    12-digit identifier of the pattern in [config.py]. *)
Definition never_unmasked (env : trace -> call -> outcome) (query : string)
    : Prop :=
  forall text : string,
    dict_get "result" (fst (process_query env query)) = Some (PStr text) ->
    Config.has_aadhar text = false.

End Scenarios.

(** ** The record store: [src/tools/database.py] and the two MCP servers *)

Module Store.
Import Py.

Local Open Scope Z_scope.

(** Rows of [persons] and [bank_accounts], as declared by [_initialize_db]. *)
Record persons_row : Type := PersonsRow {
  p_id : Z;
  p_name : string;
  p_age : Z;
  p_email : string
}.

Record bank_accounts_row : Type := BankAccountsRow {
  a_accountId : Z;
  a_personId : Z;
  a_bankName : string;
  a_balance : float
}.

(** The database file: both tables in rowid order, and the AUTOINCREMENT
    counters SQLite keeps for them in [sqlite_sequence]. *)
Record database : Type := Database {
  persons : list persons_row;
  bank_accounts : list bank_accounts_row;
  seq_persons : Z;
  seq_bank_accounts : Z
}.

(** A connection: the database it is open on and its [foreign_keys] pragma.
    SQLite enforces FOREIGN KEY clauses (and runs their ON DELETE actions)
    only on a connection where the pragma is on. *)
Record connection : Type := Connection {
  foreign_keys : bool;
  db : database
}.

Definition empty_database : database := Database [] [] 0 0.

(** [sqlite3.connect(path)]: a new connection has the pragma off, which is
    SQLite's default. *)
Definition sqlite3_connect (file : database) : connection :=
  Connection false file.

(** [DatabaseManager._initialize_db]: connect, then CREATE TABLE IF NOT
    EXISTS for both tables ([None]: the file did not exist yet).  No PRAGMA
    is issued. *)
Definition _initialize_db (file : option database) : connection :=
  sqlite3_connect (match file with Some d => d | None => empty_database end).

Definition int64_min : Z := - 2 ^ 63.
Definition int64_max : Z := 2 ^ 63 - 1.

(** Binding a Python [int] to a statement parameter. *)
Definition bind_int (z : Z) : res Z :=
  if (int64_min <=? z) && (z <=? int64_max) then Ok z
  else Exc "Python int too large to convert to SQLite INTEGER".

(** Binding a Python [float]: NaN is bound as NULL. *)
Definition bind_float (f : float) : option float :=
  if PrimFloat.is_nan f then None else Some f.

(** What a REAL column gives back for a float written to it.  SQLite keeps
    a float with an integer value as that integer and turns it into a float
    again when it is read, so a negative zero comes back as 0.0; every
    other value comes back as it was written. *)
Definition store_real (f : float) : float :=
  if PrimFloat.eqb f PrimFloat.zero then PrimFloat.zero else f.
Arguments store_real f : simpl never.

Definition get_conn : M connection connection := fun c => (Ok c, c).

Definition lift_res {A : Type} (r : res A) : M connection A := fun c => (r, c).

Definition put_db (d : database) : M connection unit :=
  fun c => (Ok tt, Connection (foreign_keys c) d).

Definition max_rowid (ids : list Z) : Z := fold_right Z.max 0 ids.

(** [cursor.fetchone()] *)
Definition fetchone {A : Type} (rows : list A) : option A := hd_error rows.

(** *** Statements ([cursor.execute] followed, for writes, by
    [conn.commit()]).  A statement that fails changes nothing. *)

(** [SELECT * FROM persons WHERE id = ?] *)
Definition select_persons_by_id (person_id : Z) : M connection (list persons_row) :=
  i <- lift_res (bind_int person_id) ;;
  conn <- get_conn ;;
  ret (filter (fun r => p_id r =? i) (persons (db conn))).

(** [SELECT * FROM persons] *)
Definition select_persons : M connection (list persons_row) :=
  conn <- get_conn ;;
  ret (persons (db conn)).

(** [SELECT * FROM persons WHERE LOWER(name) = LOWER(?)] *)
Definition select_persons_by_lower_name (name : string)
    : M connection (list persons_row) :=
  conn <- get_conn ;;
  ret (filter (fun r => String.eqb (lower (p_name r)) (lower name))
         (persons (db conn))).

(** [INSERT INTO persons (name, age, email) VALUES (?, ?, ?)]; yields
    [cursor.lastrowid]. *)
Definition insert_persons (name : string) (age : Z) (email : string)
    : M connection Z :=
  age_ <- lift_res (bind_int age) ;;
  conn <- get_conn ;;
  let d := db conn in
  let new_id := Z.max (seq_persons d) (max_rowid (map p_id (persons d))) + 1 in
  if int64_max <? new_id then raise "database or disk is full"
  else if existsb (fun r => String.eqb (p_email r) email) (persons d) then
    raise "UNIQUE constraint failed: persons.email"
  else
    _ <- put_db (Database (persons d ++ [PersonsRow new_id name age_ email])%list
                   (bank_accounts d) new_id (seq_bank_accounts d)) ;;
    ret new_id.

(** [UPDATE persons SET name = ?, age = ?, email = ? WHERE id = ?] *)
Definition update_persons (name : string) (age : Z) (email : string)
    (person_id : Z) : M connection unit :=
  age_ <- lift_res (bind_int age) ;;
  i <- lift_res (bind_int person_id) ;;
  conn <- get_conn ;;
  let d := db conn in
  if existsb (fun r => p_id r =? i) (persons d)
     && existsb (fun r => negb (p_id r =? i) && String.eqb (p_email r) email)
          (persons d)
  then raise "UNIQUE constraint failed: persons.email"
  else
    put_db (Database
              (map (fun r => if p_id r =? i then PersonsRow (p_id r) name age_ email
                             else r) (persons d))
              (bank_accounts d) (seq_persons d) (seq_bank_accounts d)).

(** [DELETE FROM persons WHERE id = ?].  The rows of [bank_accounts] that
    reference the person go with it (ON DELETE CASCADE) on a connection that
    enforces foreign keys, and stay on one that does not. *)
Definition delete_persons (person_id : Z) : M connection unit :=
  i <- lift_res (bind_int person_id) ;;
  conn <- get_conn ;;
  let d := db conn in
  put_db (Database
            (filter (fun r => negb (p_id r =? i)) (persons d))
            (if foreign_keys conn
             then filter (fun a => negb (a_personId a =? i)) (bank_accounts d)
             else bank_accounts d)
            (seq_persons d) (seq_bank_accounts d)).

(** [SELECT * FROM bank_accounts WHERE accountId = ?] *)
Definition select_accounts_by_id (account_id : Z)
    : M connection (list bank_accounts_row) :=
  i <- lift_res (bind_int account_id) ;;
  conn <- get_conn ;;
  ret (filter (fun a => a_accountId a =? i) (bank_accounts (db conn))).

(** [SELECT * FROM bank_accounts] *)
Definition select_accounts : M connection (list bank_accounts_row) :=
  conn <- get_conn ;;
  ret (bank_accounts (db conn)).

(** [SELECT * FROM bank_accounts WHERE personId = ?] *)
Definition select_accounts_by_person (person_id : Z)
    : M connection (list bank_accounts_row) :=
  i <- lift_res (bind_int person_id) ;;
  conn <- get_conn ;;
  ret (filter (fun a => a_personId a =? i) (bank_accounts (db conn))).

(** [INSERT INTO bank_accounts (personId, bankName, balance) VALUES (?, ?, ?)];
    yields [cursor.lastrowid]. *)
Definition insert_bank_accounts (person_id : Z) (bank_name : string)
    (balance : float) : M connection Z :=
  i <- lift_res (bind_int person_id) ;;
  conn <- get_conn ;;
  let d := db conn in
  let new_id :=
    Z.max (seq_bank_accounts d) (max_rowid (map a_accountId (bank_accounts d))) + 1 in
  if int64_max <? new_id then raise "database or disk is full"
  else
    match bind_float balance with
    | None => raise "NOT NULL constraint failed: bank_accounts.balance"
    | Some b =>
        if foreign_keys conn && negb (existsb (fun r => p_id r =? i) (persons d))
        then raise "FOREIGN KEY constraint failed"
        else
          _ <- put_db (Database (persons d)
                         (bank_accounts d
                          ++ [BankAccountsRow new_id i bank_name (store_real b)])%list
                         (seq_persons d) new_id) ;;
          ret new_id
    end.

(** [UPDATE bank_accounts SET bankName = ?, balance = ? WHERE accountId = ?] *)
Definition update_bank_accounts (bank_name : string) (balance : float)
    (account_id : Z) : M connection unit :=
  i <- lift_res (bind_int account_id) ;;
  conn <- get_conn ;;
  let d := db conn in
  match bind_float balance with
  | None =>
      if existsb (fun a => a_accountId a =? i) (bank_accounts d)
      then raise "NOT NULL constraint failed: bank_accounts.balance"
      else ret tt
  | Some b =>
      put_db (Database (persons d)
                (map (fun a => if a_accountId a =? i
                               then BankAccountsRow (a_accountId a) (a_personId a)
                                      bank_name (store_real b)
                               else a) (bank_accounts d))
                (seq_persons d) (seq_bank_accounts d))
  end.

(** [DELETE FROM bank_accounts WHERE accountId = ?] *)
Definition delete_bank_accounts (account_id : Z) : M connection unit :=
  i <- lift_res (bind_int account_id) ;;
  conn <- get_conn ;;
  let d := db conn in
  put_db (Database (persons d)
            (filter (fun a => negb (a_accountId a =? i)) (bank_accounts d))
            (seq_persons d) (seq_bank_accounts d)).

(** [SELECT p.id, p.name, p.age, p.email, b.accountId, b.bankName, b.balance
     FROM persons p LEFT JOIN bank_accounts b ON p.id = b.personId
     WHERE p.id = ?] *)
Definition select_person_left_join_accounts (person_id : Z)
    : M connection (list (persons_row * option bank_accounts_row)) :=
  i <- lift_res (bind_int person_id) ;;
  conn <- get_conn ;;
  let d := db conn in
  ret (flat_map
         (fun p =>
            match filter (fun a => a_personId a =? p_id p) (bank_accounts d) with
            | [] => [(p, None)]
            | accounts => map (fun a => (p, Some a)) accounts
            end)
         (filter (fun r => p_id r =? i) (persons d))).

(** *** The tools of [mcp_servers/person_server.py] *)

Definition failure (error : string) : pydict :=
  [("success", PBool false); ("error", PStr error)].

Definition person_dict (id : Z) (name : string) (age : Z) (email : string)
    : pyval :=
  PDict [("id", PInt id); ("name", PStr name); ("age", PInt age);
         ("email", PStr email)].

Definition person_of_row (row : persons_row) : pyval :=
  person_dict (p_id row) (p_name row) (p_age row) (p_email row).

Definition create_person (name : string) (age : Z) (email : string)
    : connection -> pydict * connection :=
  try_except
    (person_id <- insert_persons name age email ;;
     ret [("success", PBool true);
          ("person", person_dict person_id name age email);
          ("message", PStr ("Person " ++ name ++ " created successfully with ID "
                            ++ str_of_int person_id))])
    (fun e =>
       if str_in "UNIQUE constraint failed" e then failure "Email already exists"
       else failure e).

Definition get_person (person_id : Z) : connection -> pydict * connection :=
  try_except
    (rows <- select_persons_by_id person_id ;;
     match fetchone rows with
     | Some row => ret [("success", PBool true); ("person", person_of_row row)]
     | None => ret (failure "Person not found")
     end)
    failure.

Definition list_persons : connection -> pydict * connection :=
  try_except
    (rows <- select_persons ;;
     let persons := map person_of_row rows in
     ret [("success", PBool true); ("persons", PList persons);
          ("count", PInt (Z.of_nat (List.length persons)))])
    failure.

Definition search_person_by_name (name : string)
    : connection -> pydict * connection :=
  try_except
    (rows <- select_persons_by_lower_name name ;;
     match fetchone rows with
     | Some row => ret [("success", PBool true); ("person", person_of_row row)]
     | None => ret (failure ("No person named " ++ name ++ " found"))
     end)
    failure.

Definition update_person (person_id : Z) (name : option string)
    (age : option Z) (email : option string)
    : connection -> pydict * connection :=
  try_except
    (rows <- select_persons_by_id person_id ;;
     match fetchone rows with
     | None => ret (failure "Person not found")
     | Some current =>
         let name := or_str name (p_name current) in
         let age := if_not_none age (p_age current) in
         let email := or_str email (p_email current) in
         _ <- update_persons name age email person_id ;;
         ret [("success", PBool true);
              ("person", person_dict person_id name age email);
              ("message", PStr ("Person " ++ name ++ " updated successfully"))]
     end)
    failure.

Definition delete_person (person_id : Z) : connection -> pydict * connection :=
  try_except
    (rows <- select_persons_by_id person_id ;;
     match fetchone rows with
     | None => ret (failure "Person not found")
     | Some person =>
         _ <- delete_persons person_id ;;
         ret [("success", PBool true);
              ("message", PStr ("Person " ++ p_name person ++ " deleted successfully"))]
     end)
    failure.

(** *** The tools of [mcp_servers/bank_server.py] *)

Definition account_dict (account_id person_id : Z) (bank_name : string)
    (balance : float) : pyval :=
  PDict [("accountId", PInt account_id); ("personId", PInt person_id);
         ("bankName", PStr bank_name); ("balance", PFloat balance)].

Definition account_of_row (row : bank_accounts_row) : pyval :=
  account_dict (a_accountId row) (a_personId row) (a_bankName row) (a_balance row).

(** The entries of the per-person listings, which leave [personId] out. *)
Definition account_entry (row : bank_accounts_row) : pyval :=
  PDict [("accountId", PInt (a_accountId row)); ("bankName", PStr (a_bankName row));
         ("balance", PFloat (a_balance row))].

(** [total_balance = 0] followed by [total_balance += row["balance"]] for each
    row: the [int] 0 when there is no row, a [float] sum otherwise. *)
Definition total_balance (rows : list bank_accounts_row) : pyval :=
  match
    fold_left
      (fun total row =>
         match total with
         | None => Some (PrimFloat.add PrimFloat.zero (a_balance row))
         | Some t => Some (PrimFloat.add t (a_balance row))
         end)
      rows None
  with
  | None => PInt 0
  | Some t => PFloat t
  end.

Definition create_bank_account (person_id : Z) (bank_name : string)
    (balance : float) : connection -> pydict * connection :=
  try_except
    (rows <- select_persons_by_id person_id ;;
     match fetchone rows with
     | None =>
         ret (failure ("Person with ID " ++ str_of_int person_id ++ " not found"))
     | Some person =>
         account_id <- insert_bank_accounts person_id bank_name balance ;;
         ret [("success", PBool true);
              ("account", account_dict account_id person_id bank_name balance);
              ("message", PStr ("Bank account created successfully with ID "
                                ++ str_of_int account_id ++ " for " ++ p_name person))]
     end)
    failure.

Definition get_bank_account (account_id : Z)
    : connection -> pydict * connection :=
  try_except
    (rows <- select_accounts_by_id account_id ;;
     match fetchone rows with
     | Some row => ret [("success", PBool true); ("account", account_of_row row)]
     | None => ret (failure "Bank account not found")
     end)
    failure.

Definition list_bank_accounts : connection -> pydict * connection :=
  try_except
    (rows <- select_accounts ;;
     let accounts := map account_of_row rows in
     ret [("success", PBool true); ("accounts", PList accounts);
          ("count", PInt (Z.of_nat (List.length accounts)))])
    failure.

Definition get_accounts_by_person (person_id : Z)
    : connection -> pydict * connection :=
  try_except
    (persons <- select_persons_by_id person_id ;;
     match fetchone persons with
     | None =>
         ret (failure ("Person with ID " ++ str_of_int person_id ++ " not found"))
     | Some person =>
         rows <- select_accounts_by_person person_id ;;
         let accounts := map account_entry rows in
         ret [("success", PBool true); ("person", PStr (p_name person));
              ("accounts", PList accounts);
              ("total_balance", total_balance rows);
              ("count", PInt (Z.of_nat (List.length accounts)))]
     end)
    failure.

Definition update_bank_account (account_id : Z) (bank_name : option string)
    (balance : option float) : connection -> pydict * connection :=
  try_except
    (rows <- select_accounts_by_id account_id ;;
     match fetchone rows with
     | None => ret (failure "Bank account not found")
     | Some current =>
         let bank_name := or_str bank_name (a_bankName current) in
         let balance := if_not_none balance (a_balance current) in
         _ <- update_bank_accounts bank_name balance account_id ;;
         ret [("success", PBool true);
              ("account", account_dict account_id (a_personId current) bank_name balance);
              ("message", PStr ("Bank account " ++ str_of_int account_id
                                ++ " updated successfully"))]
     end)
    failure.

Definition delete_bank_account (account_id : Z)
    : connection -> pydict * connection :=
  try_except
    (rows <- select_accounts_by_id account_id ;;
     match fetchone rows with
     | None => ret (failure "Bank account not found")
     | Some account =>
         _ <- delete_bank_accounts account_id ;;
         ret [("success", PBool true);
              ("message", PStr ("Bank account " ++ str_of_int account_id
                                ++ " deleted successfully"))]
     end)
    failure.

(** The joined rows that carry an account ([if row["accountId"]:]). *)
Definition joined_accounts (rows : list (persons_row * option bank_accounts_row))
    : list bank_accounts_row :=
  flat_map
    (fun row =>
       match snd row with
       | Some a => if a_accountId a =? 0 then [] else [a]
       | None => []
       end)
    rows.

Definition get_person_with_accounts (person_id : Z)
    : connection -> pydict * connection :=
  try_except
    (rows <- select_person_left_join_accounts person_id ;;
     match rows with
     | [] => ret (failure "Person not found")
     | first_row :: _ =>
         let p := fst first_row in
         let accounts := joined_accounts rows in
         ret [("success", PBool true);
              ("data",
               PDict [("id", PInt (p_id p)); ("name", PStr (p_name p));
                      ("age", PInt (p_age p)); ("email", PStr (p_email p));
                      ("accounts", PList (map account_entry accounts));
                      ("total_balance", total_balance accounts)])]
     end)
    failure.

(** A tool call as it reaches one of the two servers. *)
Inductive request : Type :=
| CreatePerson (name : string) (age : Z) (email : string)
| GetPerson (person_id : Z)
| ListPersons
| SearchPersonByName (name : string)
| UpdatePerson (person_id : Z) (name : option string) (age : option Z)
    (email : option string)
| DeletePerson (person_id : Z)
| CreateBankAccount (person_id : Z) (bank_name : string) (balance : float)
| GetBankAccount (account_id : Z)
| ListBankAccounts
| GetAccountsByPerson (person_id : Z)
| UpdateBankAccount (account_id : Z) (bank_name : option string)
    (balance : option float)
| DeleteBankAccount (account_id : Z)
| GetPersonWithAccounts (person_id : Z).

Definition call_tool (r : request) : connection -> pydict * connection :=
  match r with
  | CreatePerson name age email => create_person name age email
  | GetPerson person_id => get_person person_id
  | ListPersons => list_persons
  | SearchPersonByName name => search_person_by_name name
  | UpdatePerson person_id name age email => update_person person_id name age email
  | DeletePerson person_id => delete_person person_id
  | CreateBankAccount person_id bank_name balance =>
      create_bank_account person_id bank_name balance
  | GetBankAccount account_id => get_bank_account account_id
  | ListBankAccounts => list_bank_accounts
  | GetAccountsByPerson person_id => get_accounts_by_person person_id
  | UpdateBankAccount account_id bank_name balance =>
      update_bank_account account_id bank_name balance
  | DeleteBankAccount account_id => delete_bank_account account_id
  | GetPersonWithAccounts person_id => get_person_with_accounts person_id
  end.

End Store.

(** ** Reading the store, and a sample database *)

Module StoreViews.
Import Py Store.

Local Open Scope Z_scope.

(** The row a lookup by primary key sees. *)
Definition find_person (person_id : Z) (conn : connection) : option persons_row :=
  find (fun r => p_id r =? person_id) (persons (db conn)).

Definition find_account (account_id : Z) (conn : connection)
    : option bank_accounts_row :=
  find (fun a => a_accountId a =? account_id) (bank_accounts (db conn)).

(** The accounts that reference a person. *)
Definition accounts_of (person_id : Z) (conn : connection)
    : list bank_accounts_row :=
  filter (fun a => a_personId a =? person_id) (bank_accounts (db conn)).

(** An account whose [personId] matches no row of [persons]. *)
Definition orphan (conn : connection) (a : bank_accounts_row) : Prop :=
  find_person (a_personId a) conn = None.

(** The integers SQLite can store. *)
Definition int64 (z : Z) : Prop := int64_min <= z <= int64_max.


Definition succeeded (result : pydict) : Prop :=
  dict_get "success" result = Some (PBool true).

Definition failed (result : pydict) : Prop :=
  dict_get "success" result = Some (PBool false).

(** A float that a REAL column can give back. *)
Definition stored_real (f : float) : Prop := store_real f = f.


(** Two persons whose names differ in case only; the first owns two
    accounts. *)
Definition sample_database : database :=
  Database
    [PersonsRow 1 "Jane" 30 "jane@x.com"; PersonsRow 2 "JANE" 41 "jd@y.org"]
    [BankAccountsRow 1 1 "HDFC" 2500%float; BankAccountsRow 2 1 "SBI" 10.5%float]
    2 2.

Definition sample_connection : connection := _initialize_db (Some sample_database).

End StoreViews.

(** ** The orchestration protocol, read off a trace *)

Module Protocol.
Import Py Supervisor.

Definition valid_route (route : string) : Prop :=
  route = "MCP" \/ route = "RAG" \/ route = "BOTH".

(** The route the next attempt runs under, given the events so far (latest
    first): the parsed classifier reply after routing, the next agent of a
    verdict that is not ACCEPT after validation; no attempt may follow
    anything else. *)
Definition route_in_force (tr : trace) : option string :=
  match tr with
  | Called (RoutingKickoff _) (Returns reply) :: _ =>
      Some (_parse_routing_decision reply)
  | Called (ValidationKickoff _ _) (Returns reply) :: _ =>
      let v := _parse_validation_result reply in
      if is_accept v then None else Some (if_not_none (next_agent v) "BOTH")
  | _ => None
  end.

(** What may stand right after the events [earlier] in a run for [query]. *)
Definition event_ok (query : string) (ev : event) (earlier : trace) : Prop :=
  match ev with
  | Called (OpenTools server) _ =>
      match earlier with
      | [] => server = "mcp_servers/person_server.py"
      | [Called (OpenTools _) (Returns _)] => server = "mcp_servers/bank_server.py"
      | _ => False
      end
  | Called (RoutingKickoff q) _ =>
      q = query /\
      match earlier with
      | [Called (OpenTools _) (Returns _); Called (OpenTools _) (Returns _)] => True
      | _ => False
      end
  | AttemptBanner attempt limit =>
      limit = max_attempts /\
      attempt = S (List.length (banners earlier)) /\
      attempt <= max_attempts /\
      route_in_force earlier <> None
  | Called (McpKickoff q) _ =>
      q = query /\
      match earlier with
      | AttemptBanner _ _ :: before =>
          route_in_force before = Some "MCP" \/ route_in_force before = Some "BOTH"
      | _ => False
      end
  | Called (RagKickoff q) _ =>
      q = query /\
      match earlier with
      | AttemptBanner _ _ :: before => route_in_force before = Some "RAG"
      | Called (McpKickoff _) (Returns _) :: AttemptBanner _ _ :: before =>
          route_in_force before = Some "BOTH"
      | _ => False
      end
  | Called (SynthesisKickoff q worker_results) _ =>
      q = query /\
      match earlier with
      | Called (RagKickoff _) (Returns rag_text)
        :: Called (McpKickoff _) (Returns mcp_text) :: _ =>
          worker_results = [("MCP", mcp_text); ("RAG", rag_text)]
      | _ => False
      end
  | Called (ValidationKickoff q current_answer) _ =>
      q = query /\
      match earlier with
      | Called (SynthesisKickoff _ _) (Returns text) :: _ => current_answer = text
      | Called (McpKickoff _) (Returns text) :: AttemptBanner _ _ :: before =>
          current_answer = text /\ route_in_force before = Some "MCP"
      | Called (RagKickoff _) (Returns text) :: AttemptBanner _ _ :: before =>
          current_answer = text /\ route_in_force before = Some "RAG"
      | _ => False
      end
  end.

Fixpoint follows_protocol (query : string) (tr : trace) : Prop :=
  match tr with
  | [] => True
  | ev :: earlier => event_ok query ev earlier /\ follows_protocol query earlier
  end.

(** A run that has come to its end: a call raised, or the validator
    accepted, or it rejected the last attempt allowed. *)
Definition finished (tr : trace) : Prop :=
  match tr with
  | Called _ (Raises _) :: _ => True
  | Called (ValidationKickoff _ _) (Returns reply) :: earlier =>
      is_accept (_parse_validation_result reply) = true \/
      List.length (banners earlier) = max_attempts
  | _ => False
  end.

(** Every outcome on the trace is the one the environment gave to that call
    after the events before it. *)
Fixpoint answered (env : trace -> call -> outcome) (tr : trace) : Prop :=
  match tr with
  | [] => True
  | Called c o :: earlier => env earlier c = o /\ answered env earlier
  | AttemptBanner _ _ :: earlier => answered env earlier
  end.

(** How the text put before the validator came about, read off the events
    of its attempt (latest first): it is the reply of the one worker the
    route selected, or the reply of the synthesis call made on the replies
    of both workers under route BOTH. *)
Inductive verbatim_reply (query text : string) : trace -> Prop :=
| reply_of_mcp (attempt : nat) (before : trace) :
    route_in_force before = Some "MCP" ->
    verbatim_reply query text
      (Called (McpKickoff query) (Returns text)
       :: AttemptBanner attempt max_attempts :: before)
| reply_of_rag (attempt : nat) (before : trace) :
    route_in_force before = Some "RAG" ->
    verbatim_reply query text
      (Called (RagKickoff query) (Returns text)
       :: AttemptBanner attempt max_attempts :: before)
| reply_of_synthesis (mcp_text rag_text : string) (attempt : nat)
    (before : trace) :
    route_in_force before = Some "BOTH" ->
    verbatim_reply query text
      (Called (SynthesisKickoff query [("MCP", mcp_text); ("RAG", rag_text)])
         (Returns text)
       :: Called (RagKickoff query) (Returns rag_text)
       :: Called (McpKickoff query) (Returns mcp_text)
       :: AttemptBanner attempt max_attempts :: before).

(** The number of calls that left the process. *)
Definition calls (tr : trace) : nat :=
  List.length
    (filter (fun ev => match ev with Called _ _ => true | _ => false end) tr).

(** The calls answered by a language-model crew. *)
Definition crew_calls (tr : trace) : nat :=
  List.length
    (filter (fun ev =>
               match ev with
               | Called (OpenTools _) _ => false
               | Called _ _ => true
               | _ => false
               end) tr).

End Protocol.

(** ** What the schema promises, and sequences of tool calls *)

Module StoreSpec.
Import Py Store StoreViews.

Local Open Scope Z_scope.

(** The tool calls of [requests], one after the other, on one connection. *)
Definition run_tools (requests : list request) (conn : connection) : connection :=
  fold_left (fun c r => snd (call_tool r c)) requests conn.

(** The rowid the next [INSERT] into each table gets. *)
Definition next_person_id (conn : connection) : Z :=
  Z.max (seq_persons (db conn)) (max_rowid (map p_id (persons (db conn)))) + 1.

Definition next_account_id (conn : connection) : Z :=
  Z.max (seq_bank_accounts (db conn))
    (max_rowid (map a_accountId (bank_accounts (db conn)))) + 1.

(** What the CREATE TABLE statements of [_initialize_db] declare, but for
    the foreign key: primary keys and emails are unique, INTEGER columns
    hold 64-bit values, the REAL NOT NULL column holds no NaN, and the
    AUTOINCREMENT counters are at or above every key, keys starting at 1. *)
Record db_ok (d : database) : Prop := DbOk {
  ok_person_ids : NoDup (map p_id (persons d));
  ok_emails : NoDup (map p_email (persons d));
  ok_account_ids : NoDup (map a_accountId (bank_accounts d));
  ok_person_keys : Forall (fun r => 1 <= p_id r <= seq_persons d) (persons d);
  ok_account_keys :
    Forall (fun a => 1 <= a_accountId a <= seq_bank_accounts d) (bank_accounts d);
  ok_seq_persons : 0 <= seq_persons d <= int64_max;
  ok_seq_accounts : 0 <= seq_bank_accounts d <= int64_max;
  ok_ages : Forall (fun r => int64 (p_age r)) (persons d);
  ok_owners : Forall (fun a => int64 (a_personId a)) (bank_accounts d);
  ok_balances :
    Forall (fun a => PrimFloat.is_nan (a_balance a) = false) (bank_accounts d)
}.

(** The foreign key of [bank_accounts]: every account belongs to a stored
    person. *)
Definition no_orphans (conn : connection) : Prop :=
  Forall (fun a => find_person (a_personId a) conn <> None)
    (bank_accounts (db conn)).

(** The requests that only read. *)
Definition read_only (r : request) : bool :=
  match r with
  | GetPerson _ | ListPersons | SearchPersonByName _ | GetBankAccount _
  | ListBankAccounts | GetAccountsByPerson _ | GetPersonWithAccounts _ => true
  | _ => false
  end.

End StoreSpec.

(** ** Counting digits *)

Module ConfigSpec.
Import Config.

(** How many of the characters of [s] are digits. *)
Fixpoint count_digits (s : string) : nat :=
  match s with
  | EmptyString => 0
  | String c s' => (if is_digit c then 1 else 0) + count_digits s'
  end.

End ConfigSpec.

(** ** The document index: [src/rag/rag_pipeline.py], the search tool of
    [src/tools/rag_tools.py] and the health endpoint of [src/main.py]

    The Qdrant client, the PDF loader, the text splitter and the sentence
    encoder are outside the repository.  Each call of the client is
    answered by an environment that sees the calls made so far and is
    recorded on a trace, latest first; loader, splitter and encoder are
    functions that return or raise. *)

Module Rag.
Import Py.

Local Open Scope Z_scope.

Definition QDRANT_COLLECTION : string := "insurance_docs".

Definition vector : Type := list float.

(** The payload of a point, with the keys and the types of values that
    [index_pdf] writes; a key may be absent. *)
Record payload : Type := Payload {
  pl_content : option string;
  pl_source : option string;
  pl_page : option Z;
  pl_path : option string
}.

Record point : Type := Point {
  point_id : nat;
  point_vector : vector;
  point_payload : payload
}.

(** A scored point of a search; [None] is a point returned without payload. *)
Record hit : Type := Hit {
  hit_payload : option payload;
  hit_score : float
}.

Record collection_info : Type := CollectionInfo {
  vectors_count : pyval;
  points_count : pyval;
  indexed_vectors_count : pyval
}.

Inductive qcall : Type :=
| GetCollections
| CreateCollection (collection_name : string) (size : nat)
| DeleteCollection (collection_name : string)
| UploadPoints (collection_name : string) (points : list point)
| Search (collection_name : string) (query_vector : vector) (limit : nat)
| GetCollection (collection_name : string).

(** A call with the exception it raised, if any. *)
Definition qtrace : Type := list (qcall * option string).

(** The client as the code uses it. *)
Record qdrant : Type := Qdrant {
  q_get_collections : qtrace -> res (list string);
  q_create_collection : qtrace -> string -> nat -> res unit;
  q_delete_collection : qtrace -> string -> res unit;
  q_upload_points : qtrace -> string -> list point -> res unit;
  q_search : qtrace -> string -> vector -> nat -> res (list hit);
  q_get_collection : qtrace -> string -> res collection_info
}.

(** [try: body / except Exception as e: handler(e)] inside code that goes on. *)
Definition catch {S A : Type} (body : M S A) (handler : string -> M S A) : M S A :=
  fun s =>
    match body s with
    | (Ok a, s') => (Ok a, s')
    | (Exc e, s') => handler e s'
    end.

Definition lift {S A : Type} (r : res A) : M S A := fun s => (r, s).

(** One chunk of a page with its metadata. *)
Record chunk : Type := Chunk {
  ch_content : string;
  ch_source : string;
  ch_page : nat;
  ch_path : string
}.

(** One entry of what [search] returns. *)
Record result : Type := Result {
  r_content : string;
  r_source : string;
  r_page : Z;
  r_path : string;
  r_score : float
}.

Definition has_slash (s : string) : bool := str_in "/" s.

(** [os.path.basename]: what follows the last slash. *)
Fixpoint basename (p : string) : string :=
  match p with
  | EmptyString => EmptyString
  | String c rest =>
      if has_slash rest then basename rest
      else if Ascii.eqb c "/" then rest
      else p
  end.

(** [str.join] *)
Fixpoint join (sep : string) (parts : list string) : string :=
  match parts with
  | [] => ""
  | [x] => x
  | x :: rest => x ++ sep ++ join sep rest
  end.

(** [s * n] *)
Fixpoint times (s : string) (n : nat) : string :=
  match n with
  | O => ""
  | S n' => s ++ times s n'
  end.

(** [s[:n]] *)
Fixpoint prefix_chars (n : nat) (s : string) : string :=
  match n, s with
  | S n', String c s' => String c (prefix_chars n' s')
  | _, _ => ""
  end.

Definition newline : string := String (ascii_of_nat 10) "".

Section Pipeline.

Variable client : qdrant.

(** [PyPDFLoader(path).load()]: the text of each page. *)
Variable loader_load : string -> res (list string).

(** [self.text_splitter.split_text] *)
Variable split_text : string -> res (list string).

(** [self.encoder.encode] on a list of texts and on one query. *)
Variable encode_texts : list string -> res (list vector).
Variable encode_query : string -> res vector.

(** ["{score:.2f}"] *)
Variable format_2f : float -> string.

Definition call_client {A : Type} (c : qcall) (answer : qtrace -> res A)
    : M qtrace A :=
  fun tr =>
    match answer tr with
    | Ok a => (Ok a, (c, None) :: tr)
    | Exc e => (Exc e, (c, Some e) :: tr)
    end.

Definition get_collections : M qtrace (list string) :=
  call_client GetCollections (q_get_collections client).

Definition create_collection (name : string) (size : nat) : M qtrace unit :=
  call_client (CreateCollection name size)
    (fun tr => q_create_collection client tr name size).

Definition delete_collection (name : string) : M qtrace unit :=
  call_client (DeleteCollection name)
    (fun tr => q_delete_collection client tr name).

Definition upload_points (name : string) (points : list point) : M qtrace unit :=
  call_client (UploadPoints name points)
    (fun tr => q_upload_points client tr name points).

Definition client_search (name : string) (query_vector : vector) (limit : nat)
    : M qtrace (list hit) :=
  call_client (Search name query_vector limit)
    (fun tr => q_search client tr name query_vector limit).

Definition get_collection (name : string) : M qtrace collection_info :=
  call_client (GetCollection name)
    (fun tr => q_get_collection client tr name).

(** [RAGPipeline._initialize_collection] *)
Definition _initialize_collection : M qtrace unit :=
  catch
    (names <- get_collections ;;
     if negb (existsb (String.eqb QDRANT_COLLECTION) names)
     then create_collection QDRANT_COLLECTION 384
     else ret tt)
    (fun _ => ret tt).

(** Lines 68-79 of [index_pdf]: the chunks of the pages from [page_num] on. *)
Fixpoint chunks_of_pages (pdf_path : string) (page_num : nat)
    (pages : list string) : res (list chunk) :=
  match pages with
  | [] => Ok []
  | page :: rest =>
      match split_text page with
      | Exc e => Exc e
      | Ok page_chunks =>
          match chunks_of_pages pdf_path (S page_num) rest with
          | Exc e => Exc e
          | Ok later =>
              Ok (map (fun c => Chunk c (basename pdf_path) (page_num + 1) pdf_path)
                    page_chunks ++ later)%list
          end
      end
  end.

(** Lines 86-99: [enumerate(zip(chunks, embeddings))] from index [i] on. *)
Fixpoint points_from (i : nat) (chunks : list chunk) (embeddings : list vector)
    : list point :=
  match chunks, embeddings with
  | c :: chunks', v :: embeddings' =>
      Point i v
        (Payload (Some (ch_content c)) (Some (ch_source c))
           (Some (Z.of_nat (ch_page c))) (Some (ch_path c)))
      :: points_from (S i) chunks' embeddings'
  | _, _ => []
  end.

(** [RAGPipeline.index_pdf] *)
Definition index_pdf (pdf_path : string) : M qtrace pydict :=
  catch
    (pages <- lift (loader_load pdf_path) ;;
     chunks <- lift (chunks_of_pages pdf_path 0 pages) ;;
     embeddings <- lift (encode_texts (map ch_content chunks)) ;;
     let points := points_from 0 chunks embeddings in
     _ <- upload_points QDRANT_COLLECTION points ;;
     ret [("success", PBool true);
          ("file", PStr (basename pdf_path));
          ("chunks", PInt (Z.of_nat (List.length chunks)));
          ("pages", PInt (Z.of_nat (List.length pages)))])
    (fun e =>
       ret [("success", PBool false);
            ("file", PStr (basename pdf_path));
            ("error", PStr e)]).

(** The [for pdf_file in pdf_files] loop of [index_all_pdfs]. *)
Fixpoint index_each (pdf_files : list string) (results : list pydict)
    : M qtrace (list pydict) :=
  match pdf_files with
  | [] => ret results
  | pdf_file :: rest =>
      result <- index_pdf pdf_file ;;
      index_each rest (results ++ [result])%list
  end.

(** [RAGPipeline.index_all_pdfs], given the PDF files found in the
    resources directory. *)
Definition index_all_pdfs (pdf_files : list string) : M qtrace (list pydict) :=
  match pdf_files with
  | [] => ret []
  | _ :: _ =>
      _ <- catch
             (_ <- delete_collection QDRANT_COLLECTION ;;
              _initialize_collection)
             (fun _ => ret tt) ;;
      index_each pdf_files []
  end.

(** Lines 174-184 of [search]: a hit as a result entry; a hit without
    payload has no [get]. *)
Fixpoint results_of_hits (hits : list hit) : res (list result) :=
  match hits with
  | [] => Ok []
  | h :: rest =>
      match hit_payload h with
      | None => Exc "'NoneType' object has no attribute 'get'"
      | Some p =>
          match results_of_hits rest with
          | Exc e => Exc e
          | Ok later =>
              Ok (Result (if_not_none (pl_content p) "")
                    (if_not_none (pl_source p) "")
                    (if_not_none (pl_page p) 0)
                    (if_not_none (pl_path p) "")
                    (hit_score h) :: later)
          end
      end
  end.

(** [RAGPipeline.search] *)
Definition search (query : string) (top_k : nat) : M qtrace (list result) :=
  catch
    (query_embedding <- lift (encode_query query) ;;
     search_result <- client_search QDRANT_COLLECTION query_embedding top_k ;;
     lift (results_of_hits search_result))
    (fun _ => ret []).

(** [RAGPipeline.get_collection_info] *)
Definition get_collection_info : M qtrace pydict :=
  catch
    (info <- get_collection QDRANT_COLLECTION ;;
     ret [("vectors_count", vectors_count info);
          ("points_count", points_count info);
          ("indexed_payload_count", indexed_vectors_count info)])
    (fun e => ret [("error", PStr e)]).

(** The text of one result in [SearchDocumentsTool._run].  The five
    literals are one string, so the final [* 50] repeats all of it. *)
Definition formatted_result (i : nat) (r : result) : string :=
  times
    ("Result " ++ str_of_int (Z.of_nat i) ++ ":" ++ newline
     ++ "Source: " ++ r_source r ++ ", Page: " ++ str_of_int (r_page r) ++ newline
     ++ "Relevance Score: " ++ format_2f (r_score r) ++ newline
     ++ "Content: " ++ prefix_chars 500 (r_content r) ++ "..." ++ newline
     ++ "-")
    50.

(** [enumerate(results, start)] mapped to the formatted texts. *)
Fixpoint formatted_results (start : nat) (results : list result) : list string :=
  match results with
  | [] => []
  | r :: rest => formatted_result start r :: formatted_results (S start) rest
  end.

(** [SearchDocumentsTool._run]; [pipeline_set] tells whether
    [set_rag_pipeline] has been called. *)
Definition _run (pipeline_set : bool) (query : string) : M qtrace string :=
  if negb pipeline_set then
    ret "Error: RAG pipeline not initialized. Please ensure the system is properly started."
  else
    catch
      (results <- search query 5 ;;
       match results with
       | [] => ret "No relevant documents found for your query."
       | _ :: _ => ret (join newline (formatted_results 1 results))
       end)
      (fun e => ret ("Error searching documents: " ++ e)).

(** [d.get(key, default)] *)
Definition dict_get_default (key : string) (d : pydict) (default : pyval) : pyval :=
  match dict_get key d with
  | Some v => v
  | None => default
  end.

(** [health_check] of [main.py]; the two flags tell whether the globals
    [ai_crew] and [rag_pipeline] are set. *)
Definition health_check (ai_crew rag_pipeline : bool) : M qtrace pydict :=
  let health :=
    [("status", PStr "healthy");
     ("crew", PStr (if ai_crew then "initialized" else "not initialized"));
     ("rag_pipeline",
      PStr (if rag_pipeline then "initialized" else "not initialized"))] in
  if rag_pipeline then
    catch
      (collection_info <- get_collection_info ;;
       ret (health ++
            [("qdrant",
              PDict [("status", PStr "connected");
                     ("vectors",
                      dict_get_default "vectors_count" collection_info (PInt 0))])])%list)
      (fun _ =>
         ret (health ++
              [("qdrant", PDict [("status", PStr "error or not running")])])%list)
  else ret health.

End Pipeline.

(** The uploads of a run, latest first: the collection each went to and
    its points. *)
Definition uploads (tr : qtrace) : list (string * list point) :=
  flat_map
    (fun ev => match ev with
               | (UploadPoints collection_name points, _) =>
                   [(collection_name, points)]
               | _ => []
               end) tr.

End Rag.

(** ** Notions used to state properties of the document index *)

Module RagSpec.
Import Py Rag.

(** A hit that came back without its payload. *)
Definition no_payload (h : hit) : bool :=
  match hit_payload h with
  | None => true
  | Some _ => false
  end.

(** Something goes wrong inside [search] for this query: the encoder
    raises, the client raises, or a hit has no payload. *)
Definition search_fails (client : qdrant) (encode_query : string -> res vector)
    (query : string) (top_k : nat) (tr : qtrace) : bool :=
  match encode_query query with
  | Exc _ => true
  | Ok query_embedding =>
      match q_search client tr QDRANT_COLLECTION query_embedding top_k with
      | Exc _ => true
      | Ok hits => existsb no_payload hits
      end
  end.

(** The points of one upload are numbered 0, 1, 2, ... and all carry the
    name and the path of the one file [pdf_path], with a page from 1 on. *)
Definition upload_of (pdf_path : string) (points : list point) : Prop :=
  map point_id points = seq 0 (List.length points) /\
  Forall (fun p =>
            pl_source (point_payload p) = Some (basename pdf_path) /\
            pl_path (point_payload p) = Some pdf_path /\
            exists page, pl_page (point_payload p) = Some (Z.of_nat page) /\
                         (1 <= page)%nat)
         points.

(** [l1] is [l2] with some of its elements left out. *)
Inductive subseq {A : Type} : list A -> list A -> Prop :=
| subseq_nil : subseq [] []
| subseq_skip (x : A) (l1 l2 : list A) : subseq l1 l2 -> subseq l1 (x :: l2)
| subseq_take (x : A) (l1 l2 : list A) :
    subseq l1 l2 -> subseq (x :: l1) (x :: l2).

(** An upload of the file [pdf_path] to the collection of [config.py]. *)
Definition uploaded (pdf_path : string) (upload : string * list point) : Prop :=
  fst upload = QDRANT_COLLECTION /\ upload_of pdf_path (snd upload).

(** Two uploads put a point under the same id into the same collection. *)
Definition collide (up1 up2 : string * list point) : Prop :=
  fst up1 = fst up2 /\
  exists p1 p2, In p1 (snd up1) /\ In p2 (snd up2) /\ point_id p1 = point_id p2.

(** A client whose server cannot be reached. *)
Definition unreachable : qdrant :=
  let e := "[Errno 111] Connection refused" in
  Qdrant (fun _ => Exc e) (fun _ _ _ => Exc e) (fun _ _ => Exc e)
    (fun _ _ _ => Exc e) (fun _ _ _ _ => Exc e) (fun _ _ => Exc e).

End RagSpec.

(** ** The profile search tool: [src/tools/serper_tool.py]

    [SerperDevTool] is outside the repository: its constructor and each
    [run] return or raise.  A call of [run] is answered by an environment
    that sees the queries made so far, latest first. *)

Module Serper.
Import Py.

(** What [serper.run] returns: a dict, whose [organic] entries have a
    [link] or not, a text, or something else. *)
Inductive search_results : Type :=
| ResultsDict (organic : option (list (option string)))
| ResultsStr (text : string)
| ResultsOther.

Definition dquote : ascii := ascii_of_nat 34.

(** [s[len(pre):]] when [s] starts with [pre]. *)
Fixpoint strip_prefix (pre s : string) : option string :=
  match pre, s with
  | EmptyString, _ => Some s
  | String a pre', String b s' =>
      if Ascii.eqb a b then strip_prefix pre' s' else None
  | String _ _, EmptyString => None
  end.

(** The class after the domain: any character but a blank, a quote of
    either kind and the closing angle bracket. *)
Definition url_char (c : ascii) : bool :=
  negb (Config.is_space c || Ascii.eqb c dquote || Ascii.eqb c "'"
        || Ascii.eqb c ">").

(** The longest head of [s] made of characters that satisfy [p]. *)
Fixpoint take_while (p : ascii -> bool) (s : string) : string :=
  match s with
  | String c s' => if p c then String c (take_while p s') else ""
  | EmptyString => ""
  end.

(** The domain and the characters of the class after it, at the head of
    [s]: the text matched. *)
Definition domain_here (domain s : string) : option string :=
  match strip_prefix domain s with
  | Some s' => Some (domain ++ take_while url_char s')
  | None => None
  end.

(** The optional group [(?:www\.)?] and what follows it, at the head of
    [s]; the group is tried first, and given up when the domain does not
    follow it. *)
Definition host_here (domain s : string) : option string :=
  match strip_prefix "www." s with
  | Some s' =>
      match domain_here domain s' with
      | Some m => Some ("www." ++ m)
      | None => domain_here domain s
      end
  | None => domain_here domain s
  end.

(** The pattern from [://] on, at the head of [s]. *)
Definition colon_here (domain s : string) : option string :=
  match strip_prefix "://" s with
  | Some s' =>
      match host_here domain s' with
      | Some m => Some ("://" ++ m)
      | None => None
      end
  | None => None
  end.

(** The whole pattern at the head of [s]; the [s] of [https] is tried
    first. *)
Definition url_here (domain s : string) : option string :=
  match strip_prefix "http" s with
  | Some s' =>
      match
        match strip_prefix "s" s' with
        | Some s'' =>
            match colon_here domain s'' with
            | Some m => Some ("s" ++ m)
            | None => colon_here domain s'
            end
        | None => colon_here domain s'
        end
      with
      | Some m => Some ("http" ++ m)
      | None => None
      end
  | None => None
  end.

(** [re.findall(url_pattern, text)[0]] when there is a match: the
    leftmost one. *)
Fixpoint first_url (domain text : string) : option string :=
  match url_here domain text with
  | Some m => Some m
  | None =>
      match text with
      | String _ text' => first_url domain text'
      | EmptyString => None
      end
  end.

(** [s.rstrip(chars)] *)
Fixpoint rstrip (chars : ascii -> bool) (s : string) : string :=
  match s with
  | EmptyString => ""
  | String c s' =>
      match rstrip chars s' with
      | EmptyString => if chars c then "" else String c ""
      | String c' r => String c (String c' r)
      end
  end.

(** The characters of ['.,;:)']. *)
Definition trailing (c : ascii) : bool :=
  Ascii.eqb c "." || Ascii.eqb c "," || Ascii.eqb c ";" || Ascii.eqb c ":"
  || Ascii.eqb c ")".

(** The loop over [organic_results]. *)
Fixpoint first_link (domain : string) (organic_results : list (option string))
    : option string :=
  match organic_results with
  | [] => None
  | result :: rest =>
      let link := if_not_none result "" in
      if str_in domain link then Some link else first_link domain rest
  end.

(** [ProfileSearchTool._extract_url] *)
Definition _extract_url (results : search_results) (domain : string)
    : option string :=
  match results with
  | ResultsDict organic => first_link domain (if_not_none organic [])
  | ResultsStr text =>
      match first_url domain text with
      | Some m => Some (rstrip trailing m)
      | None => None
      end
  | ResultsOther => None
  end.

(** [email.split('@')[1]] for an email with an ['@']: what lies between
    the first ['@'] and the next one, or the end. *)
Fixpoint until_at (s : string) : string :=
  match s with
  | EmptyString => ""
  | String c s' => if Ascii.eqb c "@" then "" else String c (until_at s')
  end.

Fixpoint after_at (s : string) : string :=
  match s with
  | EmptyString => ""
  | String c s' => if Ascii.eqb c "@" then until_at s' else after_at s'
  end.

Definition github_query (person_name : string) (email : option string) : string :=
  let github_query :=
    "site:github.com " ++ String dquote person_name ++ String dquote "" in
  match email with
  | Some email =>
      if str_truthy email then
        let email_domain := if str_in "@" email then after_at email else "" in
        if str_truthy email_domain
        then github_query ++ " OR " ++ email_domain
        else github_query
      else github_query
  | None => github_query
  end.

Definition linkedin_query (person_name : string) : string :=
  "site:linkedin.com/in " ++ String dquote person_name ++ String dquote "".

(** The value under a key of [results["profiles_found"]]: set to the URL
    when one is found and truthy, to [None] when the search raises. *)
Definition found_url (searched : res search_results) (domain : string)
    : option string :=
  match searched with
  | Ok results =>
      match _extract_url results domain with
      | Some url => if str_truthy url then Some url else None
      | None => None
      end
  | Exc _ => None
  end.

Definition profile_line (site : string) (url : option string) : string :=
  match url with
  | Some url => if str_truthy url then site ++ ": " ++ url
                else site ++ ": Not found"
  | None => site ++ ": Not found"
  end.

Section Tool.

(** [SerperDevTool()] *)
Variable serper_init : res unit.

(** [serper.run(query=...)], given the queries made before. *)
Variable serper_run : list string -> string -> res search_results.

Definition run_query (query : string) : list string -> res search_results * list string :=
  fun queries => (serper_run queries query, query :: queries).

(** [ProfileSearchTool._run]; the state is the list of queries made. *)
Definition _run (person_name : string) (email : option string)
    : list string -> string * list string :=
  try_except
    (_ <- (fun queries => (serper_init, queries)) ;;
     fun queries =>
       let (github_results, queries) :=
         run_query (github_query person_name email) queries in
       let github := found_url github_results "github.com" in
       let (linkedin_results, queries) :=
         run_query (linkedin_query person_name) queries in
       let linkedin := found_url linkedin_results "linkedin.com/in" in
       (Ok (Rag.join Rag.newline
              ["Profile search results for " ++ person_name ++ ":";
               profile_line "GitHub" github;
               profile_line "LinkedIn" linkedin]),
        queries))
    (fun e => "Error searching for profiles: " ++ e).

End Tool.

End Serper.

(** * Properties *)

(** ** Strings *)

Module PyFacts.
Import Py.

Lemma startswith_iff (needle hay : string) :
  startswith needle hay = true <-> exists rest, hay = needle ++ rest.
Proof.
  revert hay. induction needle as [|a n IH]; intros hay; simpl.
  - split; [intros _; now exists hay | reflexivity].
  - destruct hay as [|b h].
    + split; [discriminate | intros [rest H]; discriminate].
    + rewrite andb_true_iff, Ascii.eqb_eq, IH. split.
      * intros [-> [rest ->]]. now exists rest.
      * intros [rest H]. injection H as -> ->. split; [reflexivity | now exists rest].
Qed.

Lemma str_in_iff (needle hay : string) :
  str_in needle hay = true <->
  exists before after, hay = before ++ needle ++ after.
Proof.
  induction hay as [|c h IH]; simpl.
  - rewrite startswith_iff. split.
    + intros [rest H]. now exists EmptyString, rest.
    + intros [[|b before] [after H]]; [now exists after | discriminate].
  - rewrite orb_true_iff, IH, startswith_iff. split.
    + intros [[rest H] | [before [after H]]].
      * now exists EmptyString, rest.
      * exists (String c before), after. simpl. now rewrite H.
    + intros [[|b before] [after H]].
      * left. now exists after.
      * right. simpl in H. injection H as _ H. now exists before, after.
Qed.

Lemma any_in_iff (keywords : list string) (text : string) :
  any_in keywords text = true <->
  exists keyword, In keyword keywords /\ str_in keyword text = true.
Proof. unfold any_in. apply existsb_exists. Qed.

Lemma lower_length (s : string) : String.length (lower s) = String.length s.
Proof. induction s; simpl; congruence. Qed.

Lemma str_truthy_iff (s : string) : str_truthy s = true <-> s <> EmptyString.
Proof. destruct s; simpl; split; congruence. Qed.

End PyFacts.

(** ** The normalizers of the supervisor *)

Module ParserFacts.
Import Py Supervisor PyFacts.

Lemma mentions_iff (term output : string) :
  mentions term output <-> str_in term (lower output) = true.
Proof. unfold mentions. symmetry. apply str_in_iff. Qed.

Lemma mentions_any_iff (terms : list string) (output : string) :
  mentions_any terms output <-> any_in terms (lower output) = true.
Proof.
  unfold mentions_any. rewrite any_in_iff.
  split; intros [t [Hin H]]; exists t; split; auto; now apply mentions_iff.
Qed.

Lemma not_mentions_iff (term output : string) :
  ~ mentions term output <-> str_in term (lower output) = false.
Proof. rewrite mentions_iff. apply not_true_iff_false. Qed.

Lemma not_mentions_any_iff (terms : list string) (output : string) :
  ~ mentions_any terms output <-> any_in terms (lower output) = false.
Proof. rewrite mentions_any_iff. apply not_true_iff_false. Qed.

(** Turns the statements about [mentions] in the context and the goal into
    the boolean tests the code runs. *)
Ltac to_tests :=
  repeat match goal with
  | H : ~ (_ \/ _) |- _ => apply Decidable.not_or in H; destruct H
  | H : _ /\ _ |- _ => destruct H
  | H : mentions _ _ |- _ => apply mentions_iff in H
  | H : ~ mentions _ _ |- _ => apply not_mentions_iff in H
  | H : mentions_any _ _ |- _ => apply mentions_any_iff in H
  | H : ~ mentions_any _ _ |- _ => apply not_mentions_any_iff in H
  end.

(** C2.  [_parse_routing_decision] is a function of the reply text alone
    (it lives outside the state monad, so it has no effect and the same
    text always gives the same route).  Its value is BOTH when the
    lowercased reply contains "both" or "mcp_and_rag"; otherwise MCP when it
    contains "mcp" or "database"; otherwise RAG when it contains "rag" or
    "document"; otherwise BOTH.  In particular it is always one of the three
    routes. *)
Theorem parse_routing_decision_spec (output : string) :
  (mentions "both" output \/ mentions "mcp_and_rag" output ->
   _parse_routing_decision output = "BOTH") /\
  (~ (mentions "both" output \/ mentions "mcp_and_rag" output) ->
   mentions "mcp" output \/ mentions "database" output ->
   _parse_routing_decision output = "MCP") /\
  (~ (mentions "both" output \/ mentions "mcp_and_rag" output) ->
   ~ (mentions "mcp" output \/ mentions "database" output) ->
   mentions "rag" output \/ mentions "document" output ->
   _parse_routing_decision output = "RAG") /\
  (~ (mentions "both" output \/ mentions "mcp_and_rag" output) ->
   ~ (mentions "mcp" output \/ mentions "database" output) ->
   ~ (mentions "rag" output \/ mentions "document" output) ->
   _parse_routing_decision output = "BOTH") /\
  In (_parse_routing_decision output) ["MCP"; "RAG"; "BOTH"].
Proof.
  unfold _parse_routing_decision.
  repeat split; intros; to_tests.
  - destruct H as [H | H]; to_tests; rewrite H; [reflexivity | now rewrite orb_true_r].
  - rewrite H, H1. simpl.
    destruct H0 as [H0 | H0]; to_tests; rewrite H0; [reflexivity | now rewrite orb_true_r].
  - rewrite H, H3, H0, H2. simpl.
    destruct H1 as [H1 | H1]; to_tests; rewrite H1; [reflexivity | now rewrite orb_true_r].
  - now rewrite H, H4, H0, H3, H1, H2.
  - repeat match goal with |- context [if ?b then _ else _] => destruct b end;
      simpl; auto.
Qed.

(** The reply "RAG" names neither "both" nor a database term, and is routed
    to the document worker. *)
Lemma parse_routing_decision_spec_witness :
  _parse_routing_decision "RAG" = "RAG".
Proof.
  apply (proj1 (proj2 (proj2 (parse_routing_decision_spec "RAG")))).
  - intros [H | H]; apply mentions_iff in H; discriminate H.
  - intros [H | H]; apply mentions_iff in H; discriminate H.
  - left. apply mentions_iff. reflexivity.
Defined.

(** C1.  [_parse_validation_result], branch by branch and in this order:
    an acceptance term in the lowercased reply gives ACCEPT; else a retry
    term gives RETRY, with next route BOTH if the reply names "both", else
    MCP if it names "mcp", else RAG if it names "rag", else BOTH; else the
    fixture check ("engine number" together with "en12345xyz") gives ACCEPT;
    and every remaining reply gives ACCEPT as well. *)
Theorem parse_validation_result_spec (output : string) :
  let v := _parse_validation_result output in
  (mentions_any accept_keywords output ->
   v = Validation "ACCEPT" (Some output) None) /\
  (~ mentions_any accept_keywords output ->
   mentions_any retry_keywords output ->
   status v = "RETRY" /\ reason v = None /\
   (mentions "both" output -> next_agent v = Some "BOTH") /\
   (~ mentions "both" output -> mentions "mcp" output ->
    next_agent v = Some "MCP") /\
   (~ mentions "both" output -> ~ mentions "mcp" output ->
    mentions "rag" output -> next_agent v = Some "RAG") /\
   (~ mentions "both" output -> ~ mentions "mcp" output ->
    ~ mentions "rag" output -> next_agent v = Some "BOTH")) /\
  (~ mentions_any accept_keywords output ->
   ~ mentions_any retry_keywords output ->
   mentions "engine number" output /\ mentions "en12345xyz" output ->
   v = Validation "ACCEPT" (Some "Answer contains requested information") None) /\
  (~ mentions_any accept_keywords output ->
   ~ mentions_any retry_keywords output ->
   ~ (mentions "engine number" output /\ mentions "en12345xyz" output) ->
   v = Validation "ACCEPT" (Some "Validation unclear, accepting answer") None).
Proof.
  cbv zeta. unfold _parse_validation_result.
  split; [| split; [| split]].
  - intros H; to_tests. now rewrite H.
  - intros Ha Hr; to_tests. rewrite Ha, Hr.
    repeat split; intros; to_tests;
      repeat match goal with
             | H : str_in _ _ = _ |- _ => rewrite H; clear H
             end; try reflexivity;
      repeat match goal with |- context [if ?b then _ else _] => destruct b end;
      reflexivity.
  - intros Ha Hr He; to_tests. now rewrite Ha, Hr, H, H0.
  - intros Ha Hr He; to_tests. rewrite Ha, Hr.
    destruct (str_in "engine number" (lower output)) eqn:E1;
      destruct (str_in "en12345xyz" (lower output)) eqn:E2; simpl; try reflexivity.
    exfalso. apply He. split; now apply mentions_iff.
Qed.

(** The reply "RETRY_WITH_RAG" carries no acceptance term and the retry term
    "retry"; it names "rag" only. *)
Lemma parse_validation_result_spec_witness :
  status (_parse_validation_result "RETRY_WITH_RAG") = "RETRY" /\
  next_agent (_parse_validation_result "RETRY_WITH_RAG") = Some "RAG".
Proof.
  destruct (proj1 (proj2 (parse_validation_result_spec "RETRY_WITH_RAG")))
    as [Hs [_ [_ [_ [Hrag _]]]]].
  - intros H. apply mentions_any_iff in H. discriminate H.
  - apply mentions_any_iff. reflexivity.
  - split; [exact Hs |]. apply Hrag.
    + intros H. apply mentions_iff in H. discriminate H.
    + intros H. apply mentions_iff in H. discriminate H.
    + apply mentions_iff. reflexivity.
Defined.

End ParserFacts.

(** ** The retry loop of [process_query] *)

Module LoopFacts.
Import Py Supervisor.

Section Run.

Variable env : trace -> call -> outcome.

(** The loop, unfolded once. *)
Lemma retry_loop_unfold (query : string) (attempt : nat) (route : string)
    (tr : trace) :
  retry_loop env query attempt route tr =
  if (attempt <=? max_attempts)%nat then
    match attempt_once env query attempt route tr with
    | (Exc e, tr') => (Exc e, tr')
    | (Ok (current_answer, v), tr') =>
        if is_accept v then (Ok (Some current_answer, attempt), tr')
        else retry_loop env query (S attempt)
               (if_not_none (next_agent v) "BOTH") tr'
    end
  else (Ok (None, attempt), tr).
Proof.
  simp retry_loop.
  destruct (le_lt_dec attempt max_attempts) as [Hle | Hlt]; simpl.
  - rewrite (proj2 (Nat.leb_le _ _) Hle).
    destruct (attempt_once env query attempt route tr) as [[[ans v] | e] tr'];
      simpl; [| reflexivity].
    destruct (is_accept v); reflexivity.
  - rewrite (proj2 (Nat.leb_gt _ _) Hlt). reflexivity.
Qed.

(** What one attempt adds to the trace.  Either it ends in the validator's
    reply, or in the call that raised; before that, only the banner and
    replies of workers and synthesis. *)
Lemma attempt_once_run (query : string) (attempt : nat) (route : string)
    (tr : trace) :
  match attempt_once env query attempt route tr with
  | (Ok (answer, v), tr') =>
      exists reply rest,
        tr' = Called (ValidationKickoff query answer) (Returns reply) :: rest /\
        env rest (ValidationKickoff query answer) = Returns reply /\
        v = _parse_validation_result reply /\
        banners rest = attempt :: banners tr /\
        verdicts rest = verdicts tr /\
        raised rest = raised tr /\
        answer_source env answer
  | (Exc e, tr') =>
      exists c rest,
        tr' = Called c (Raises e) :: rest /\
        env rest c = Raises e /\
        banners rest = attempt :: banners tr /\
        verdicts rest = verdicts tr /\
        raised rest = raised tr
  end.
Proof.
  unfold attempt_once, execute_workers, candidate_answer, bind, ret, emit, kickoff.
  destruct (String.eqb route "MCP" || String.eqb route "BOTH");
    destruct (String.eqb route "RAG" || String.eqb route "BOTH"); simpl.
  all: repeat (match goal with
               | |- context [env ?t ?c] => destruct (env t c) eqn:?
               end; simpl).
  all: do 2 eexists; repeat split; try eassumption; try reflexivity.
  all: try (right; do 2 eexists; split; [| eassumption]; reflexivity).
  left; reflexivity.
Qed.

Lemma rev_seq_S (k : nat) : rev (seq 1 (S k)) = S k :: rev (seq 1 k).
Proof. rewrite seq_S, rev_app_distr. reflexivity. Qed.

Lemma verdicts_validation (query answer reply : string) (rest : trace) :
  verdicts (Called (ValidationKickoff query answer) (Returns reply) :: rest) =
  _parse_validation_result reply :: verdicts rest.
Proof. reflexivity. Qed.

(** The loop from any entry point: [n] iterations are left before the
    counter passes [max_attempts].  On entry the trace shows attempts
    1 .. attempt-1, all rejected, and no raise. *)
Lemma retry_loop_run (query : string) :
  forall (n attempt : nat) (route : string) (tr : trace),
    attempt + n = S max_attempts ->
    1 <= attempt ->
    banners tr = rev (seq 1 (attempt - 1)) ->
    raised tr = [] ->
    Forall rejected (verdicts tr) ->
    match retry_loop env query attempt route tr with
    | (Ok (Some answer, k), tr') =>
        attempt <= k <= max_attempts /\
        banners tr' = rev (seq 1 k) /\
        raised tr' = [] /\
        List.length (verdicts tr') = List.length (verdicts tr) + (S k - attempt) /\
        answer_source env answer /\
        exists reply rest,
          tr' = Called (ValidationKickoff query answer) (Returns reply) :: rest /\
          env rest (ValidationKickoff query answer) = Returns reply /\
          is_accept (_parse_validation_result reply) = true /\
          Forall rejected (verdicts rest)
    | (Ok (None, k), tr') =>
        k = S max_attempts /\
        banners tr' = rev (seq 1 max_attempts) /\
        raised tr' = [] /\
        List.length (verdicts tr') = List.length (verdicts tr) + n /\
        Forall rejected (verdicts tr')
    | (Exc e, tr') =>
        exists k c rest,
          attempt <= k <= max_attempts /\
          banners tr' = rev (seq 1 k) /\
          tr' = Called c (Raises e) :: rest /\
          env rest c = Raises e /\
          raised rest = [] /\
          Forall rejected (verdicts tr')
    end.
Proof.
  induction n as [|n IH]; intros attempt route tr Hn Ha Hb Hr Hv;
    rewrite retry_loop_unfold.
  - assert (attempt = S max_attempts) as -> by lia. simpl.
    repeat split; auto.
  - assert (Hle : (attempt <=? max_attempts)%nat = true) by (apply Nat.leb_le; lia).
    rewrite Hle.
    pose proof (attempt_once_run query attempt route tr) as Hrun.
    destruct (attempt_once env query attempt route tr) as [[[answer v] | e] tr1].
    + destruct Hrun as (reply & rest & -> & Henv & -> & Hb1 & Hv1 & Hr1 & Hsrc).
      assert (Hbk : banners rest = rev (seq 1 attempt)).
      { rewrite Hb1, Hb. destruct attempt as [|k]; [lia |].
        rewrite rev_seq_S. simpl. now rewrite Nat.sub_0_r. }
      destruct (is_accept (_parse_validation_result reply)) eqn:Hacc.
      * split; [lia |]. split; [exact Hbk |]. split; [simpl; congruence |].
        split; [rewrite verdicts_validation; cbn [List.length]; rewrite Hv1; lia |].
        split; [exact Hsrc |].
        exists reply, rest. repeat split; auto. now rewrite Hv1.
      * specialize (IH (S attempt) (if_not_none (next_agent (_parse_validation_result reply)) "BOTH")
                       (Called (ValidationKickoff query answer) (Returns reply) :: rest)).
        assert (Hlen : List.length (verdicts (Called (ValidationKickoff query answer) (Returns reply) :: rest))
                       = S (List.length (verdicts tr)))
          by (rewrite verdicts_validation; simpl; now rewrite Hv1).
        lapply IH; [clear IH; intros IH | lia].
        lapply IH; [clear IH; intros IH | lia].
        lapply IH; [clear IH; intros IH | simpl; now rewrite Nat.sub_0_r].
        lapply IH; [clear IH; intros IH | simpl; congruence].
        lapply IH; [clear IH; intros IH
                   | rewrite verdicts_validation; constructor; [exact Hacc | now rewrite Hv1]].
        destruct (retry_loop env query (S attempt) _ _) as [[[[final |] k] | e] tr2].
        -- destruct IH as (Hk & Hbb & Hrr & Hll & Hss & Hex).
           repeat split; try lia; auto.
        -- destruct IH as (Hk & Hbb & Hrr & Hll & Hff).
           repeat split; try lia; auto.
        -- destruct IH as (k & c & rest2 & Hk & Hbb & Heq & He & Hrr & Hff).
           exists k, c, rest2. repeat split; try lia; auto.
    + destruct Hrun as (c & rest & -> & Henv & Hb1 & Hv1 & Hr1).
      exists attempt, c, rest. repeat split; try lia; auto.
      * simpl. rewrite Hb1, Hb. destruct attempt as [|k]; [lia |].
        rewrite rev_seq_S. simpl. now rewrite Nat.sub_0_r.
      * congruence.
      * destruct c; simpl; now rewrite Hv1.
Qed.

(** Route BOTH with two workers that return text, whatever the text says:
    synthesis is called on the two texts in order (database worker first)
    and the validator is shown the synthesized text. *)
Lemma both_route_synthesizes (query : string) (attempt : nat) (tr : trace)
    (mcp_text rag_text : string) :
  let tr1 := AttemptBanner attempt max_attempts :: tr in
  let tr2 := Called (McpKickoff query) (Returns mcp_text) :: tr1 in
  let tr3 := Called (RagKickoff query) (Returns rag_text) :: tr2 in
  let synthesis :=
    SynthesisKickoff query [("MCP", mcp_text); ("RAG", rag_text)] in
  env tr1 (McpKickoff query) = Returns mcp_text ->
  env tr2 (RagKickoff query) = Returns rag_text ->
  match env tr3 synthesis with
  | Raises e =>
      attempt_once env query attempt "BOTH" tr
      = (Exc e, Called synthesis (Raises e) :: tr3)
  | Returns candidate =>
      let tr4 := Called synthesis (Returns candidate) :: tr3 in
      match env tr4 (ValidationKickoff query candidate) with
      | Returns reply =>
          attempt_once env query attempt "BOTH" tr
          = (Ok (candidate, _parse_validation_result reply),
             Called (ValidationKickoff query candidate) (Returns reply) :: tr4)
      | Raises e =>
          attempt_once env query attempt "BOTH" tr
          = (Exc e, Called (ValidationKickoff query candidate) (Raises e) :: tr4)
      end
  end.
Proof.
  cbv zeta. intros Hmcp Hrag.
  unfold attempt_once, execute_workers, candidate_answer, bind, ret, emit, kickoff.
  simpl. rewrite Hmcp. simpl. rewrite Hrag. simpl.
  destruct (env _ (SynthesisKickoff _ _)) as [candidate | e]; simpl;
    [| reflexivity].
  destruct (env _ (ValidationKickoff _ _)); reflexivity.
Qed.

Lemma verdicts_raises (c : call) (e : string) (rest : trace) :
  verdicts (Called c (Raises e) :: rest) = verdicts rest.
Proof. destruct c; reflexivity. Qed.

(** Every run of [process_query] ends in one of the four ways of
    [run_outcome]. *)
Lemma process_query_outcome (query : string) :
  run_outcome env query (fst (process_query env query))
    (snd (process_query env query)).
Proof.
  unfold process_query, try_except, process_query_try, bind, kickoff.
  destruct (env [] (OpenTools "mcp_servers/person_server.py")) eqn:E1; simpl;
    [| apply (run_errored env query _ _ 0);
       [apply Nat.le_0_l | reflexivity | reflexivity | simpl; constructor | assumption]].
  destruct (env _ (OpenTools "mcp_servers/bank_server.py")) eqn:E2; simpl;
    [| apply (run_errored env query _ _ 0);
       [apply Nat.le_0_l | reflexivity | reflexivity | simpl; constructor | assumption]].
  destruct (env _ (RoutingKickoff query)) eqn:E3; simpl;
    [| apply (run_errored env query _ _ 0);
       [apply Nat.le_0_l | reflexivity | reflexivity | simpl; constructor | assumption]].
  match goal with
  | |- context [retry_loop env query 1 ?r ?t] =>
      pose proof (retry_loop_run query 3 1 r t eq_refl (le_n 1) eq_refl eq_refl
                    (Forall_nil _)) as Hrun;
      destruct (retry_loop env query 1 r t) as [[[[answer |] k] | e] tr']
  end; simpl.
  - destruct Hrun as (Hk & Hb & Hr & Hl & Hsrc & reply & rest & -> & He & Hacc & Hf).
    rewrite verdicts_validation in Hl. cbn [List.length] in Hl.
    assert (Hlen : List.length (verdicts rest) = k - 1) by (simpl in Hl; lia).
    destruct answer as [|a answer]; simpl.
    + now apply (run_accepted_empty env query reply k).
    + now apply (run_accepted env query _ reply k).
  - destruct Hrun as (-> & Hb & Hr & Hl & Hf). now apply run_exhausted.
  - destruct Hrun as (k & c & rest & Hk & Hb & -> & He & Hr & Hf).
    rewrite verdicts_raises in Hf.
    apply (run_errored env query c e k); auto. lia.
Qed.

End Run.

End LoopFacts.

(** ** [process_query]: attempts, acceptance, failures, masking *)

Module SupervisorFacts.
Import Py Supervisor Scenarios LoopFacts.

Lemma rev_seq_bounds (k a : nat) : In a (rev (seq 1 k)) -> 1 <= a <= k.
Proof. rewrite <- in_rev, in_seq. lia. Qed.

Lemma not_raised (tr : trace) (c : call) (e : string) :
  raised tr = [] -> ~ In (Called c (Raises e)) tr.
Proof.
  induction tr as [|ev tr IH]; simpl; [tauto |].
  intros Hr [-> | Hin].
  - discriminate Hr.
  - destruct ev as [c' [t | e'] | a m]; simpl in Hr;
      [now apply IH | discriminate Hr | now apply IH].
Qed.

Lemma rejected_in (tr : trace) (q answer reply : string) :
  Forall rejected (verdicts tr) ->
  In (Called (ValidationKickoff q answer) (Returns reply)) tr ->
  is_accept (_parse_validation_result reply) = false.
Proof.
  induction tr as [|ev tr IH]; intros Hf Hin; [destruct Hin |].
  destruct Hin as [-> | Hin].
  - rewrite verdicts_validation in Hf. now inversion Hf.
  - simpl in Hf. apply Forall_app in Hf. apply IH; tauto.
Qed.

Lemma retry_is_rejected (v : validation) : status v = "RETRY" -> rejected v.
Proof. unfold rejected, is_accept. now intros ->. Qed.

(** C3.  In every run the attempts announced are 1, 2, .., k in this order
    for some k <= MAX_ATTEMPTS = 3, so no attempt numbered above 3 is ever
    started, and an "attempts" entry of the result lies between 1 and 3.
    When no call raises and every validator reply is parsed as RETRY, the run
    makes exactly the attempts 1, 2, 3, collects three verdicts, and returns
    success=false with the explanatory error and attempts=3. *)
Theorem attempts_never_exceed_max (env : trace -> call -> outcome)
    (query : string) :
  let result := fst (process_query env query) in
  let tr := snd (process_query env query) in
  (exists k, k <= max_attempts /\ banners tr = rev (seq 1 k)) /\
  Forall (fun a => 1 <= a <= max_attempts) (banners tr) /\
  (forall n, dict_get "attempts" result = Some (PInt n) -> (1 <= n <= 3)%Z) /\
  ((forall tr0 c, exists text, env tr0 c = Returns text) ->
   (forall tr0 answer reply,
      env tr0 (ValidationKickoff query answer) = Returns reply ->
      status (_parse_validation_result reply) = "RETRY") ->
   banners tr = [3; 2; 1] /\
   List.length (verdicts tr) = 3 /\
   result = exhausted_result query /\
   dict_get "success" result = Some (PBool false) /\
   dict_get "error" result
   = Some (PStr "Could not generate satisfactory answer after maximum attempts") /\
   dict_get "attempts" result = Some (PInt 3)).
Proof.
  pose proof (process_query_outcome env query) as Hout.
  destruct (process_query env query) as [result tr]. cbv zeta. simpl in *.
  assert (Hk : exists k, k <= max_attempts /\ banners tr = rev (seq 1 k)).
  { inversion Hout; subst; simpl.
    - exists k. split; [lia | assumption].
    - exists k. split; [lia | assumption].
    - exists max_attempts. split; [lia | assumption].
    - exists k. split; assumption. }
  split; [exact Hk |]. split; [| split].
  - destruct Hk as (k & Hk & ->). apply Forall_forall. intros a Ha.
    apply rev_seq_bounds in Ha. lia.
  - inversion Hout; subst; simpl; intros n Hn;
      try discriminate Hn; injection Hn as <-; unfold max_attempts in *; lia.
  - intros Hnoraise Hretry. inversion Hout; subst.
    + match goal with
      | H : env _ (ValidationKickoff _ _) = Returns _ |- _ =>
          apply Hretry, retry_is_rejected in H; unfold rejected in H; congruence
      end.
    + match goal with
      | H : env _ (ValidationKickoff _ _) = Returns _ |- _ =>
          apply Hretry, retry_is_rejected in H; unfold rejected in H; congruence
      end.
    + repeat split; assumption.
    + destruct (Hnoraise rest c) as [text Ht]. congruence.
Qed.

(** A run against [env_always_retry]: three attempts, then failure. *)
Lemma attempts_never_exceed_max_witness :
  banners (snd (process_query env_always_retry "q")) = [3; 2; 1] /\
  fst (process_query env_always_retry "q") = exhausted_result "q".
Proof.
  destruct (attempts_never_exceed_max env_always_retry "q") as (_ & _ & _ & H).
  destruct H as (Hb & _ & Hres & _).
  - intros tr0 c. exists "RETRY_WITH_MCP". reflexivity.
  - intros tr0 answer reply Hr. injection Hr as <-. reflexivity.
  - split; assumption.
Defined.

(** An ACCEPT verdict ends the run: nothing is recorded after it, and a
    non-empty candidate answer is returned with success=true and the number
    of attempts made.  An empty candidate answer is the one case that is
    reported as a failure. *)
Lemma accept_ends_run (env : trace -> call -> outcome)
    (query q answer reply : string) (later earlier : trace) :
  snd (process_query env query)
  = (later ++ Called (ValidationKickoff q answer) (Returns reply) :: earlier)%list ->
  is_accept (_parse_validation_result reply) = true ->
  later = [] /\ q = query /\ answer_source env answer /\
  (answer <> "" ->
   fst (process_query env query)
   = accepted_result query answer (List.length (banners earlier))) /\
  (answer = "" -> fst (process_query env query) = exhausted_result query).
Proof.
  intros Htr Hacc.
  pose proof (process_query_outcome env query) as Hout.
  destruct (process_query env query) as [result tr]. simpl in *.
  assert (Hin : In (Called (ValidationKickoff q answer) (Returns reply)) tr)
    by (rewrite Htr; apply in_elt).
  assert (Hno : forall rest, Forall rejected (verdicts rest) ->
                  ~ In (Called (ValidationKickoff q answer) (Returns reply)) rest).
  { intros rest Hf Hr. apply (rejected_in _ _ _ _ Hf) in Hr. congruence. }
  subst tr.
  inversion Hout
    as [answer0 reply0 k rest Hk Hne Hb Hr Hf Hl He Ha Hs Hres Htr
       | reply0 k rest Hk Hb Hr Hf Hl He Ha Hs Hres Htr
       | tr0 Hb Hr Hf Hl Hres Htr
       | c e k rest Hk Hb Hr Hf He Hres Htr].
  - destruct later as [|ev later]; simpl in Htr.
    + injection Htr as E1 E2 E3 E4. subst.
      split; [reflexivity |]. split; [reflexivity |]. split; [assumption |].
      split; [| intros E; contradiction].
      intros _. rewrite Hb. now rewrite length_rev, length_seq.
    + injection Htr as _ Hrest. exfalso. apply (Hno rest); auto.
      rewrite Hrest. apply in_elt.
  - destruct later as [|ev later]; simpl in Htr.
    + injection Htr as E1 E2 E3 E4. subst.
      split; [reflexivity |]. split; [reflexivity |]. split; [assumption |].
      split; [intros E; now contradiction E | reflexivity].
    + injection Htr as _ Hrest. exfalso. apply (Hno rest); auto.
      rewrite Hrest. apply in_elt.
  - exfalso. apply (Hno _ Hf). exact Hin.
  - destruct later as [|ev later]; simpl in Htr.
    + discriminate Htr.
    + injection Htr as _ Hrest. exfalso. apply (Hno rest); auto.
      rewrite Hrest. apply in_elt.
Qed.

(** C4, at the input where the code departs from it.  The router picks
    the database worker, the worker's text is empty and the validator
    replies ACCEPT on the first attempt: the run stops there, but the answer
    is tested by truth value, so the result says success=false with the
    exhaustion message and attempts=3. *)
Theorem accepted_empty_answer_reported_failed :
  process_query env_empty_answer "q"
  = (exhausted_result "q",
     [Called (ValidationKickoff "q" "") (Returns "ACCEPT");
      Called (McpKickoff "q") (Returns "");
      AttemptBanner 1 3;
      Called (RoutingKickoff "q") (Returns "MCP");
      Called (OpenTools "mcp_servers/bank_server.py") (Returns "");
      Called (OpenTools "mcp_servers/person_server.py") (Returns "")]) /\
  status (_parse_validation_result "ACCEPT") = "ACCEPT" /\
  dict_get "success" (fst (process_query env_empty_answer "q")) = Some (PBool false) /\
  dict_get "result" (fst (process_query env_empty_answer "q")) = None /\
  dict_get "attempts" (fst (process_query env_empty_answer "q")) = Some (PInt 3).
Proof. repeat split; vm_compute; reflexivity. Qed.

(** C5 as stated fails: with route BOTH and a document worker that raises,
    the run ends at the raise.  Neither synthesis nor validation is called
    and the caller gets the handler's dict. *)
Lemma rag_failure_aborts_run :
  process_query env_rag_fails "q"
  = (error_result "q" "vector index unreachable",
     [Called (RagKickoff "q") (Raises "vector index unreachable");
      Called (McpKickoff "q") (Returns "Jane is 30, email jane@x.com");
      AttemptBanner 1 3;
      Called (RoutingKickoff "q") (Returns "BOTH");
      Called (OpenTools "mcp_servers/bank_server.py") (Returns "");
      Called (OpenTools "mcp_servers/person_server.py") (Returns "")]) /\
  ~ survives_rag_failure env_rag_fails "q".
Proof.
  assert (Hrun : process_query env_rag_fails "q"
    = (error_result "q" "vector index unreachable",
       [Called (RagKickoff "q") (Raises "vector index unreachable");
        Called (McpKickoff "q") (Returns "Jane is 30, email jane@x.com");
        AttemptBanner 1 3;
        Called (RoutingKickoff "q") (Returns "BOTH");
        Called (OpenTools "mcp_servers/bank_server.py") (Returns "");
        Called (OpenTools "mcp_servers/person_server.py") (Returns "")]))
    by (vm_compute; reflexivity).
  split; [exact Hrun |].
  intros Hclaim.
  destruct (Hclaim [] _ "vector index unreachable"
              ltac:(rewrite Hrun; reflexivity)) as [(w & o & []) _].
Qed.

(** C5, amended.  A call that raises, a worker's included, is the last
    thing a run does: the [except] handler of [process_query] turns it into
    the result success=false, error=str(e), with the query and nothing
    else.  A worker failure is worked around only when it reaches the
    orchestrator as text: with route BOTH and two workers that return,
    synthesis gets the database worker's text followed by the document
    worker's text, and the validator gets what synthesis returns. *)
Theorem raise_aborts_run (env : trace -> call -> outcome) (query : string) :
  (forall c e,
     In (Called c (Raises e)) (snd (process_query env query)) ->
     (exists earlier,
        snd (process_query env query) = Called c (Raises e) :: earlier) /\
     fst (process_query env query) = error_result query e /\
     dict_get "success" (fst (process_query env query)) = Some (PBool false) /\
     dict_get "error" (fst (process_query env query)) = Some (PStr e) /\
     dict_keys (fst (process_query env query)) = ["success"; "query"; "error"]) /\
  (forall attempt tr mcp_text rag_text,
     let tr1 := AttemptBanner attempt max_attempts :: tr in
     let tr2 := Called (McpKickoff query) (Returns mcp_text) :: tr1 in
     let tr3 := Called (RagKickoff query) (Returns rag_text) :: tr2 in
     let synthesis :=
       SynthesisKickoff query [("MCP", mcp_text); ("RAG", rag_text)] in
     env tr1 (McpKickoff query) = Returns mcp_text ->
     env tr2 (RagKickoff query) = Returns rag_text ->
     forall candidate reply,
       env tr3 synthesis = Returns candidate ->
       env (Called synthesis (Returns candidate) :: tr3)
         (ValidationKickoff query candidate) = Returns reply ->
       attempt_once env query attempt "BOTH" tr
       = (Ok (candidate, _parse_validation_result reply),
          Called (ValidationKickoff query candidate) (Returns reply)
          :: Called synthesis (Returns candidate) :: tr3)).
Proof.
  split.
  - intros c e Hin.
    pose proof (process_query_outcome env query) as Hout.
    destruct (process_query env query) as [result tr]. simpl in *.
    inversion Hout; subst tr; subst.
    + exfalso. destruct Hin as [Hin | Hin]; [discriminate Hin |].
      now apply not_raised in Hin.
    + exfalso. destruct Hin as [Hin | Hin]; [discriminate Hin |].
      now apply not_raised in Hin.
    + exfalso. now apply not_raised in Hin.
    + destruct Hin as [Hin | Hin].
      * injection Hin as <- <-. repeat split. now exists rest.
      * exfalso. now apply not_raised in Hin.
  - intros attempt tr mcp_text rag_text. cbv zeta.
    intros Hmcp Hrag candidate reply Hsyn Hval.
    pose proof (both_route_synthesizes env query attempt tr mcp_text rag_text
                  Hmcp Hrag) as H.
    cbv zeta in H. rewrite Hsyn in H. now rewrite Hval in H.
Qed.

(** The run against [env_rag_fails] ends in the handler's dict. *)
Lemma raise_aborts_run_witness :
  fst (process_query env_rag_fails "q")
  = error_result "q" "vector index unreachable".
Proof.
  apply (proj1 (raise_aborts_run env_rag_fails "q") (RagKickoff "q")
           "vector index unreachable").
  vm_compute. left. reflexivity.
Defined.

(** C6 as stated fails: the document worker's text goes to the caller as it
    is, here with a grouped 12-digit identifier in it. *)
Lemma unmasked_identifier_reaches_caller :
  fst (process_query env_unmasked "q")
  = accepted_result "q" "Aadhar number: 3345 5678 9012" 1 /\
  Config.has_aadhar "Aadhar number: 3345 5678 9012" = true /\
  ~ never_unmasked env_unmasked "q".
Proof.
  assert (Hrun : fst (process_query env_unmasked "q")
                 = accepted_result "q" "Aadhar number: 3345 5678 9012" 1)
    by (vm_compute; reflexivity).
  split; [exact Hrun |]. split; [reflexivity |].
  intros Hclaim.
  specialize (Hclaim "Aadhar number: 3345 5678 9012").
  rewrite Hrun in Hclaim. discriminate (Hclaim eq_refl).
Qed.

End SupervisorFacts.

(** ** The pattern of [config.py] on sample texts *)

Module ConfigFacts.
Import Config.

Example aadhar_grouped : has_aadhar "id 3345 5678 9012." = true.
Proof. reflexivity. Qed.

Example aadhar_ungrouped : has_aadhar "334556789012" = true.
Proof. reflexivity. Qed.

Example aadhar_masked : has_aadhar "XXXX-XXXX-9012" = false.
Proof. reflexivity. Qed.

Example aadhar_inside_word : has_aadhar "ref334556789012" = false.
Proof. reflexivity. Qed.

Example aadhar_thirteen_digits : has_aadhar "3345567890123" = false.
Proof. reflexivity. Qed.

End ConfigFacts.

(** ** The record store *)

Module StoreFacts.
Import Py Store StoreViews.

Local Open Scope Z_scope.

Lemma fetchone_filter {A : Type} (f : A -> bool) (l : list A) :
  fetchone (filter f l) = find f l.
Proof.
  induction l as [|x l IH]; simpl; [reflexivity |].
  destruct (f x); [reflexivity | exact IH].
Qed.

(** C7, at an input where the code departs from it.  On the connection
    [_initialize_db] opens, deleting person 1 succeeds and removes the
    person, and both accounts that reference person 1 are still stored. *)
Theorem delete_person_leaves_accounts :
  delete_person 1 sample_connection
  = ([("success", PBool true);
      ("message", PStr "Person Jane deleted successfully")],
     Connection false
       (Database [PersonsRow 2 "JANE" 41 "jd@y.org"]
          [BankAccountsRow 1 1 "HDFC" 2500%float;
           BankAccountsRow 2 1 "SBI" 10.5%float]
          2 2)) /\
  accounts_of 1 (snd (delete_person 1 sample_connection))
  = accounts_of 1 sample_connection /\
  Forall (orphan (snd (delete_person 1 sample_connection)))
    (accounts_of 1 (snd (delete_person 1 sample_connection))).
Proof.
  repeat split; try (vm_compute; reflexivity).
  repeat constructor.
Qed.

(** The same on every connection without the pragma, so on every one the
    code opens: [delete_person] never touches [bank_accounts]. *)
Lemma delete_person_keeps_accounts (file : option database) (person_id : Z) :
  bank_accounts (db (snd (delete_person person_id (_initialize_db file))))
  = bank_accounts (db (_initialize_db file)).
Proof.
  unfold delete_person, try_except, bind, select_persons_by_id, delete_persons,
    lift_res, get_conn, put_db, ret.
  destruct (bind_int person_id) as [i | e]; simpl; [| reflexivity].
  destruct (fetchone _); simpl; reflexivity.
Qed.

(** With the pragma on, the cascade the schema declares does happen. *)
Lemma delete_person_cascades_with_pragma (conn : connection) (person_id : Z) :
  foreign_keys conn = true ->
  succeeded (fst (delete_person person_id conn)) ->
  accounts_of person_id (snd (delete_person person_id conn)) = [].
Proof.
  intros Hfk. unfold succeeded, accounts_of.
  unfold delete_person, try_except, bind, select_persons_by_id, delete_persons,
    lift_res, get_conn, put_db, ret, bind_int.
  destruct ((int64_min <=? person_id) && (person_id <=? int64_max)); simpl;
    [| discriminate].
  destruct (fetchone _); simpl; [| discriminate].
  intros _. rewrite Hfk.
  induction (bank_accounts (db conn)) as [|a l IH]; simpl; [reflexivity |].
  destruct (a_personId a =? person_id) eqn:E; simpl; [exact IH |].
  rewrite E. exact IH.
Qed.

Ltac run_tool :=
  unfold try_except, bind, ret, raise, lift_res, get_conn, put_db, failure;
  repeat (simpl;
          match goal with
          | |- context [match flat_map ?f ?l with _ => _ end] =>
              destruct (flat_map f l) eqn:?
          | |- context [match ?x with _ => _ end] =>
              lazymatch x with
              | context [match _ with _ => _ end] => fail
              | _ => destruct x eqn:?
              end
          end);
  simpl.


Lemma bind_int_ok (z : Z) : int64 z -> bind_int z = Ok z.
Proof.
  unfold int64, bind_int. intros [H1 H2].
  apply Z.leb_le in H1, H2. now rewrite H1, H2.
Qed.







(** Looking a key up after an in-place update of the rows with key [i]. *)
Lemma find_map_update {A : Type} (key : A -> Z) (g : A -> A) (i j : Z)
    (l : list A) :
  (forall r, key (g r) = key r) ->
  find (fun r => key r =? j) (map (fun r => if key r =? i then g r else r) l)
  = if j =? i then option_map g (find (fun r => key r =? j) l)
    else find (fun r => key r =? j) l.
Proof.
  intros Hkey. induction l as [|r l IH]; simpl.
  - now destruct (j =? i).
  - destruct (key r =? i) eqn:Ei.
    + rewrite Hkey. destruct (key r =? j) eqn:Ej.
      * apply Z.eqb_eq in Ei, Ej. subst. now rewrite Z.eqb_refl.
      * exact IH.
    + destruct (key r =? j) eqn:Ej; [| exact IH].
      apply Z.eqb_eq in Ej. subst j. now rewrite Ei.
Qed.





Lemma not_both (result : pydict) : failed result -> succeeded result -> False.
Proof. unfold failed, succeeded. congruence. Qed.





(** A negative zero given as balance is stored as 0.0, while the answer of
    the tool echoes the value given. *)
Example update_bank_account_zero_balance :
  find_account 1 (snd (update_bank_account 1 None (Some (-0)%float)
                         sample_connection))
  = Some (BankAccountsRow 1 1 "HDFC" 0%float) /\
  dict_get "account" (fst (update_bank_account 1 None (Some (-0)%float)
                             sample_connection))
  = Some (account_dict 1 1 "HDFC" (-0)%float).
Proof. split; vm_compute; reflexivity. Qed.

Lemma find_first {A : Type} (f : A -> bool) (before after : list A) (x : A) :
  Forall (fun y => f y = false) before -> f x = true ->
  find f (before ++ x :: after) = Some x.
Proof.
  intros Hb Hx. induction Hb as [|y before Hy Hb IH]; simpl.
  - now rewrite Hx.
  - now rewrite Hy.
Qed.

Lemma find_none {A : Type} (f : A -> bool) (l : list A) :
  Forall (fun y => f y = false) l -> find f l = None.
Proof.
  intros Hl. induction Hl as [|y l Hy Hl IH]; simpl; [reflexivity |].
  now rewrite Hy.
Qed.

Lemma name_mismatch (name : string) (l : list persons_row) :
  Forall (fun r => lower (p_name r) <> lower name) l ->
  Forall (fun r => String.eqb (lower (p_name r)) (lower name) = false) l.
Proof.
  apply Forall_impl. intros r. apply String.eqb_neq.
Qed.

(** C10.  [search_person_by_name] compares names after lowercasing both
    sides.  It answers with one person, the first row in table order whose
    name matches, whatever follows that row; when no row matches it answers
    success=false with "No person named <name> found".  The database is
    only read. *)
Theorem search_person_by_name_first_match (conn : connection) (name : string) :
  (forall before row after,
     persons (db conn) = (before ++ row :: after)%list ->
     Forall (fun r => lower (p_name r) <> lower name) before ->
     lower (p_name row) = lower name ->
     search_person_by_name name conn
     = ([("success", PBool true); ("person", person_of_row row)], conn)) /\
  (Forall (fun r => lower (p_name r) <> lower name) (persons (db conn)) ->
   search_person_by_name name conn
   = ([("success", PBool false);
       ("error", PStr ("No person named " ++ name ++ " found"))], conn)).
Proof.
  unfold search_person_by_name, select_persons_by_lower_name, try_except, bind,
    get_conn, ret.
  simpl. rewrite fetchone_filter. split.
  - intros before row after -> Hb Hrow.
    rewrite (find_first _ before after row).
    + reflexivity.
    + now apply name_mismatch.
    + now apply String.eqb_eq.
  - intros Hall. rewrite find_none; [reflexivity |].
    now apply name_mismatch.
Qed.

(** On the sample database "jane" matches both rows; row 1 is returned. *)
Lemma search_person_by_name_first_match_witness :
  search_person_by_name "jane" sample_connection
  = ([("success", PBool true);
      ("person", person_dict 1 "Jane" 30 "jane@x.com")], sample_connection) /\
  lower "JANE" = lower "jane".
Proof.
  split; [| reflexivity].
  apply (proj1 (search_person_by_name_first_match sample_connection "jane")
           [] (PersonsRow 1 "Jane" 30 "jane@x.com")
           [PersonsRow 2 "JANE" 41 "jd@y.org"]).
  - reflexivity.
  - constructor.
  - reflexivity.
Defined.

(** Nobody is called "joe" there. *)
Example search_person_by_name_no_match :
  fst (search_person_by_name "joe" sample_connection)
  = failure "No person named joe found".
Proof. vm_compute. reflexivity. Qed.

End StoreFacts.

(** ** The protocol of a run *)

Module ProtocolFacts.
Import Py Supervisor Protocol LoopFacts.

Section Run.

Variable env : trace -> call -> outcome.
Variable query : string.

(** A proof rule for the [while] loop: [I] holds at the top of each
    iteration, [Q] of whatever the loop yields. *)
Lemma retry_loop_rule
    (I : nat -> string -> trace -> Prop)
    (Q : res (option string * nat) * trace -> Prop) :
  (forall attempt route tr,
     I attempt route tr -> max_attempts < attempt -> Q (Ok (None, attempt), tr)) ->
  (forall attempt route tr,
     I attempt route tr -> attempt <= max_attempts ->
     match attempt_once env query attempt route tr with
     | (Exc e, tr') => Q (Exc e, tr')
     | (Ok (answer, v), tr') =>
         if is_accept v then Q (Ok (Some answer, attempt), tr')
         else I (S attempt) (if_not_none (next_agent v) "BOTH") tr'
     end) ->
  forall attempt route tr,
    I attempt route tr -> Q (retry_loop env query attempt route tr).
Proof.
  intros Hexit Hbody attempt route tr.
  remember (S max_attempts - attempt) as n eqn:Hn.
  revert attempt route tr Hn.
  induction n as [|n IH]; intros attempt route tr Hn HI;
    rewrite retry_loop_unfold.
  - assert (Hgt : (attempt <=? max_attempts)%nat = false)
      by (apply Nat.leb_gt; lia).
    rewrite Hgt. apply (Hexit _ route); [exact HI | lia].
  - assert (Hle : (attempt <=? max_attempts)%nat = true)
      by (apply Nat.leb_le; lia).
    rewrite Hle.
    specialize (Hbody attempt route tr HI ltac:(lia)).
    destruct (attempt_once env query attempt route tr) as [[[answer v] | e] tr'];
      [| exact Hbody].
    destruct (is_accept v); [exact Hbody |].
    apply IH; [lia | exact Hbody].
Qed.

(** What holds at the top of every iteration. *)
Definition at_loop_head (attempt : nat) (route : string) (tr : trace) : Prop :=
  follows_protocol query tr /\
  route_in_force tr = Some route /\
  valid_route route /\
  attempt = S (List.length (banners tr)) /\
  calls tr <= 3 + 4 * List.length (banners tr) /\
  crew_calls tr <= 1 + 4 * List.length (banners tr).

(** What holds of the trace a run leaves. *)
Definition at_loop_exit (tr : trace) : Prop :=
  follows_protocol query tr /\
  finished tr /\
  List.length (banners tr) <= max_attempts /\
  calls tr <= 3 + 4 * List.length (banners tr) /\
  crew_calls tr <= 1 + 4 * List.length (banners tr).

Lemma next_route_valid (reply : string) :
  valid_route (if_not_none (next_agent (_parse_validation_result reply)) "BOTH").
Proof.
  unfold _parse_validation_result, valid_route.
  repeat match goal with |- context [if ?b then _ else _] => destruct b end;
    simpl; auto.
Qed.

Lemma routing_valid (reply : string) : valid_route (_parse_routing_decision reply).
Proof.
  unfold _parse_routing_decision, valid_route.
  repeat match goal with |- context [if ?b then _ else _] => destruct b end;
    simpl; auto.
Qed.

Lemma banners_called (c : call) (o : outcome) (tr : trace) :
  banners (Called c o :: tr) = banners tr.
Proof. reflexivity. Qed.

Lemma banners_banner (a m : nat) (tr : trace) :
  banners (AttemptBanner a m :: tr) = a :: banners tr.
Proof. reflexivity. Qed.

Lemma calls_called (c : call) (o : outcome) (tr : trace) :
  calls (Called c o :: tr) = S (calls tr).
Proof. reflexivity. Qed.

Lemma calls_banner (a m : nat) (tr : trace) :
  calls (AttemptBanner a m :: tr) = calls tr.
Proof. reflexivity. Qed.

Lemma crew_calls_called (c : call) (o : outcome) (tr : trace) :
  crew_calls (Called c o :: tr)
  = match c with OpenTools _ => crew_calls tr | _ => S (crew_calls tr) end.
Proof. destruct c; reflexivity. Qed.

Lemma crew_calls_banner (a m : nat) (tr : trace) :
  crew_calls (AttemptBanner a m :: tr) = crew_calls tr.
Proof. reflexivity. Qed.

Ltac count_events :=
  rewrite ?banners_called, ?banners_banner, ?calls_called, ?calls_banner,
    ?crew_calls_called, ?crew_calls_banner;
  cbn [List.length].

Lemma attempt_once_protocol (attempt : nat) (route : string) (tr : trace) :
  at_loop_head attempt route tr ->
  attempt <= max_attempts ->
  match attempt_once env query attempt route tr with
  | (Ok (answer, v), tr') =>
      if is_accept v then at_loop_exit tr'
      else at_loop_head (S attempt) (if_not_none (next_agent v) "BOTH") tr' /\
           (attempt = max_attempts -> at_loop_exit tr')
  | (Exc e, tr') => at_loop_exit tr'
  end.
Proof.
  intros (Hp & Hr & Hv & Ha & Hc & Hcc) Hle.
  unfold attempt_once, execute_workers, candidate_answer, bind, ret, emit, kickoff.
  destruct Hv as [-> | [-> | ->]]; simpl.
  all: repeat (match goal with
               | |- context [env ?t ?c] => destruct (env t c) eqn:?
               end; simpl).
  all: try match goal with
           | |- context [is_accept ?v] => destruct (is_accept v) eqn:Hacc
           end.
  all: unfold at_loop_exit, at_loop_head;
    cbn [follows_protocol event_ok finished route_in_force];
    count_events; rewrite ?Hacc, ?Hr.
  all: repeat split; auto using next_route_valid; try lia; try congruence.
Qed.

Lemma retry_loop_protocol (route : string) (tr : trace) :
  at_loop_head 1 route tr ->
  at_loop_exit (snd (retry_loop env query 1 route tr)).
Proof.
  intros Hhead.
  apply (retry_loop_rule
           (fun attempt route tr =>
              at_loop_head attempt route tr /\
              (max_attempts < attempt -> at_loop_exit tr))
           (fun out => at_loop_exit (snd out))) with (route := route).
  - intros attempt r t [_ Hexit] Hgt. exact (Hexit Hgt).
  - intros attempt r t [Hh _] Hle.
    pose proof (attempt_once_protocol attempt r t Hh Hle) as H.
    destruct (attempt_once env query attempt r t) as [[[answer v] | e] t'];
      [| exact H].
    destruct (is_accept v); [exact H |].
    destruct H as [Hnext Hlast]. split; [exact Hnext |].
    intros Hgt. apply Hlast. lia.
  - split; [exact Hhead |]. unfold max_attempts. lia.
Qed.

(** Every run leaves a trace that follows the protocol, is finished, and
    stays within the call budget. *)
Lemma process_query_protocol :
  at_loop_exit (snd (process_query env query)).
Proof.
  unfold process_query, try_except, process_query_try, bind, kickoff.
  destruct (env [] (OpenTools "mcp_servers/person_server.py")) eqn:E1; simpl;
    [| unfold at_loop_exit; cbn; repeat split; auto; lia].
  destruct (env _ (OpenTools "mcp_servers/bank_server.py")) eqn:E2; simpl;
    [| unfold at_loop_exit; cbn; repeat split; auto; lia].
  destruct (env _ (RoutingKickoff query)) eqn:E3; simpl;
    [| unfold at_loop_exit; cbn; repeat split; auto; lia].
  match goal with
  | |- context [retry_loop env query 1 ?r ?t] =>
      assert (Hhead : at_loop_head 1 r t)
        by (unfold at_loop_head; cbn [follows_protocol event_ok route_in_force];
            count_events; cbn;
            repeat split; auto using routing_valid; lia);
      pose proof (retry_loop_protocol r t Hhead) as Hexit;
      destruct (retry_loop env query 1 r t) as [[[final k] | e] t']
  end; simpl in *; [| exact Hexit].
  destruct (truthy final); exact Hexit.
Qed.


End Run.

End ProtocolFacts.

(** ** Where the returned text comes from *)

Module MaskingFacts.
Import Py Supervisor Scenarios Protocol LoopFacts ProtocolFacts.

Section Run.

Variable env : trace -> call -> outcome.
Variable query : string.

Lemma attempt_once_answered (attempt : nat) (route : string) (tr : trace) :
  answered env tr ->
  answered env (snd (attempt_once env query attempt route tr)).
Proof.
  intros Htr.
  unfold attempt_once, execute_workers, candidate_answer, bind, ret, emit, kickoff.
  destruct (String.eqb route "MCP" || String.eqb route "BOTH");
    destruct (String.eqb route "RAG" || String.eqb route "BOTH"); simpl.
  all: repeat (match goal with
               | |- context [env ?t ?c] => destruct (env t c) eqn:?
               end; simpl).
  all: repeat split; assumption.
Qed.

Lemma retry_loop_answered (attempt : nat) (route : string) (tr : trace) :
  answered env tr ->
  answered env (snd (retry_loop env query attempt route tr)).
Proof.
  intros Htr.
  apply (retry_loop_rule env query
           (fun _ _ t => answered env t)
           (fun out => answered env (snd out))) with (route := route);
    [| | exact Htr].
  - intros a r t Ht _. exact Ht.
  - intros a r t Ht _.
    pose proof (attempt_once_answered a r t Ht) as H.
    destruct (attempt_once env query a r t) as [[[answer v] | e] t'];
      [| exact H].
    destruct (is_accept v); exact H.
Qed.

(** The trace of a run records what the environment answered. *)
Lemma process_query_answered : answered env (snd (process_query env query)).
Proof.
  unfold process_query, try_except, process_query_try, bind, kickoff.
  destruct (env [] (OpenTools "mcp_servers/person_server.py")) eqn:E1; simpl;
    [| auto].
  destruct (env _ (OpenTools "mcp_servers/bank_server.py")) eqn:E2; simpl;
    [| auto].
  destruct (env _ (RoutingKickoff query)) eqn:E3; simpl; [| auto].
  match goal with
  | |- context [retry_loop env query 1 ?r ?t] =>
      assert (Hhead : answered env t) by (simpl; auto);
      pose proof (retry_loop_answered 1 r t Hhead) as Hexit;
      destruct (retry_loop env query 1 r t) as [[[final k] | e] t']
  end; simpl in *; [| exact Hexit].
  destruct (truthy final); exact Hexit.
Qed.

(** In a trace that follows the protocol, the events before a validation
    call show where the text it is given comes from. *)
Lemma validated_text_is_verbatim (text : string) (o : outcome) (rest : trace) :
  follows_protocol query (Called (ValidationKickoff query text) o :: rest) ->
  verbatim_reply query text rest.
Proof.
  cbn [follows_protocol event_ok]. intros [[_ Hprev] Hrest].
  destruct rest as [|[c [t | e] | a m] earlier]; try contradiction;
    [| destruct c; contradiction].
  destruct c; try contradiction.
  - (* the database worker alone *)
    destruct earlier as [|[| a m] before]; try contradiction.
    destruct Hprev as [-> Hroute].
    cbn [follows_protocol event_ok] in Hrest.
    destruct Hrest as [[-> _] [[-> _] _]].
    now apply reply_of_mcp.
  - (* the document worker alone *)
    destruct earlier as [|[c' [t' | e'] | a m] before]; try contradiction;
      try (destruct c'; contradiction).
    destruct Hprev as [-> Hroute].
    cbn [follows_protocol event_ok] in Hrest.
    destruct Hrest as [[-> _] [[-> _] _]].
    now apply reply_of_rag.
  - (* synthesis *)
    subst t.
    cbn [follows_protocol event_ok] in Hrest.
    destruct Hrest as [[-> Hsyn] Hrest].
    destruct earlier as [|[c1 [rag_text | e1] | a1 m1] earlier];
      try contradiction; try (destruct c1; contradiction).
    destruct c1; try contradiction.
    destruct earlier as [|[c2 [mcp_text | e2] | a2 m2] earlier];
      try contradiction; try (destruct c2; contradiction).
    destruct c2; try contradiction.
    subst worker_results.
    cbn [follows_protocol event_ok] in Hrest.
    destruct Hrest as [[-> Hrag] [[-> Hmcp] Hrest]].
    destruct earlier as [|[| a m] before]; try contradiction.
    cbn [follows_protocol event_ok] in Hrest.
    destruct Hrest as [[-> _] _].
    now apply reply_of_synthesis.
Qed.

End Run.

(** C6, amended.  The orchestrator has no masking step of its own.  The
    text a run returns is the text its last validation call was given, and
    that is, verbatim, what the environment answered in this run to the
    one worker the route selected, or to the synthesis call made on the
    replies of both workers when the route was BOTH.  So the returned text
    is free of the 12-digit pattern whenever the worker and synthesis
    replies of the run are. *)
Theorem result_is_verbatim_reply (env : trace -> call -> outcome)
    (query text : string) :
  dict_get "result" (fst (process_query env query)) = Some (PStr text) ->
  let tr := snd (process_query env query) in
  (exists reply attempt_events,
     tr = Called (ValidationKickoff query text) (Returns reply) :: attempt_events /\
     verbatim_reply query text attempt_events) /\
  answered env tr /\
  ((forall c reply,
      In (Called c (Returns reply)) tr -> answer_call c = true ->
      Config.has_aadhar reply = false) ->
   Config.has_aadhar text = false).
Proof.
  intros Hres. cbv zeta.
  pose proof (process_query_outcome env query) as Hout.
  pose proof (process_query_answered env query) as Hans.
  destruct (process_query_protocol env query) as (Hp & _).
  destruct (process_query env query) as [result tr]. simpl in *.
  inversion Hout as [answer reply k rest Hk Hne Hb Hr Hf Hl He Ha Hs Hd Htr
                    | | | ]; subst result; try discriminate Hres.
  subst tr. simpl in Hres. injection Hres as ->.
  pose proof (validated_text_is_verbatim query text _ rest Hp) as Hv.
  split; [exists reply, rest; split; [reflexivity | exact Hv] |].
  split; [exact Hans |].
  intros Hclean.
  destruct Hv as [a before _ | a before _ | mcp_text rag_text a before _].
  - apply (Hclean (McpKickoff query)); [right; left; reflexivity | reflexivity].
  - apply (Hclean (RagKickoff query)); [right; left; reflexivity | reflexivity].
  - apply (Hclean (SynthesisKickoff query [("MCP", mcp_text); ("RAG", rag_text)]));
      [right; left; reflexivity | reflexivity].
Qed.

(** A run under route BOTH in which every reply is masked: the result is
    the synthesis of the two replies, and it is clean. *)
Lemma result_is_verbatim_reply_witness :
  (exists reply attempt_events,
     snd (process_query env_both_masked "q")
     = Called (ValidationKickoff "q" "Jane is 30, Aadhar XXXX-XXXX-9012")
         (Returns reply) :: attempt_events /\
     verbatim_reply "q" "Jane is 30, Aadhar XXXX-XXXX-9012" attempt_events) /\
  Config.has_aadhar "Jane is 30, Aadhar XXXX-XXXX-9012" = false.
Proof.
  destruct (result_is_verbatim_reply env_both_masked "q"
              "Jane is 30, Aadhar XXXX-XXXX-9012" eq_refl)
    as (Hsrc & _ & Hclean).
  split; [exact Hsrc |].
  apply Hclean.
  intros c reply Hin Hc. vm_compute in Hin.
  repeat (destruct Hin as [Hin | Hin];
          [injection Hin as <- <- || discriminate Hin; try discriminate Hc;
           reflexivity |]).
  destruct Hin.
Defined.

End MaskingFacts.

(** ** More on the normalizers *)

Module ParserMore.
Import Py Supervisor PyFacts ParserFacts Protocol.

Lemma append_assoc (a b c : string) : (a ++ b) ++ c = a ++ b ++ c.
Proof. induction a as [|x a IH]; simpl; [reflexivity | now rewrite IH]. Qed.

(** A piece of a piece is a piece. *)
Lemma str_in_trans (a b c : string) :
  str_in a b = true -> str_in b c = true -> str_in a c = true.
Proof.
  rewrite !str_in_iff. intros (p & q & ->) (p' & q' & ->).
  exists (p' ++ p), (q ++ q'). now rewrite !append_assoc.
Qed.

Lemma accept_term_accepts (term output : string) :
  In term accept_keywords ->
  str_in term (lower output) = true ->
  _parse_validation_result output = Validation "ACCEPT" (Some output) None.
Proof.
  intros Hin Hterm. unfold _parse_validation_result.
  assert (H : any_in accept_keywords (lower output) = true)
    by (apply any_in_iff; now exists term).
  now rewrite H.
Qed.

(** Three of the retry terms can never lead to a retry.  A reply that says
    "not found", "insufficient" or "incomplete" thereby says "found",
    "sufficient" or "complete", and acceptance terms are looked for first:
    the verdict is ACCEPT. *)
Theorem shadowed_retry_terms_accept (output : string) :
  mentions "not found" output \/ mentions "insufficient" output \/
  mentions "incomplete" output ->
  _parse_validation_result output = Validation "ACCEPT" (Some output) None.
Proof.
  intros [H | [H | H]]; apply mentions_iff in H.
  - apply (accept_term_accepts "found"); [simpl; tauto |].
    now apply (str_in_trans _ "not found").
  - apply (accept_term_accepts "sufficient"); [simpl; tauto |].
    now apply (str_in_trans _ "insufficient").
  - apply (accept_term_accepts "complete"); [simpl; tauto |].
    now apply (str_in_trans _ "incomplete").
Qed.

(** The answer of the validator the prompt itself gives as a retry case. *)
Lemma shadowed_retry_terms_accept_witness :
  status (_parse_validation_result "Policy number not found, RETRY_WITH_RAG")
  = "ACCEPT".
Proof.
  rewrite (shadowed_retry_terms_accept "Policy number not found, RETRY_WITH_RAG").
  - reflexivity.
  - left. apply mentions_iff. reflexivity.
Defined.

(** The three routes are fixed points of the routing normalizer, so
    normalizing twice is the same as normalizing once. *)
Theorem parse_routing_decision_idempotent (output : string) :
  _parse_routing_decision (_parse_routing_decision output)
  = _parse_routing_decision output.
Proof.
  destruct (ProtocolFacts.routing_valid output) as [-> | [-> | ->]]; reflexivity.
Qed.

End ParserMore.

(** ** More on [process_query] *)

Module SupervisorMore.
Import Py Supervisor Scenarios Protocol LoopFacts ProtocolFacts.

(** Every run follows the protocol, step by step.  The two tool channels
    are opened, then the classifier is asked once; every attempt starts
    under the route in force (the classifier's for the first attempt, the
    validator's next agent afterwards), runs the database worker first and
    then the document worker as the route selects, asks for a synthesis of
    exactly these two texts when both ran, and shows the validator the text
    returned by the call just before.  Every call carries the original
    query.  The run ends at a raise, at an ACCEPT verdict, or at the
    rejection of the third attempt, and nowhere else. *)
Theorem run_follows_protocol (env : trace -> call -> outcome) (query : string) :
  follows_protocol query (snd (process_query env query)) /\
  finished (snd (process_query env query)).
Proof.
  destruct (process_query_protocol env query) as (Hp & Hf & _).
  split; assumption.
Qed.

(** A run makes at most four calls per attempt on top of the three made
    before the loop: at most 15 calls in all, 13 of them to language-model
    crews. *)
Theorem run_call_budget (env : trace -> call -> outcome) (query : string) :
  let tr := snd (process_query env query) in
  calls tr <= 3 + 4 * List.length (banners tr) /\
  crew_calls tr <= 1 + 4 * List.length (banners tr) /\
  calls tr <= 15 /\
  crew_calls tr <= 13.
Proof.
  cbv zeta.
  destruct (process_query_protocol env query) as (_ & _ & Hb & Hc & Hcc).
  unfold max_attempts in Hb. repeat split; lia.
Qed.

(** A text returned with success=true is not empty and is the reply to the
    call made just before the accepting validation, which is a worker call
    or the synthesis call.  The fixed text of the no-worker branch is thus
    never what the code itself puts in. *)
Theorem result_is_last_reply (env : trace -> call -> outcome)
    (query text : string) :
  dict_get "result" (fst (process_query env query)) = Some (PStr text) ->
  text <> "" /\
  exists c reply earlier,
    snd (process_query env query)
    = Called (ValidationKickoff query text) (Returns reply)
      :: Called c (Returns text) :: earlier /\
    answer_call c = true /\
    is_accept (_parse_validation_result reply) = true.
Proof.
  intros Hres.
  pose proof (process_query_outcome env query) as Hout.
  destruct (process_query_protocol env query) as (Hp & _).
  destruct (process_query env query) as [result tr]. simpl in *.
  inversion Hout as [answer reply k rest Hk Hne Hb Hr Hf Hl He Ha Hs Hd Htr
                    | | | ]; subst result; try discriminate Hres.
  subst tr. simpl in Hres. injection Hres as ->.
  split; [exact Hne |].
  cbn [follows_protocol event_ok] in Hp. destruct Hp as [[_ Hprev] _].
  destruct rest as [|[c [t | e] | a m] earlier]; try contradiction;
    [| destruct c; contradiction].
  destruct c; try contradiction.
  - destruct earlier as [|[| a m] before]; try contradiction.
    destruct Hprev as [-> _]. exists (McpKickoff query0), reply, (AttemptBanner a m :: before).
    repeat split; auto.
  - destruct earlier as [|[| a m] before]; try contradiction.
    destruct Hprev as [-> _]. exists (RagKickoff query0), reply, (AttemptBanner a m :: before).
    repeat split; auto.
  - subst. exists (SynthesisKickoff query0 worker_results), reply, earlier.
    repeat split; auto.
Qed.

(** The run against [env_masked] returns the document worker's reply. *)
Lemma result_is_last_reply_witness :
  exists c reply earlier,
    snd (process_query env_masked "q")
    = Called (ValidationKickoff "q" "Aadhar number: XXXX-XXXX-9012") (Returns reply)
      :: Called c (Returns "Aadhar number: XXXX-XXXX-9012") :: earlier /\
    answer_call c = true.
Proof.
  destruct (result_is_last_reply env_masked "q" "Aadhar number: XXXX-XXXX-9012"
              eq_refl) as (_ & c & reply & earlier & Htr & Hc & _).
  exists c, reply, earlier. split; assumption.
Defined.

(** Whatever happens, the caller gets a dict that echoes the query and has
    one of two shapes: success=true with a non-empty result text, an
    attempt count and no error; or success=false with an error text and no
    result. *)
Theorem result_is_structured (env : trace -> call -> outcome) (query : string) :
  let result := fst (process_query env query) in
  dict_get "query" result = Some (PStr query) /\
  ((dict_get "success" result = Some (PBool true) /\
    (exists text, text <> "" /\ dict_get "result" result = Some (PStr text)) /\
    (exists n, dict_get "attempts" result = Some (PInt n)) /\
    dict_get "error" result = None) \/
   (dict_get "success" result = Some (PBool false) /\
    (exists e, dict_get "error" result = Some (PStr e)) /\
    dict_get "result" result = None)).
Proof.
  cbv zeta.
  pose proof (process_query_outcome env query) as Hout.
  destruct (process_query env query) as [result tr]. simpl in *.
  inversion Hout; subst; (split; [reflexivity |]).
  - left. split; [reflexivity |]. split; [now exists answer |].
    split; [| reflexivity]. now exists (Z.of_nat k).
  - right. split; [reflexivity |]. split; [| reflexivity]. eexists; reflexivity.
  - right. split; [reflexivity |]. split; [| reflexivity]. eexists; reflexivity.
  - right. split; [reflexivity |]. split; [| reflexivity]. eexists; reflexivity.
Qed.

End SupervisorMore.

(** ** The record store: effects of the writing tools *)

Module StoreEffects.
Import Py Store StoreViews StoreSpec StoreFacts.

Local Open Scope Z_scope.

(** What a REAL column gives back is no NaN and is given back again. *)
Lemma store_real_not_nan (f : float) :
  PrimFloat.is_nan f = false -> PrimFloat.is_nan (store_real f) = false.
Proof.
  unfold store_real. destruct (PrimFloat.eqb f PrimFloat.zero); auto.
Qed.

Lemma store_real_stored (f : float) : stored_real (store_real f).
Proof.
  unfold stored_real, store_real.
  destruct (PrimFloat.eqb f PrimFloat.zero) eqn:E; [reflexivity |].
  now rewrite E.
Qed.

Lemma bind_int_int64 (z i : Z) : bind_int z = Ok i -> i = z /\ int64 z.
Proof.
  unfold bind_int, int64.
  destruct (int64_min <=? z) eqn:E1; destruct (z <=? int64_max) eqn:E2;
    simpl; try discriminate.
  intros [= ->]. apply Z.leb_le in E1, E2. auto.
Qed.

Lemma read_only_keeps (r : request) (conn : connection) :
  read_only r = true -> snd (call_tool r conn) = conn.
Proof.
  destruct conn as [fk d].
  destruct r; try discriminate; intros _; unfold call_tool;
    unfold get_person, list_persons, search_person_by_name, get_bank_account,
      list_bank_accounts, get_accounts_by_person, get_person_with_accounts,
      select_persons_by_id, select_persons, select_persons_by_lower_name,
      select_accounts_by_id, select_accounts, select_accounts_by_person,
      select_person_left_join_accounts;
    run_tool; reflexivity.
Qed.

(** [create_person]: refused with nothing changed, or the new row is put
    last under the next rowid. *)
Lemma create_person_effect (conn : connection) (name : string) (age : Z)
    (email : string) :
  let id := next_person_id conn in
  let U := create_person name age email conn in
  (failed (fst U) /\ snd U = conn) \/
  (fst U = [("success", PBool true);
            ("person", person_dict id name age email);
            ("message", PStr ("Person " ++ name ++ " created successfully with ID "
                              ++ str_of_int id))] /\
   snd U = Connection (foreign_keys conn)
             (Database (persons (db conn) ++ [PersonsRow id name age email])
                (bank_accounts (db conn)) id (seq_bank_accounts (db conn))) /\
   int64 age /\ id <= int64_max /\
   (forall r, In r (persons (db conn)) -> p_email r <> email)).
Proof.
  cbv zeta. unfold next_person_id.
  unfold create_person, insert_persons, try_except, bind, lift_res, get_conn,
    put_db, raise, ret.
  destruct (bind_int age) as [a | e] eqn:Ha; simpl.
  2:{ left. destruct (str_in _ e); split; reflexivity. }
  apply bind_int_int64 in Ha as [-> Hage].
  destruct (int64_max <? _) eqn:Hfull; simpl; [left; split; reflexivity |].
  destruct (existsb _ (persons (db conn))) eqn:Hdup; simpl;
    [left; split; reflexivity |].
  right. split; [reflexivity |]. split; [reflexivity |]. split; [exact Hage |].
  split; [apply Z.ltb_ge in Hfull; exact Hfull |].
  intros r Hin Heq.
    assert (existsb (fun r => String.eqb (p_email r) email) (persons (db conn)) = true)
      by (apply existsb_exists; exists r; split; [exact Hin | now apply String.eqb_eq]).
  congruence.
Qed.

(** [delete_person]: refused with nothing changed, or the rows with that id
    are removed, and the accounts that reference it only under the pragma. *)
Lemma delete_person_effect (conn : connection) (person_id : Z) :
  let U := delete_person person_id conn in
  (failed (fst U) /\ snd U = conn) \/
  (exists person,
     find_person person_id conn = Some person /\
     fst U = [("success", PBool true);
              ("message", PStr ("Person " ++ p_name person ++ " deleted successfully"))] /\
     snd U = Connection (foreign_keys conn)
               (Database
                  (filter (fun r => negb (p_id r =? person_id)) (persons (db conn)))
                  (if foreign_keys conn
                   then filter (fun a => negb (a_personId a =? person_id))
                          (bank_accounts (db conn))
                   else bank_accounts (db conn))
                  (seq_persons (db conn)) (seq_bank_accounts (db conn))) /\
     int64 person_id).
Proof.
  cbv zeta.
  unfold delete_person, select_persons_by_id, delete_persons, try_except, bind,
    lift_res, get_conn, put_db, ret.
  destruct (bind_int person_id) as [i | e] eqn:Hi; simpl;
    [| left; split; reflexivity].
  apply bind_int_int64 in Hi as [-> Hid].
  rewrite fetchone_filter. fold (find_person person_id conn).
  destruct (find_person person_id conn) as [person |]; simpl;
    [| left; split; reflexivity].
  right. exists person. unfold int64 in *. repeat split; auto; tauto.
Qed.

(** [create_bank_account]: refused with nothing changed, or the new row is
    put last under the next rowid, for a person that is stored. *)
Lemma create_bank_account_effect (conn : connection) (person_id : Z)
    (bank_name : string) (balance : float) :
  let id := next_account_id conn in
  let U := create_bank_account person_id bank_name balance conn in
  (failed (fst U) /\ snd U = conn) \/
  (exists person,
     find_person person_id conn = Some person /\
     fst U = [("success", PBool true);
              ("account", account_dict id person_id bank_name balance);
              ("message", PStr ("Bank account created successfully with ID "
                                ++ str_of_int id ++ " for " ++ p_name person))] /\
     snd U = Connection (foreign_keys conn)
               (Database (persons (db conn))
                  (bank_accounts (db conn)
                   ++ [BankAccountsRow id person_id bank_name (store_real balance)])
                  (seq_persons (db conn)) id) /\
     int64 person_id /\ id <= int64_max /\ PrimFloat.is_nan balance = false).
Proof.
  cbv zeta. unfold next_account_id.
  unfold create_bank_account, select_persons_by_id, insert_bank_accounts,
    try_except, bind, lift_res, get_conn, put_db, raise, ret.
  destruct (bind_int person_id) as [i | e] eqn:Hi; simpl;
    [| left; split; reflexivity].
  apply bind_int_int64 in Hi as [-> Hid].
  rewrite fetchone_filter. fold (find_person person_id conn).
  destruct (find_person person_id conn) as [person |] eqn:Hfind; simpl;
    [| left; split; reflexivity].
  destruct (int64_max <? _) eqn:Hfull; simpl; [left; split; reflexivity |].
  unfold bind_float.
  destruct (PrimFloat.is_nan balance) eqn:Hnan; simpl;
    [left; split; reflexivity |].
  assert (Hex : existsb (fun r => p_id r =? person_id) (persons (db conn)) = true).
  { unfold find_person in Hfind. apply find_some in Hfind.
    apply existsb_exists. now exists person. }
  rewrite Hex, andb_false_r. simpl.
  right. exists person. apply Z.ltb_ge in Hfull. unfold int64 in *.
  repeat split; auto; tauto.
Qed.

(** [delete_bank_account]: refused with nothing changed, or the rows with
    that id are removed. *)
Lemma delete_bank_account_effect (conn : connection) (account_id : Z) :
  let U := delete_bank_account account_id conn in
  (failed (fst U) /\ snd U = conn) \/
  (exists account,
     find_account account_id conn = Some account /\
     fst U = [("success", PBool true);
              ("message", PStr ("Bank account " ++ str_of_int account_id
                                ++ " deleted successfully"))] /\
     snd U = Connection (foreign_keys conn)
               (Database (persons (db conn))
                  (filter (fun a => negb (a_accountId a =? account_id))
                     (bank_accounts (db conn)))
                  (seq_persons (db conn)) (seq_bank_accounts (db conn)))).
Proof.
  cbv zeta.
  unfold delete_bank_account, select_accounts_by_id, delete_bank_accounts,
    try_except, bind, lift_res, get_conn, put_db, ret.
  destruct (bind_int account_id) as [i | e] eqn:Hi; simpl;
    [| left; split; reflexivity].
  apply bind_int_int64 in Hi as [-> Hid].
  rewrite fetchone_filter. fold (find_account account_id conn).
  destruct (find_account account_id conn) as [account |]; simpl;
    [| left; split; reflexivity].
  right. exists account. repeat split; auto.
Qed.

(** [update_person]: refused with nothing changed, or the rows with that id
    are rewritten from the merged values, which no other row's email
    clashes with. *)
Lemma update_person_full (conn : connection) (person_id : Z)
    (name : option string) (age : option Z) (email : option string) :
  let U := update_person person_id name age email conn in
  (failed (fst U) /\ snd U = conn) \/
  (exists current,
     find_person person_id conn = Some current /\
     let name' := or_str name (p_name current) in
     let age' := if_not_none age (p_age current) in
     let email' := or_str email (p_email current) in
     fst U = [("success", PBool true);
              ("person", person_dict person_id name' age' email');
              ("message", PStr ("Person " ++ name' ++ " updated successfully"))] /\
     snd U = Connection (foreign_keys conn)
               (Database
                  (map (fun r => if p_id r =? person_id
                                 then PersonsRow (p_id r) name' age' email'
                                 else r) (persons (db conn)))
                  (bank_accounts (db conn)) (seq_persons (db conn))
                  (seq_bank_accounts (db conn))) /\
     int64 age' /\
     (forall r, In r (persons (db conn)) -> p_id r <> person_id ->
                p_email r <> email')).
Proof.
  cbv zeta.
  unfold update_person, select_persons_by_id, update_persons, try_except, bind,
    lift_res, get_conn, put_db, raise, ret.
  destruct (bind_int person_id) as [i | e] eqn:Hi; simpl;
    [| left; split; reflexivity].
  apply bind_int_int64 in Hi as [-> Hid].
  rewrite fetchone_filter. fold (find_person person_id conn).
  destruct (find_person person_id conn) as [current |] eqn:Hcur; simpl;
    [| left; split; reflexivity].
  destruct (bind_int (if_not_none age (p_age current))) as [a | e] eqn:Ha; simpl;
    [| left; split; reflexivity].
  apply bind_int_int64 in Ha as [-> Hage].
  assert (Hex : existsb (fun r => p_id r =? person_id) (persons (db conn)) = true).
  { unfold find_person in Hcur. apply find_some in Hcur.
    apply existsb_exists. now exists current. }
  rewrite Hex. simpl.
  destruct (existsb (fun r => negb (p_id r =? person_id) && _)
              (persons (db conn))) eqn:Hclash; simpl;
    [left; split; reflexivity |].
  right. exists current.
  split; [reflexivity |]. split; [reflexivity |]. split; [reflexivity |].
  split; [exact Hage |].
  intros r Hin Hne Heq.
  assert (existsb (fun r => negb (p_id r =? person_id)
                            && String.eqb (p_email r)
                                 (or_str email (p_email current)))
            (persons (db conn)) = true).
  { apply existsb_exists. exists r. split; [exact Hin |].
    apply Z.eqb_neq in Hne. rewrite Hne. simpl. now apply String.eqb_eq. }
  congruence.
Qed.

(** [update_bank_account]: refused with nothing changed, or the rows with
    that id get the merged bank name and balance; owner and id stay. *)
Lemma update_bank_account_full (conn : connection) (account_id : Z)
    (bank_name : option string) (balance : option float) :
  let U := update_bank_account account_id bank_name balance conn in
  (failed (fst U) /\ snd U = conn) \/
  (exists current,
     find_account account_id conn = Some current /\
     let bank_name' := or_str bank_name (a_bankName current) in
     let balance' := if_not_none balance (a_balance current) in
     fst U = [("success", PBool true);
              ("account", account_dict account_id (a_personId current)
                            bank_name' balance');
              ("message", PStr ("Bank account " ++ str_of_int account_id
                                ++ " updated successfully"))] /\
     snd U = Connection (foreign_keys conn)
               (Database (persons (db conn))
                  (map (fun a => if a_accountId a =? account_id
                                 then BankAccountsRow (a_accountId a) (a_personId a)
                                        bank_name' (store_real balance')
                                 else a) (bank_accounts (db conn)))
                  (seq_persons (db conn)) (seq_bank_accounts (db conn))) /\
     PrimFloat.is_nan balance' = false).
Proof.
  cbv zeta.
  unfold update_bank_account, select_accounts_by_id, update_bank_accounts,
    try_except, bind, lift_res, get_conn, put_db, raise, ret.
  destruct (bind_int account_id) as [i | e] eqn:Hi; simpl;
    [| left; split; reflexivity].
  apply bind_int_int64 in Hi as [-> Hid].
  rewrite fetchone_filter. fold (find_account account_id conn).
  destruct (find_account account_id conn) as [current |] eqn:Hcur; simpl;
    [| left; split; reflexivity].
  unfold bind_float.
  destruct (PrimFloat.is_nan (if_not_none balance (a_balance current))) eqn:Hnan;
    simpl.
  - assert (He : existsb (fun a => a_accountId a =? account_id)
                   (bank_accounts (db conn)) = true).
    { unfold find_account in Hcur. apply find_some in Hcur.
      apply existsb_exists. now exists current. }
    rewrite He. simpl. left; split; reflexivity.
  - right. exists current. repeat split; auto.
Qed.

(** Every request is one of the seven that only read or one of the six
    writers. *)
Lemma request_cases (r : request) :
  read_only r = true \/
  (exists name age email, r = CreatePerson name age email) \/
  (exists person_id name age email, r = UpdatePerson person_id name age email) \/
  (exists person_id, r = DeletePerson person_id) \/
  (exists person_id bank_name balance,
     r = CreateBankAccount person_id bank_name balance) \/
  (exists account_id bank_name balance,
     r = UpdateBankAccount account_id bank_name balance) \/
  (exists account_id, r = DeleteBankAccount account_id).
Proof. destruct r; simpl; eauto 10. Qed.

End StoreEffects.

(** ** The record store: what every tool call keeps *)

Module StoreInvariants.
Import Py Store StoreViews StoreSpec StoreFacts StoreEffects.

Local Open Scope Z_scope.

Lemma max_rowid_nonneg (ids : list Z) : 0 <= max_rowid ids.
Proof. induction ids as [|x ids IH]; simpl; lia. Qed.

Lemma max_rowid_ge (ids : list Z) (x : Z) : In x ids -> x <= max_rowid ids.
Proof.
  induction ids as [|y ids IH]; simpl; [tauto |].
  intros [-> | Hin]; [lia |]. specialize (IH Hin). lia.
Qed.

Lemma NoDup_map_filter {A B : Type} (f : A -> B) (g : A -> bool) (l : list A) :
  NoDup (map f l) -> NoDup (map f (filter g l)).
Proof.
  induction l as [|x l IH]; simpl; [auto |].
  intros Hnd. inversion Hnd as [|? ? Hnotin Hrest]; subst.
  destruct (g x); simpl; [| now apply IH].
  constructor; [| now apply IH].
  intros Hin. apply Hnotin. apply in_map_iff in Hin as (y & Hy & Hin).
  apply filter_In in Hin as [Hin _]. apply in_map_iff. now exists y.
Qed.

Lemma Forall_filter {A : Type} (P : A -> Prop) (g : A -> bool) (l : list A) :
  Forall P l -> Forall P (filter g l).
Proof.
  rewrite !Forall_forall. intros H x Hin.
  apply filter_In in Hin as [Hin _]. now apply H.
Qed.

Lemma map_key_update {A B : Type} (key : A -> B) (test : A -> bool)
    (g : A -> A) (l : list A) :
  (forall r, key (g r) = key r) ->
  map key (map (fun r => if test r then g r else r) l) = map key l.
Proof.
  intros Hkey. rewrite map_map. apply map_ext. intros r.
  now destruct (test r).
Qed.

Lemma Forall_update {A : Type} (P : A -> Prop) (test : A -> bool) (g : A -> A)
    (l : list A) :
  Forall P l -> (forall r, P r -> test r = true -> P (g r)) ->
  Forall P (map (fun r => if test r then g r else r) l).
Proof.
  intros Hl Hg. induction Hl as [|r l Hr Hl IH]; simpl; constructor; auto.
  destruct (test r) eqn:E; auto.
Qed.

Lemma NoDup_emails_update (i : Z) (n : string) (a : Z) (e : string)
    (l : list persons_row) :
  NoDup (map p_id l) -> NoDup (map p_email l) ->
  (forall r, In r l -> p_id r <> i -> p_email r <> e) ->
  NoDup (map p_email
           (map (fun r => if p_id r =? i then PersonsRow (p_id r) n a e else r) l)).
Proof.
  induction l as [|r l IH]; simpl; [constructor |].
  intros Hid Hem Hclash.
  inversion Hid as [|? ? Hidr Hidl]; inversion Hem as [|? ? Hemr Heml]; subst.
  assert (IHl := IH Hidl Heml (fun r' Hin => Hclash r' (or_intror Hin))).
  constructor; [| exact IHl].
  intros Hin. apply in_map_iff in Hin as (r' & Heq & Hin).
  apply in_map_iff in Hin as (r0 & <- & Hin0).
  destruct (p_id r =? i) eqn:Er; destruct (p_id r0 =? i) eqn:E0; simpl in Heq.
  - apply Z.eqb_eq in Er, E0. apply Hidr. apply in_map_iff.
    exists r0. split; [congruence | exact Hin0].
  - apply Z.eqb_neq in E0. exact (Hclash r0 (or_intror Hin0) E0 Heq).
  - apply Z.eqb_neq in Er. exact (Hclash r (or_introl eq_refl) Er (eq_sym Heq)).
  - apply Hemr. apply in_map_iff. now exists r0.
Qed.

Lemma empty_database_ok : db_ok empty_database.
Proof.
  constructor; simpl; try constructor; unfold int64_max; lia.
Qed.

(** One tool call keeps the schema's constraints. *)
Lemma call_tool_keeps_db_ok (r : request) (conn : connection) :
  db_ok (db conn) -> db_ok (db (snd (call_tool r conn))).
Proof.
  intros Hok.
  destruct (request_cases r)
    as [Hro | [(name & age & email & ->) | [(id & name & age & email & ->)
       | [(id & ->) | [(id & bank & bal & ->) | [(id & bank & bal & ->)
       | (id & ->)]]]]]].
  - now rewrite read_only_keeps.
  - (* create_person *)
    destruct (create_person_effect conn name age email)
      as [[_ Hs] | (_ & Hs & Hage & Hmax & Hmail)];
      unfold call_tool; rewrite Hs; [exact Hok |].
    destruct Hok. unfold next_person_id in *. simpl.
    pose proof (max_rowid_nonneg (map p_id (persons (db conn)))) as Hnn.
    assert (Hlt : forall r, In r (persons (db conn)) ->
                    p_id r < Z.max (seq_persons (db conn))
                               (max_rowid (map p_id (persons (db conn)))) + 1).
    { intros r Hin.
      assert (p_id r <= max_rowid (map p_id (persons (db conn))))
        by (apply max_rowid_ge, in_map, Hin).
      lia. }
    constructor; simpl; auto.
    + rewrite map_app. apply NoDup_app; [assumption | repeat constructor; auto |].
      intros a Ha [Hnew | []]. apply in_map_iff in Ha as (r & Heq & Hin).
      specialize (Hlt r Hin). simpl in Hnew. lia.
    + rewrite map_app. apply NoDup_app; [assumption | repeat constructor; auto |].
      intros a Ha [Hnew | []]. apply in_map_iff in Ha as (r & Heq & Hin).
      simpl in Hnew. apply (Hmail r Hin). congruence.
    + apply Forall_app. split.
      * rewrite Forall_forall in *. intros r Hin.
        specialize (ok_person_keys0 r Hin). specialize (Hlt r Hin). lia.
      * repeat constructor; simpl; lia.
    + lia.
    + apply Forall_app. split; [assumption |].
      constructor; [exact Hage | constructor].
  - (* update_person *)
    destruct (update_person_full conn id name age email)
      as [[_ Hs] | (current & Hcur & _ & Hs & Hage & Hclash)];
      unfold call_tool; rewrite Hs; [exact Hok |].
    destruct Hok. constructor; simpl; auto.
    + now rewrite map_key_update.
    + now apply NoDup_emails_update.
    + apply Forall_update; [assumption |]. intros r Hr _. exact Hr.
    + apply Forall_update; [assumption |]. intros r _ _. exact Hage.
  - (* delete_person *)
    destruct (delete_person_effect conn id)
      as [[_ Hs] | (person & _ & _ & Hs & _)];
      unfold call_tool; rewrite Hs; [exact Hok |].
    destruct Hok. constructor; simpl; auto using NoDup_map_filter, Forall_filter.
    all: destruct (foreign_keys conn); auto using NoDup_map_filter, Forall_filter.
  - (* create_bank_account *)
    destruct (create_bank_account_effect conn id bank bal)
      as [[_ Hs] | (person & _ & _ & Hs & Hid & Hmax & Hnan)];
      unfold call_tool; rewrite Hs; [exact Hok |].
    destruct Hok. unfold next_account_id in *. simpl.
    pose proof (max_rowid_nonneg (map a_accountId (bank_accounts (db conn)))) as Hnn.
    assert (Hlt : forall a, In a (bank_accounts (db conn)) ->
                    a_accountId a
                    < Z.max (seq_bank_accounts (db conn))
                        (max_rowid (map a_accountId (bank_accounts (db conn)))) + 1).
    { intros a Hin.
      assert (a_accountId a <= max_rowid (map a_accountId (bank_accounts (db conn))))
        by (apply max_rowid_ge, in_map, Hin).
      lia. }
    constructor; simpl; auto.
    + rewrite map_app. apply NoDup_app; [assumption | repeat constructor; auto |].
      intros a Ha [Hnew | []]. apply in_map_iff in Ha as (r & Heq & Hin).
      specialize (Hlt r Hin). simpl in Hnew. lia.
    + apply Forall_app. split.
      * rewrite Forall_forall in *. intros a Hin.
        specialize (ok_account_keys0 a Hin). specialize (Hlt a Hin). lia.
      * repeat constructor; simpl; lia.
    + lia.
    + apply Forall_app. split; [assumption |].
      constructor; [exact Hid | constructor].
    + apply Forall_app. split; [assumption |].
      constructor; [exact (store_real_not_nan _ Hnan) | constructor].
  - (* update_bank_account *)
    destruct (update_bank_account_full conn id bank bal)
      as [[_ Hs] | (current & Hcur & _ & Hs & Hnan)];
      unfold call_tool; rewrite Hs; [exact Hok |].
    destruct Hok. constructor; simpl; auto.
    + now rewrite map_key_update.
    + apply Forall_update; [assumption |]. intros a Ha _. exact Ha.
    + apply Forall_update; [assumption |]. intros a Ha _. exact Ha.
    + apply Forall_update; [assumption |]. intros a _ _.
      exact (store_real_not_nan _ Hnan).
  - (* delete_bank_account *)
    destruct (delete_bank_account_effect conn id)
      as [[_ Hs] | (account & _ & _ & Hs)];
      unfold call_tool; rewrite Hs; [exact Hok |].
    destruct Hok. constructor; simpl; auto using NoDup_map_filter, Forall_filter.
Qed.

Lemma run_tools_app (rs1 rs2 : list request) (conn : connection) :
  run_tools (rs1 ++ rs2) conn = run_tools rs2 (run_tools rs1 conn).
Proof. unfold run_tools. apply fold_left_app. Qed.

Lemma run_tools_keeps_db_ok (requests : list request) (conn : connection) :
  db_ok (db conn) -> db_ok (db (run_tools requests conn)).
Proof.
  revert conn. induction requests as [|r rs IH]; intros conn Hok; simpl; [exact Hok |].
  apply IH. now apply call_tool_keeps_db_ok.
Qed.

End StoreInvariants.

(** ** The record store: round trips, keys, and what stays *)

Module StoreMore.
Import Py Store StoreViews StoreSpec StoreFacts StoreEffects StoreInvariants.

Local Open Scope Z_scope.

Lemma sample_database_ok : db_ok sample_database.
Proof.
  constructor; simpl; unfold int64, int64_min, int64_max;
    repeat constructor; simpl; try lia; intuition discriminate.
Qed.

(** The constraints that [_initialize_db] declares with CREATE TABLE, the
    foreign key apart, hold after every tool call if they held before: ids
    and emails stay unique, integers stay in 64-bit range, no balance is
    NaN, and the AUTOINCREMENT counters stay at or above every id.  Hence
    they hold after any sequence of tool calls on a database that started
    empty. *)
Theorem schema_constraints_kept :
  (forall (requests : list request) (conn : connection),
     db_ok (db conn) -> db_ok (db (run_tools requests conn))) /\
  (forall requests : list request,
     db_ok (db (run_tools requests (_initialize_db None)))).
Proof.
  split.
  - intros requests conn. apply run_tools_keeps_db_ok.
  - intros requests. apply run_tools_keeps_db_ok. exact empty_database_ok.
Qed.

(** On the sample database, after a creation, an update and a deletion. *)
Lemma schema_constraints_kept_witness :
  db_ok (db (run_tools [CreatePerson "Bob" 20 "bob@x.com";
                        UpdatePerson 1 None (Some 31) (Some "j@x.com");
                        DeletePerson 2] sample_connection)).
Proof.
  apply (proj1 schema_constraints_kept). exact sample_database_ok.
Defined.

Lemma find_app_miss {A : Type} (f : A -> bool) (l : list A) (x : A) :
  (forall y, In y l -> f y = false) -> find f (l ++ [x]) = find f [x].
Proof.
  induction l as [|y l IH]; simpl; intros H; [reflexivity |].
  rewrite (H y (or_introl eq_refl)). apply IH. intros z Hz. apply H. now right.
Qed.

Lemma find_app_hit {A : Type} (f : A -> bool) (l l' : list A) (x : A) :
  find f l = Some x -> find f (l ++ l') = Some x.
Proof.
  induction l as [|y l IH]; simpl; [discriminate |].
  destruct (f y); [auto | exact IH].
Qed.

Lemma next_person_id_above (conn : connection) (r : persons_row) :
  In r (persons (db conn)) -> p_id r < next_person_id conn.
Proof.
  intros Hin. unfold next_person_id.
  assert (p_id r <= max_rowid (map p_id (persons (db conn))))
    by (apply max_rowid_ge, in_map, Hin).
  lia.
Qed.

Lemma next_account_id_above (conn : connection) (a : bank_accounts_row) :
  In a (bank_accounts (db conn)) -> a_accountId a < next_account_id conn.
Proof.
  intros Hin. unfold next_account_id.
  assert (a_accountId a <= max_rowid (map a_accountId (bank_accounts (db conn))))
    by (apply max_rowid_ge, in_map, Hin).
  lia.
Qed.

Lemma next_person_id_int64 (conn : connection) :
  next_person_id conn <= int64_max -> int64 (next_person_id conn).
Proof.
  unfold int64, next_person_id, int64_min. intros H.
  pose proof (max_rowid_nonneg (map p_id (persons (db conn)))). lia.
Qed.

Lemma next_account_id_int64 (conn : connection) :
  next_account_id conn <= int64_max -> int64 (next_account_id conn).
Proof.
  unfold int64, next_account_id, int64_min. intros H.
  pose proof (max_rowid_nonneg (map a_accountId (bank_accounts (db conn)))). lia.
Qed.

(** A person that [create_person] reports as created can be read back:
    [get_person] on the id it returned gives the very name, age and email,
    and that id is larger than every id stored before. *)
Theorem create_then_get_person (conn : connection) (name : string) (age : Z)
    (email : string) :
  succeeded (fst (create_person name age email conn)) ->
  let id := next_person_id conn in
  let conn' := snd (create_person name age email conn) in
  dict_get "person" (fst (create_person name age email conn))
  = Some (person_dict id name age email) /\
  get_person id conn'
  = ([("success", PBool true); ("person", person_dict id name age email)], conn') /\
  (forall r, In r (persons (db conn)) -> p_id r < id).
Proof.
  intros Hok. cbv zeta.
  destruct (create_person_effect conn name age email)
    as [[Hfail _] | (Hres & Hs & Hage & Hmax & _)];
    [exfalso; exact (not_both _ Hfail Hok) |].
  rewrite Hres, Hs. split; [reflexivity |].
  split; [| intros r; apply next_person_id_above].
  unfold get_person, select_persons_by_id, try_except, bind, lift_res, get_conn, ret.
  rewrite (bind_int_ok _ (next_person_id_int64 conn Hmax)). simpl.
  rewrite fetchone_filter, find_app_miss.
  - simpl. rewrite Z.eqb_refl. reflexivity.
  - intros r Hin. apply Z.eqb_neq.
    pose proof (next_person_id_above conn r Hin). lia.
Qed.

(** Bob is created on the sample database under id 3 and read back. *)
Lemma create_then_get_person_witness :
  fst (get_person 3 (snd (create_person "Bob" 20 "bob@x.com" sample_connection)))
  = [("success", PBool true); ("person", person_dict 3 "Bob" 20 "bob@x.com")].
Proof.
  destruct (create_then_get_person sample_connection "Bob" 20 "bob@x.com")
    as (_ & Hget & _).
  - vm_compute. reflexivity.
  - change (next_person_id sample_connection) with 3 in Hget.
    now rewrite Hget.
Defined.

Lemma seq_persons_grows (r : request) (conn : connection) :
  seq_persons (db conn) <= seq_persons (db (snd (call_tool r conn))).
Proof.
  destruct (request_cases r)
    as [Hro | [(name & age & email & ->) | [(id & name & age & email & ->)
       | [(id & ->) | [(id & bank & bal & ->) | [(id & bank & bal & ->)
       | (id & ->)]]]]]].
  - rewrite read_only_keeps by assumption. lia.
  - destruct (create_person_effect conn name age email)
      as [[_ Hs] | (_ & Hs & _)]; unfold call_tool; rewrite Hs; simpl;
      unfold next_person_id; lia.
  - destruct (update_person_full conn id name age email)
      as [[_ Hs] | (c & _ & _ & Hs & _)]; unfold call_tool; rewrite Hs; simpl; lia.
  - destruct (delete_person_effect conn id)
      as [[_ Hs] | (c & _ & _ & Hs & _)]; unfold call_tool; rewrite Hs; simpl; lia.
  - destruct (create_bank_account_effect conn id bank bal)
      as [[_ Hs] | (c & _ & _ & Hs & _)]; unfold call_tool; rewrite Hs; simpl; lia.
  - destruct (update_bank_account_full conn id bank bal)
      as [[_ Hs] | (c & _ & _ & Hs & _)]; unfold call_tool; rewrite Hs; simpl; lia.
  - destruct (delete_bank_account_effect conn id)
      as [[_ Hs] | (c & _ & _ & Hs)]; unfold call_tool; rewrite Hs; simpl; lia.
Qed.

Lemma seq_persons_grows_run (requests : list request) (conn : connection) :
  seq_persons (db conn) <= seq_persons (db (run_tools requests conn)).
Proof.
  revert conn. induction requests as [|r rs IH]; intros conn; simpl; [lia |].
  pose proof (seq_persons_grows r conn). specialize (IH (snd (call_tool r conn))).
  lia.
Qed.

(** Person ids are never given out twice.  Whatever tool calls come in
    between, deletions included, a person created later gets an id larger
    than the id of every person that was stored before. *)
Theorem person_ids_never_reused (conn : connection) (requests : list request)
    (name : string) (age : Z) (email : string) (earlier : persons_row) :
  db_ok (db conn) ->
  In earlier (persons (db conn)) ->
  let later := run_tools requests conn in
  succeeded (fst (create_person name age email later)) ->
  dict_get "person" (fst (create_person name age email later))
  = Some (person_dict (next_person_id later) name age email) /\
  p_id earlier < next_person_id later.
Proof.
  intros Hok Hin later Hcreated.
  destruct (create_person_effect later name age email)
    as [[Hfail _] | (Hres & _)];
    [exfalso; exact (not_both _ Hfail Hcreated) |].
  split; [now rewrite Hres |].
  pose proof (seq_persons_grows_run requests conn) as Hgrow. fold later in Hgrow.
  destruct Hok as [_ _ _ Hkeys _ _ _ _ _ _].
  rewrite Forall_forall in Hkeys. specialize (Hkeys earlier Hin).
  unfold next_person_id. lia.
Qed.

(** JANE (id 2) is deleted and a new person created: the new id is 3, not 2. *)
Lemma person_ids_never_reused_witness :
  2 < next_person_id (run_tools [DeletePerson 2] sample_connection).
Proof.
  apply (person_ids_never_reused sample_connection [DeletePerson 2]
           "Bob" 20 "bob@x.com" (PersonsRow 2 "JANE" 41 "jd@y.org")).
  - exact sample_database_ok.
  - simpl. right. left. reflexivity.
  - vm_compute. reflexivity.
Defined.

Lemma find_filter_out {A : Type} (key : A -> Z) (i : Z) (l : list A) :
  find (fun r => key r =? i) (filter (fun r => negb (key r =? i)) l) = None.
Proof.
  induction l as [|r l IH]; simpl; [reflexivity |].
  destruct (key r =? i) eqn:E; simpl; [exact IH | now rewrite E].
Qed.

Lemma find_filter_other {A : Type} (key : A -> Z) (i j : Z) (l : list A) :
  j <> i ->
  find (fun r => key r =? j) (filter (fun r => negb (key r =? i)) l)
  = find (fun r => key r =? j) l.
Proof.
  intros Hne. induction l as [|r l IH]; simpl; [reflexivity |].
  destruct (key r =? i) eqn:Ei; simpl.
  - destruct (key r =? j) eqn:Ej; [| exact IH].
    apply Z.eqb_eq in Ei, Ej. congruence.
  - destruct (key r =? j); [reflexivity | exact IH].
Qed.

Lemma filter_filter_out {A : Type} (key : A -> Z) (i : Z) (l : list A) :
  filter (fun r => key r =? i) (filter (fun r => negb (key r =? i)) l) = [].
Proof.
  induction l as [|r l IH]; simpl; [reflexivity |].
  destruct (key r =? i) eqn:E; simpl; [exact IH | now rewrite E].
Qed.

(** After a successful [delete_person] the id is gone for every tool that
    looks a person up, whatever its other arguments: reading, updating,
    deleting again, opening an account for it and both listings of its
    accounts answer that the person is not found and change nothing.
    Every other person is as before. *)
Theorem delete_then_get_person (conn : connection) (person_id : Z) :
  succeeded (fst (delete_person person_id conn)) ->
  let conn' := snd (delete_person person_id conn) in
  get_person person_id conn' = (failure "Person not found", conn') /\
  (forall name age email,
     update_person person_id name age email conn'
     = (failure "Person not found", conn')) /\
  delete_person person_id conn' = (failure "Person not found", conn') /\
  (forall bank_name balance,
     create_bank_account person_id bank_name balance conn'
     = (failure ("Person with ID " ++ str_of_int person_id ++ " not found"),
        conn')) /\
  get_accounts_by_person person_id conn'
  = (failure ("Person with ID " ++ str_of_int person_id ++ " not found"), conn') /\
  get_person_with_accounts person_id conn'
  = (failure "Person not found", conn') /\
  (forall other, other <> person_id ->
                 find_person other conn' = find_person other conn).
Proof.
  intros Hok. cbv zeta.
  destruct (delete_person_effect conn person_id)
    as [[Hfail _] | (person & _ & _ & Hs & Hid)];
    [exfalso; exact (not_both _ Hfail Hok) |].
  rewrite Hs. clear Hs Hok.
  unfold get_person, update_person, delete_person, create_bank_account,
    get_accounts_by_person, get_person_with_accounts, select_persons_by_id,
    select_person_left_join_accounts, try_except, bind, lift_res, get_conn, ret,
    find_person.
  rewrite (bind_int_ok _ Hid). simpl.
  rewrite !fetchone_filter, !find_filter_out. simpl.
  rewrite filter_filter_out. simpl.
  repeat split; auto.
  intros other Hne. now apply find_filter_other.
Qed.

(** JANE is deleted from the sample database and cannot be read any more. *)
Lemma delete_then_get_person_witness :
  fst (get_person 2 (snd (delete_person 2 sample_connection)))
  = failure "Person not found" /\
  fst (update_person 2 (Some "Joan") None None
         (snd (delete_person 2 sample_connection)))
  = failure "Person not found".
Proof.
  destruct (delete_then_get_person sample_connection 2) as (Hget & Hupd & _).
  - vm_compute. reflexivity.
  - now rewrite Hget, Hupd.
Defined.

(** An account that [create_bank_account] reports as created can be read
    back by its id, and it is the last of its owner's accounts.  What is
    read back is the balance as the REAL column holds it: the balance
    given, but for a negative zero, which is read back as 0.0 while the
    answer of [create_bank_account] itself echoes the value given. *)
Theorem create_then_get_bank_account (conn : connection) (person_id : Z)
    (bank_name : string) (balance : float) :
  succeeded (fst (create_bank_account person_id bank_name balance conn)) ->
  let id := next_account_id conn in
  let conn' := snd (create_bank_account person_id bank_name balance conn) in
  dict_get "account" (fst (create_bank_account person_id bank_name balance conn))
  = Some (account_dict id person_id bank_name balance) /\
  get_bank_account id conn'
  = ([("success", PBool true);
      ("account", account_dict id person_id bank_name (store_real balance))],
     conn') /\
  store_real balance
  = (if PrimFloat.eqb balance 0%float then 0%float else balance) /\
  accounts_of person_id conn'
  = (accounts_of person_id conn
     ++ [BankAccountsRow id person_id bank_name (store_real balance)])%list /\
  find_person person_id conn' <> None.
Proof.
  intros Hok. cbv zeta.
  destruct (create_bank_account_effect conn person_id bank_name balance)
    as [[Hfail _] | (person & Hfind & Hres & Hs & Hid & Hmax & Hnan)];
    [exfalso; exact (not_both _ Hfail Hok) |].
  rewrite Hres, Hs. split; [reflexivity |].
  split; [| split; [reflexivity | split]].
  - unfold get_bank_account, select_accounts_by_id, try_except, bind, lift_res,
      get_conn, ret.
    rewrite (bind_int_ok _ (next_account_id_int64 conn Hmax)). simpl.
    rewrite fetchone_filter, find_app_miss.
    + simpl. rewrite Z.eqb_refl. reflexivity.
    + intros a Hin. apply Z.eqb_neq.
      pose proof (next_account_id_above conn a Hin). lia.
  - unfold accounts_of. simpl. rewrite filter_app. simpl.
    now rewrite Z.eqb_refl.
  - unfold find_person in *. simpl. congruence.
Qed.

(** A third account for Jane on the sample database, opened with a
    negative zero: the answer echoes it, the store gives 0.0 back. *)
Lemma create_then_get_bank_account_witness :
  dict_get "account"
    (fst (create_bank_account 1 "ICICI" (-0)%float sample_connection))
  = Some (account_dict 3 1 "ICICI" (-0)%float) /\
  fst (get_bank_account 3
         (snd (create_bank_account 1 "ICICI" (-0)%float sample_connection)))
  = [("success", PBool true); ("account", account_dict 3 1 "ICICI" 0%float)] /\
  PrimFloat.Leibniz.eqb (-0)%float 0%float = false.
Proof.
  destruct (create_then_get_bank_account sample_connection 1 "ICICI" (-0)%float)
    as (Hres & Hget & _).
  - vm_compute. reflexivity.
  - change (next_account_id sample_connection) with 3 in Hres, Hget.
    split; [exact Hres |]. split; [| reflexivity].
    rewrite Hget. reflexivity.
Defined.

Lemma filter_absent (l : list persons_row) (i : Z) :
  ~ In i (map p_id l) -> filter (fun r => p_id r =? i) l = [].
Proof.
  induction l as [|r l IH]; simpl; [reflexivity |].
  intros Hnotin. destruct (p_id r =? i) eqn:E.
  - exfalso. apply Hnotin. left. now apply Z.eqb_eq.
  - apply IH. intros Hin. apply Hnotin. now right.
Qed.

Lemma filter_unique (l : list persons_row) (i : Z) (p : persons_row) :
  NoDup (map p_id l) ->
  find (fun r => p_id r =? i) l = Some p ->
  filter (fun r => p_id r =? i) l = [p].
Proof.
  induction l as [|r l IH]; simpl; [discriminate |].
  intros Hnd Hfind. inversion Hnd as [|? ? Hnotin Hrest]; subst.
  destruct (p_id r =? i) eqn:E.
  - injection Hfind as ->. f_equal.
    apply Z.eqb_eq in E. subst i. now apply filter_absent.
  - now apply IH.
Qed.

Lemma joined_accounts_some (p : persons_row) (l : list bank_accounts_row) :
  Forall (fun a => 1 <= a_accountId a) l ->
  joined_accounts (map (fun a => (p, Some a)) l) = l.
Proof.
  induction 1 as [|a l Ha Hl IH]; simpl; [reflexivity |].
  assert (E : (a_accountId a =? 0) = false) by (apply Z.eqb_neq; lia).
  rewrite E. simpl. f_equal. exact IH.
Qed.

(** The two ways to read a person's accounts agree.  For a stored person
    on a database that meets the schema, [get_person_with_accounts] returns
    the person's own fields and exactly the accounts and the total that
    [get_accounts_by_person] returns. *)
Theorem join_agrees_with_accounts_by_person (conn : connection)
    (person_id : Z) (p : persons_row) :
  db_ok (db conn) ->
  find_person person_id conn = Some p ->
  let accounts := accounts_of person_id conn in
  get_person_with_accounts person_id conn
  = ([("success", PBool true);
      ("data",
       PDict [("id", PInt person_id); ("name", PStr (p_name p));
              ("age", PInt (p_age p)); ("email", PStr (p_email p));
              ("accounts", PList (map account_entry accounts));
              ("total_balance", total_balance accounts)])], conn) /\
  get_accounts_by_person person_id conn
  = ([("success", PBool true); ("person", PStr (p_name p));
      ("accounts", PList (map account_entry accounts));
      ("total_balance", total_balance accounts);
      ("count", PInt (Z.of_nat (List.length (map account_entry accounts))))],
     conn).
Proof.
  intros Hok Hfind. cbv zeta.
  destruct Hok as [Hids _ _ Hkeys Hakeys Hseq _ _ _ _].
  unfold find_person in Hfind.
  pose proof (find_some _ _ Hfind) as [Hin Heq]. apply Z.eqb_eq in Heq.
  assert (Hid : int64 person_id).
  { rewrite Forall_forall in Hkeys. specialize (Hkeys p Hin).
    unfold int64, int64_min. lia. }
  unfold get_person_with_accounts, get_accounts_by_person,
    select_person_left_join_accounts, select_persons_by_id,
    select_accounts_by_person, try_except, bind, lift_res, get_conn, ret,
    accounts_of.
  rewrite (bind_int_ok _ Hid). simpl.
  rewrite (filter_unique _ _ _ Hids Hfind). simpl.
  rewrite Heq, app_nil_r.
  split; [| reflexivity].
  destruct (filter (fun a => a_personId a =? person_id) (bank_accounts (db conn)))
    as [|a l] eqn:Hacc; [simpl; now rewrite Heq |].
  change ((p, Some a) :: map (fun a0 => (p, Some a0)) l)
    with (map (fun a0 => (p, Some a0)) (a :: l)).
  rewrite joined_accounts_some; [simpl; now rewrite Heq |].
  rewrite <- Hacc. apply Forall_filter.
  apply (Forall_impl _ (P := fun a => 1 <= a_accountId a
                                       <= seq_bank_accounts (db conn)));
    [intros ? ?; lia | exact Hakeys].
Qed.

(** Jane's two accounts on the sample database, read through the join. *)
Lemma join_agrees_with_accounts_by_person_witness :
  dict_get "data" (fst (get_person_with_accounts 1 sample_connection))
  = Some (PDict [("id", PInt 1); ("name", PStr "Jane"); ("age", PInt 30);
                 ("email", PStr "jane@x.com");
                 ("accounts",
                  PList (map account_entry (accounts_of 1 sample_connection)));
                 ("total_balance",
                  total_balance (accounts_of 1 sample_connection))]).
Proof.
  destruct (join_agrees_with_accounts_by_person sample_connection 1
              (PersonsRow 1 "Jane" 30 "jane@x.com") sample_database_ok eq_refl)
    as [Hjoin _].
  now rewrite Hjoin.
Defined.

Lemma pragma_kept (r : request) (conn : connection) :
  foreign_keys (snd (call_tool r conn)) = foreign_keys conn.
Proof.
  destruct (request_cases r)
    as [Hro | [(name & age & email & ->) | [(id & name & age & email & ->)
       | [(id & ->) | [(id & bank & bal & ->) | [(id & bank & bal & ->)
       | (id & ->)]]]]]].
  - now rewrite read_only_keeps.
  - destruct (create_person_effect conn name age email)
      as [[_ Hs] | (_ & Hs & _)]; unfold call_tool; now rewrite Hs.
  - destruct (update_person_full conn id name age email)
      as [[_ Hs] | (c & _ & _ & Hs & _)]; unfold call_tool; now rewrite Hs.
  - destruct (delete_person_effect conn id)
      as [[_ Hs] | (c & _ & _ & Hs & _)]; unfold call_tool; now rewrite Hs.
  - destruct (create_bank_account_effect conn id bank bal)
      as [[_ Hs] | (c & _ & _ & Hs & _)]; unfold call_tool; now rewrite Hs.
  - destruct (update_bank_account_full conn id bank bal)
      as [[_ Hs] | (c & _ & _ & Hs & _)]; unfold call_tool; now rewrite Hs.
  - destruct (delete_bank_account_effect conn id)
      as [[_ Hs] | (c & _ & _ & Hs)]; unfold call_tool; now rewrite Hs.
Qed.

(** One call that is not [delete_bank_account] of this account keeps the
    account, with its id and owner, on a connection without the pragma. *)
Lemma account_kept (r : request) (conn : connection) (account_id : Z)
    (account : bank_accounts_row) :
  foreign_keys conn = false ->
  r <> DeleteBankAccount account_id ->
  find_account account_id conn = Some account ->
  exists account',
    find_account account_id (snd (call_tool r conn)) = Some account' /\
    a_accountId account' = a_accountId account /\
    a_personId account' = a_personId account.
Proof.
  intros Hfk Hne Hfind.
  destruct (request_cases r)
    as [Hro | [(name & age & email & ->) | [(id & name & age & email & ->)
       | [(id & ->) | [(id & bank & bal & ->) | [(id & bank & bal & ->)
       | (id & ->)]]]]]].
  - rewrite read_only_keeps by assumption. now exists account.
  - destruct (create_person_effect conn name age email)
      as [[_ Hs] | (_ & Hs & _)]; unfold call_tool; rewrite Hs;
      now exists account.
  - destruct (update_person_full conn id name age email)
      as [[_ Hs] | (c & _ & _ & Hs & _)]; unfold call_tool; rewrite Hs;
      now exists account.
  - destruct (delete_person_effect conn id)
      as [[_ Hs] | (c & _ & _ & Hs & _)]; unfold call_tool; rewrite Hs;
      [now exists account |].
    rewrite Hfk. now exists account.
  - destruct (create_bank_account_effect conn id bank bal)
      as [[_ Hs] | (c & _ & _ & Hs & _)]; unfold call_tool; rewrite Hs;
      [now exists account |].
    exists account. unfold find_account in *. simpl.
    now rewrite (find_app_hit _ _ _ _ Hfind).
  - destruct (update_bank_account_full conn id bank bal)
      as [[_ Hs] | (c & _ & _ & Hs & _)]; unfold call_tool; rewrite Hs;
      [now exists account |].
    unfold find_account in *. simpl.
    rewrite find_map_update by reflexivity. rewrite Hfind.
    destruct (account_id =? id); simpl; eexists; repeat split; reflexivity.
  - destruct (delete_bank_account_effect conn id)
      as [[_ Hs] | (c & _ & _ & Hs)]; unfold call_tool; rewrite Hs;
      [now exists account |].
    exists account. unfold find_account in *. simpl.
    rewrite find_filter_other; [now rewrite Hfind |].
    intros ->. now apply Hne.
Qed.

(** On the connections the code opens (no foreign-key pragma), a stored
    account disappears only through [delete_bank_account] of its own id.
    Through any other sequence of tool calls, deletions of its owner
    included, it stays stored under the same id with the same owner id. *)
Theorem account_outlives_owner (requests : list request) (conn : connection)
    (account_id : Z) (account : bank_accounts_row) :
  foreign_keys conn = false ->
  find_account account_id conn = Some account ->
  Forall (fun r => r <> DeleteBankAccount account_id) requests ->
  exists account',
    find_account account_id (run_tools requests conn) = Some account' /\
    a_accountId account' = a_accountId account /\
    a_personId account' = a_personId account.
Proof.
  revert conn account.
  induction requests as [|r rs IH]; intros conn account Hfk Hfind Hall; simpl.
  - now exists account.
  - inversion Hall as [|? ? Hr Hrs]; subst.
    destruct (account_kept r conn account_id account Hfk Hr Hfind)
      as (a1 & Hf1 & Hid1 & Hp1).
    destruct (IH (snd (call_tool r conn)) a1) as (a2 & Hf2 & Hid2 & Hp2); auto.
    + rewrite pragma_kept. exact Hfk.
    + exists a2. repeat split; congruence.
Qed.

(** Jane is deleted and someone else is created: account 1 still names
    person 1 as its owner. *)
Lemma account_outlives_owner_witness :
  exists account',
    find_account 1 (run_tools [DeletePerson 1; CreatePerson "Bob" 20 "bob@x.com"]
                      sample_connection) = Some account' /\
    a_personId account' = 1.
Proof.
  destruct (account_outlives_owner
              [DeletePerson 1; CreatePerson "Bob" 20 "bob@x.com"]
              sample_connection 1 (BankAccountsRow 1 1 "HDFC" 2500%float))
    as (account' & Hfind & _ & Howner).
  - reflexivity.
  - reflexivity.
  - repeat constructor; discriminate.
  - exists account'. split; [exact Hfind | exact Howner].
Defined.

(** The foreign key of [bank_accounts] is kept by every tool call but a
    [delete_person] on a connection without the pragma.  So with the pragma
    on it would be an invariant of the store, and on the connections the
    code opens it can be broken by [delete_person] alone. *)
Theorem foreign_key_kept (r : request) (conn : connection) :
  no_orphans conn ->
  foreign_keys conn = true \/ (forall person_id, r <> DeletePerson person_id) ->
  no_orphans (snd (call_tool r conn)).
Proof.
  intros Hno Hcase. unfold no_orphans, find_person in *.
  destruct (request_cases r)
    as [Hro | [(name & age & email & ->) | [(id & name & age & email & ->)
       | [(id & ->) | [(id & bank & bal & ->) | [(id & bank & bal & ->)
       | (id & ->)]]]]]].
  - now rewrite read_only_keeps.
  - destruct (create_person_effect conn name age email)
      as [[_ Hs] | (_ & Hs & _)]; unfold call_tool; rewrite Hs; [exact Hno |].
    simpl. apply (Forall_impl _ (P := fun a =>
      find (fun r => p_id r =? a_personId a) (persons (db conn)) <> None));
      [| exact Hno].
    intros a Ha.
    destruct (find (fun r => p_id r =? a_personId a) (persons (db conn)))
      as [p |] eqn:Hp; [| congruence].
    now rewrite (find_app_hit _ _ _ _ Hp).
  - destruct (update_person_full conn id name age email)
      as [[_ Hs] | (c & _ & _ & Hs & _)]; unfold call_tool; rewrite Hs;
      [exact Hno |].
    simpl. apply (Forall_impl _ (P := fun a =>
      find (fun r => p_id r =? a_personId a) (persons (db conn)) <> None));
      [| exact Hno].
    intros a Ha. rewrite find_map_update by reflexivity.
    destruct (find (fun r => p_id r =? a_personId a) (persons (db conn)));
      [| congruence].
    destruct (a_personId a =? id); simpl; discriminate.
  - destruct (delete_person_effect conn id)
      as [[_ Hs] | (c & _ & _ & Hs & _)]; unfold call_tool; rewrite Hs;
      [exact Hno |].
    destruct Hcase as [Hfk | Hnot]; [| now elim (Hnot id)].
    rewrite Hfk. simpl.
    rewrite Forall_forall in *. intros a Ha.
    apply filter_In in Ha as [Ha Hother].
    apply negb_true_iff, Z.eqb_neq in Hother.
    rewrite find_filter_other by exact Hother. now apply Hno.
  - destruct (create_bank_account_effect conn id bank bal)
      as [[_ Hs] | (c & Hc & _ & Hs & _)]; unfold call_tool; rewrite Hs;
      [exact Hno |].
    simpl. apply Forall_app. split; [exact Hno |].
    constructor; [| constructor]. simpl.
    unfold find_person in Hc. congruence.
  - destruct (update_bank_account_full conn id bank bal)
      as [[_ Hs] | (c & _ & _ & Hs & _)]; unfold call_tool; rewrite Hs;
      [exact Hno |].
    simpl. apply Forall_update; [exact Hno |]. intros a Ha _. exact Ha.
  - destruct (delete_bank_account_effect conn id)
      as [[_ Hs] | (c & _ & _ & Hs)]; unfold call_tool; rewrite Hs;
      [exact Hno |].
    simpl. now apply Forall_filter.
Qed.

(** Every account of the sample database has its owner, also after Jane's
    email is changed. *)
Lemma foreign_key_kept_witness :
  no_orphans (snd (call_tool (UpdatePerson 1 None None (Some "j@x.com"))
                     sample_connection)).
Proof.
  apply foreign_key_kept.
  - repeat constructor; discriminate.
  - right. discriminate.
Defined.



Lemma fold_total (rows : list bank_accounts_row) (t : float) :
  fold_left
    (fun total row =>
       match total with
       | None => Some (PrimFloat.add PrimFloat.zero (a_balance row))
       | Some t => Some (PrimFloat.add t (a_balance row))
       end) rows (Some t)
  = Some (fold_left PrimFloat.add (map a_balance rows) t).
Proof.
  revert t. induction rows as [|a rows IH]; intros t; simpl; [reflexivity |].
  apply IH.
Qed.

(** The total reported with a person's accounts is the integer 0 when there
    is no account, and otherwise the float sum of the balances taken from
    0.0 in table order. *)
Theorem total_balance_is_left_sum (rows : list bank_accounts_row) :
  total_balance rows
  = match rows with
    | [] => PInt 0
    | _ :: _ => PFloat (fold_left PrimFloat.add (map a_balance rows) PrimFloat.zero)
    end.
Proof.
  unfold total_balance. destruct rows as [|a rows]; [reflexivity |].
  simpl. now rewrite fold_total.
Qed.

End StoreMore.

(** ** More on the pattern of [config.py] *)

Module ConfigMore.
Import Config ConfigSpec.

Lemma digits_count (n : nat) (s rest : string) :
  digits n s = Some rest -> count_digits s = n + count_digits rest.
Proof.
  revert s. induction n as [|n IH]; intros s; simpl.
  - now intros [= ->].
  - destruct s as [|c s]; [discriminate |].
    destruct (is_digit c) eqn:E; [| discriminate].
    intros H. apply IH in H. simpl. rewrite E, H. reflexivity.
Qed.

Lemma space_is_no_digit (c : ascii) : is_space c = true -> is_digit c = false.
Proof.
  unfold is_space, is_digit. cbv zeta.
  destruct (9 <=? nat_of_ascii c)%nat eqn:E1;
    destruct (nat_of_ascii c <=? 13)%nat eqn:E2;
    destruct (28 <=? nat_of_ascii c)%nat eqn:E3;
    destruct (nat_of_ascii c <=? 32)%nat eqn:E4;
    destruct (48 <=? nat_of_ascii c)%nat eqn:E5;
    destruct (nat_of_ascii c <=? 57)%nat eqn:E6;
    simpl; try discriminate; try reflexivity;
    repeat match goal with
           | H : (_ <=? _)%nat = true |- _ => apply Nat.leb_le in H
           | H : (_ <=? _)%nat = false |- _ => apply Nat.leb_gt in H
           end; lia.
Qed.

Lemma opt_space_count (s : string) : count_digits (opt_space s) = count_digits s.
Proof.
  destruct s as [|c s]; simpl; [reflexivity |].
  destruct (is_space c) eqn:E; simpl; [| reflexivity].
  now rewrite (space_is_no_digit c E).
Qed.

Lemma aadhar_here_count (s : string) :
  aadhar_here s = true -> 12 <= count_digits s.
Proof.
  unfold aadhar_here.
  destruct (digits 4 s) as [s1 |] eqn:E1; [| discriminate].
  destruct (digits 4 (opt_space s1)) as [s2 |] eqn:E2; [| discriminate].
  destruct (digits 4 (opt_space s2)) as [s3 |] eqn:E3; [| discriminate].
  intros _.
  apply digits_count in E1, E2, E3.
  rewrite opt_space_count in E2, E3. lia.
Qed.

Lemma aadhar_from_count (s : string) (prev_word : bool) :
  aadhar_from prev_word s = true -> 12 <= count_digits s.
Proof.
  revert prev_word. induction s as [|c s IH]; intros prev_word; simpl.
  - rewrite orb_false_r, andb_true_iff. intros [_ H]. discriminate H.
  - rewrite orb_true_iff, andb_true_iff. intros [[_ H] | H].
    + apply aadhar_here_count in H. simpl in H. exact H.
    + apply IH in H. lia.
Qed.

(** A text with fewer than twelve digits in it has no match of the
    identifier pattern.  So a masked token, XXXX-XXXX- followed by up to
    eleven characters, never matches again: masking twice would change
    nothing. *)
Theorem aadhar_needs_twelve_digits (text : string) :
  (count_digits text < 12 -> has_aadhar text = false) /\
  (String.length text < 12 -> has_aadhar ("XXXX-XXXX-" ++ text) = false).
Proof.
  assert (Hmain : forall t, count_digits t < 12 -> has_aadhar t = false).
  { intros t Hlt. destruct (has_aadhar t) eqn:E; [| reflexivity].
    apply aadhar_from_count in E. lia. }
  split; [apply Hmain |].
  intros Hlen. apply Hmain. simpl.
  assert (count_digits text <= String.length text).
  { clear. induction text as [|c t IH]; simpl; [lia |].
    destruct (is_digit c); lia. }
  lia.
Qed.

(** The masked form of the prompt's own example. *)
Lemma aadhar_needs_twelve_digits_witness :
  has_aadhar "XXXX-XXXX-9012" = false.
Proof.
  apply (proj2 (aadhar_needs_twelve_digits "9012")). simpl. lia.
Defined.

End ConfigMore.


(** ** The document index *)

Module RagFacts.
Import Py Rag RagSpec.

Lemma call_client_trace {A : Type} (c : qcall) (answer : qtrace -> res A)
    (tr : qtrace) :
  exists e, snd (call_client c answer tr) = (c, e) :: tr.
Proof.
  unfold call_client. destruct (answer tr); simpl; eauto.
Qed.

Lemma results_of_hits_no_payload (hits : list hit) :
  existsb no_payload hits = true ->
  exists e, results_of_hits hits = Exc e.
Proof.
  induction hits as [|h hits IH]; simpl; [discriminate|].
  unfold no_payload at 1. destruct (hit_payload h) as [p|]; simpl.
  - intros H. destruct (IH H) as [e ->]. eauto.
  - eauto.
Qed.

Lemma search_never_raises (client : qdrant) (encode_query : string -> res vector)
    (query : string) (top_k : nat) (tr : qtrace) :
  exists results, fst (search client encode_query query top_k tr) = Ok results.
Proof.
  unfold search, catch, bind, lift, client_search, call_client, ret.
  destruct (encode_query query) as [v|e]; simpl; [|eauto].
  destruct (q_search client tr QDRANT_COLLECTION v top_k) as [hits|e]; simpl;
    [|eauto].
  destruct (results_of_hits hits); simpl; eauto.
Qed.

Lemma search_fails_empty (client : qdrant) (encode_query : string -> res vector)
    (query : string) (top_k : nat) (tr : qtrace) :
  search_fails client encode_query query top_k tr = true ->
  fst (search client encode_query query top_k tr) = Ok [].
Proof.
  unfold search_fails, search, catch, bind, lift, client_search, call_client, ret.
  destruct (encode_query query) as [v|e]; simpl; [|reflexivity].
  destruct (q_search client tr QDRANT_COLLECTION v top_k) as [hits|e]; simpl;
    [|reflexivity].
  intros H. destruct (results_of_hits_no_payload hits H) as [e ->].
  reflexivity.
Qed.

(** Whatever goes wrong inside [search] -- the encoder raises, the
    Qdrant client raises, or a hit comes back without payload -- the search
    tool tells the agent that no relevant documents were found. *)
Theorem search_failure_reads_as_no_documents (client : qdrant)
    (encode_query : string -> res vector) (format_2f : float -> string)
    (query : string) (tr : qtrace) :
  search_fails client encode_query query 5 tr = true ->
  fst (_run client encode_query format_2f true query tr)
  = Ok "No relevant documents found for your query.".
Proof.
  intros H. apply search_fails_empty in H.
  unfold _run. cbn [negb]. unfold catch, bind, ret.
  destruct (search client encode_query query 5 tr) as [r tr'].
  simpl in H. subst r. reflexivity.
Qed.

Lemma search_failure_reads_as_no_documents_witness :
  search_fails unreachable (fun _ => Ok []) "hospital cover" 5 [] = true /\
  fst (_run unreachable (fun _ => Ok []) (fun _ => "0.00") true
         "hospital cover" [])
  = Ok "No relevant documents found for your query.".
Proof.
  split; [reflexivity|].
  apply (search_failure_reads_as_no_documents unreachable (fun _ => Ok [])
           (fun _ => "0.00") "hospital cover" []).
  reflexivity.
Defined.

(** With the pipeline set, the health endpoint reports Qdrant as
    connected whatever the client does; when the client raises, the
    number of vectors reads 0. *)
Theorem health_check_always_connected (client : qdrant) (ai_crew : bool)
    (tr : qtrace) :
  exists health vectors,
    fst (health_check client ai_crew true tr) = Ok health /\
    dict_get "status" health = Some (PStr "healthy") /\
    dict_get "qdrant" health
    = Some (PDict [("status", PStr "connected"); ("vectors", vectors)]) /\
    (forall e, q_get_collection client tr QDRANT_COLLECTION = Exc e ->
               vectors = PInt 0).
Proof.
  unfold health_check, get_collection_info, get_collection, call_client,
    catch, bind, ret.
  destruct (q_get_collection client tr QDRANT_COLLECTION) as [info|e]; simpl.
  - do 2 eexists. repeat split. discriminate.
  - do 2 eexists. repeat split.
Qed.

Lemma points_from_ids (i : nat) (chunks : list chunk) (embeddings : list vector) :
  map point_id (points_from i chunks embeddings)
  = seq i (List.length (points_from i chunks embeddings)).
Proof.
  revert i embeddings.
  induction chunks as [|c chunks IH]; intros i [|v embeddings]; simpl;
    try reflexivity.
  f_equal. apply IH.
Qed.

Lemma points_from_payload (P : chunk -> Prop) (i : nat) (chunks : list chunk)
    (embeddings : list vector) :
  Forall P chunks ->
  Forall (fun p => exists c, P c /\
            point_payload p
            = Payload (Some (ch_content c)) (Some (ch_source c))
                (Some (Z.of_nat (ch_page c))) (Some (ch_path c)))
         (points_from i chunks embeddings).
Proof.
  intros H. revert i embeddings.
  induction H as [|c chunks Hc H IH]; intros i [|v embeddings]; simpl;
    constructor; eauto.
Qed.

Lemma chunks_of_pages_meta (split_text : string -> res (list string))
    (pdf_path : string) (pages : list string) :
  forall page_num chunks,
    chunks_of_pages split_text pdf_path page_num pages = Ok chunks ->
    Forall (fun c => ch_source c = basename pdf_path /\ ch_path c = pdf_path /\
                     (1 <= ch_page c)%nat) chunks.
Proof.
  induction pages as [|page pages IH]; intros page_num chunks; simpl.
  - intros H. injection H as <-. constructor.
  - destruct (split_text page) as [page_chunks|e]; [|discriminate].
    destruct (chunks_of_pages split_text pdf_path (S page_num) pages)
      as [later|e] eqn:E; [|discriminate].
    intros H. injection H as <-.
    apply Forall_app. split.
    + apply Forall_forall. intros c Hc. apply in_map_iff in Hc.
      destruct Hc as [t [<- _]]. simpl. repeat split. lia.
    + eapply IH. exact E.
Qed.

Section Indexing.

Variable client : qdrant.
Variable loader_load : string -> res (list string).
Variable split_text : string -> res (list string).
Variable encode_texts : list string -> res (list vector).

(** What one call of [index_pdf] does: it returns a report on the file,
    and touches the client with at most one upload, of that file. *)
Lemma index_pdf_run (pdf_path : string) (tr : qtrace) :
  exists report : pydict,
    fst (index_pdf client loader_load split_text encode_texts pdf_path tr)
    = Ok report /\
    dict_get "file" report = Some (PStr (basename pdf_path)) /\
    (exists b, dict_get "success" report = Some (PBool b)) /\
    (uploads (snd (index_pdf client loader_load split_text encode_texts
                     pdf_path tr)) = uploads tr \/
     exists upload,
       uploads (snd (index_pdf client loader_load split_text encode_texts
                       pdf_path tr)) = upload :: uploads tr /\
       uploaded pdf_path upload).
Proof.
  unfold index_pdf, catch, bind, lift, ret, upload_points, call_client.
  destruct (loader_load pdf_path) as [pages|e]; simpl;
    [|eexists; repeat split; [eexists; reflexivity | left; reflexivity]].
  destruct (chunks_of_pages split_text pdf_path 0 pages) as [chunks|e] eqn:E;
    simpl; [|eexists; repeat split; [eexists; reflexivity | left; reflexivity]].
  destruct (encode_texts (map ch_content chunks)) as [embeddings|e]; simpl;
    [|eexists; repeat split; [eexists; reflexivity | left; reflexivity]].
  assert (Hup : uploaded pdf_path
                  (QDRANT_COLLECTION, points_from 0 chunks embeddings)).
  { split; [reflexivity |]. split; [apply points_from_ids|].
    apply chunks_of_pages_meta in E.
    pose proof (points_from_payload _ 0 chunks embeddings E) as H.
    eapply Forall_impl; [|exact H].
    intros p [c [[Hs [Hp Hn]] ->]]. simpl. rewrite Hs, Hp.
    repeat split. eauto. }
  destruct (q_upload_points client tr QDRANT_COLLECTION
              (points_from 0 chunks embeddings)) as [[]|e]; simpl;
    (eexists; split; [reflexivity|]; split; [reflexivity|];
     split; [eexists; reflexivity|]; right; eauto).
Qed.

Lemma index_each_run (pdf_files : list string) :
  forall (results : list pydict) (tr : qtrace),
  exists (reports : list pydict) (indexed : list string)
         (new : list (string * list point)),
    fst (index_each client loader_load split_text encode_texts pdf_files
           results tr) = Ok (results ++ reports)%list /\
    map (dict_get "file") reports
    = map (fun f => Some (PStr (basename f))) pdf_files /\
    Forall (fun r => exists b, dict_get "success" r = Some (PBool b)) reports /\
    uploads (snd (index_each client loader_load split_text encode_texts
                    pdf_files results tr)) = (new ++ uploads tr)%list /\
    subseq indexed pdf_files /\
    Forall2 uploaded (rev indexed) new.
Proof.
  induction pdf_files as [|f files IH]; intros results tr.
  - exists [], [], []. simpl. unfold ret. simpl. rewrite app_nil_r.
    repeat split; auto. constructor.
  - simpl. unfold bind.
    destruct (index_pdf_run f tr) as [report [Hr [Hfile [Hok Hup]]]].
    destruct (index_pdf client loader_load split_text encode_texts f tr)
      as [r tr1].
    simpl in Hr, Hup. subst r.
    destruct (IH (results ++ [report])%list tr1)
      as [reports [indexed [new [Hres [Hfiles [Hoks [Hups [Hsub Hnew]]]]]]]].
    rewrite Hres, Hups.
    destruct Hup as [Hup | [upload [Hup Hupload]]]; rewrite Hup.
    + exists (report :: reports), indexed, new.
      rewrite <- app_assoc. simpl.
      split; [reflexivity|]. split; [congruence|]. split; [auto|].
      split; [reflexivity|]. split; [now apply subseq_skip | exact Hnew].
    + exists (report :: reports), (f :: indexed), (new ++ [upload])%list.
      rewrite <- !app_assoc. simpl.
      split; [reflexivity|]. split; [congruence|]. split; [auto|].
      split; [reflexivity|]. split; [now apply subseq_take |].
      apply Forall2_app; [exact Hnew |]. constructor; [exact Hupload | constructor].
Qed.

Lemma clear_collection_uploads (tr : qtrace) :
  uploads (snd (catch (_ <- delete_collection client QDRANT_COLLECTION ;;
                       _initialize_collection client)
                  (fun _ => ret tt) tr)) = uploads tr /\
  fst (catch (_ <- delete_collection client QDRANT_COLLECTION ;;
              _initialize_collection client)
         (fun _ => ret tt) tr) = Ok tt.
Proof.
  unfold catch, bind, ret, delete_collection, _initialize_collection, catch,
    bind, ret, get_collections, create_collection, call_client.
  destruct (q_delete_collection client tr QDRANT_COLLECTION) as [[]|e];
    [|simpl; auto].
  match goal with
  | |- context [q_get_collections client ?t] =>
      destruct (q_get_collections client t) as [names|e]; [|simpl; auto]
  end.
  destruct (negb (existsb (String.eqb QDRANT_COLLECTION) names));
    [|simpl; auto].
  match goal with
  | |- context [q_create_collection client ?t ?n ?k] =>
      destruct (q_create_collection client t n k) as [[]|e]; simpl; auto
  end.
Qed.

Lemma index_all_pdfs_run (pdf_files : list string) (tr : qtrace) :
  exists (reports : list pydict) (indexed : list string)
         (new : list (string * list point)),
    fst (index_all_pdfs client loader_load split_text encode_texts pdf_files tr)
    = Ok reports /\
    map (dict_get "file") reports
    = map (fun f => Some (PStr (basename f))) pdf_files /\
    Forall (fun r => exists b, dict_get "success" r = Some (PBool b)) reports /\
    uploads (snd (index_all_pdfs client loader_load split_text encode_texts
                    pdf_files tr)) = (new ++ uploads tr)%list /\
    subseq indexed pdf_files /\
    Forall2 uploaded (rev indexed) new.
Proof.
  destruct pdf_files as [|f files].
  - exists [], [], []. simpl. unfold ret. simpl. repeat split; auto; constructor.
  - unfold index_all_pdfs.
    assert (E : forall (m : M qtrace unit) (k : unit -> M qtrace (list pydict)),
               bind m k tr
               = match m tr with
                 | (Ok a, s') => k a s'
                 | (Exc e, s') => (Exc e, s')
                 end) by reflexivity.
    rewrite !E. clear E.
    destruct (clear_collection_uploads tr) as [Hup Hok].
    destruct (catch _ _ tr) as [r tr1]. simpl in Hup, Hok. subst r.
    destruct (index_each_run (f :: files) [] tr1)
      as [reports [indexed [new H]]].
    rewrite Hup in H. cbn [app] in H. exists reports, indexed, new. exact H.
Qed.

End Indexing.

(** Two uploads that both carry points collide on id 0. *)
Lemma uploaded_collide (f1 f2 : string) (up1 up2 : string * list point) :
  uploaded f1 up1 -> uploaded f2 up2 ->
  snd up1 <> [] -> snd up2 <> [] -> collide up1 up2.
Proof.
  intros [Hc1 [Hid1 _]] [Hc2 [Hid2 _]] Hne1 Hne2.
  split; [congruence |].
  destruct (snd up1) as [|p1 l1]; [congruence |].
  destruct (snd up2) as [|p2 l2]; [congruence |].
  exists p1, p2. simpl in Hid1, Hid2.
  injection Hid1 as Hid1 _. injection Hid2 as Hid2 _.
  repeat split; simpl; auto. congruence.
Qed.

Lemma Forall2_in_right {A B : Type} (R : A -> B -> Prop) (l1 : list A)
    (l2 : list B) (y : B) :
  Forall2 R l1 l2 -> In y l2 -> exists x, In x l1 /\ R x y.
Proof.
  induction 1 as [|x y' l1 l2 Hxy _ IH]; intros Hin; [destruct Hin |].
  destruct Hin as [-> | Hin].
  - exists x. split; [now left | exact Hxy].
  - destruct (IH Hin) as [x' [Hx' HR]]. exists x'. split; [now right | exact HR].
Qed.

(** [index_all_pdfs] never raises and reports on every file, in
    order: one entry per file, with the file's base name and a success
    flag, whether or not loading, splitting, encoding or uploading failed
    for it or for a file before it. *)
Theorem index_all_pdfs_reports_every_file (client : qdrant)
    (loader_load : string -> res (list string))
    (split_text : string -> res (list string))
    (encode_texts : list string -> res (list vector))
    (pdf_files : list string) (tr : qtrace) :
  exists reports : list pydict,
    fst (index_all_pdfs client loader_load split_text encode_texts pdf_files tr)
    = Ok reports /\
    map (dict_get "file") reports
    = map (fun f => Some (PStr (basename f))) pdf_files /\
    Forall (fun r => exists b, dict_get "success" r = Some (PBool b)) reports.
Proof.
  destruct (index_all_pdfs_run client loader_load split_text encode_texts
              pdf_files tr) as [reports [indexed [new [H1 [H2 [H3 _]]]]]].
  exists reports. auto.
Qed.

(** The uploads made while indexing are one per file for some of the
    files, in the order of the files (the trace has the latest first).
    Each goes to the collection of [config.py] and numbers its points
    0, 1, 2, ... from 0 again, with the file's base name as source, its
    path, and pages from 1 on.  So any two uploads that carry points put a
    point under the same id into the same collection. *)
Theorem uploads_number_points_from_zero (client : qdrant)
    (loader_load : string -> res (list string))
    (split_text : string -> res (list string))
    (encode_texts : list string -> res (list vector))
    (pdf_files : list string) (tr : qtrace) :
  exists (indexed : list string) (new : list (string * list point)),
    uploads (snd (index_all_pdfs client loader_load split_text encode_texts
                    pdf_files tr)) = (new ++ uploads tr)%list /\
    subseq indexed pdf_files /\
    Forall2 uploaded (rev indexed) new /\
    (forall up1 up2, In up1 new -> In up2 new ->
                     snd up1 <> [] -> snd up2 <> [] -> collide up1 up2).
Proof.
  destruct (index_all_pdfs_run client loader_load split_text encode_texts
              pdf_files tr) as [reports [indexed [new [_ [_ [_ [Hup [Hsub Hnew]]]]]]]].
  exists indexed, new.
  split; [exact Hup |]. split; [exact Hsub |]. split; [exact Hnew |].
  intros up1 up2 Hin1 Hin2 Hne1 Hne2.
  destruct (Forall2_in_right _ _ _ _ Hnew Hin1) as [f1 [_ H1]].
  destruct (Forall2_in_right _ _ _ _ Hnew Hin2) as [f2 [_ H2]].
  exact (uploaded_collide f1 f2 up1 up2 H1 H2 Hne1 Hne2).
Qed.

End RagFacts.


(** ** The profile search tool *)

Module SerperFacts.
Import Py Serper.

Lemma strip_prefix_inv (pre s rest : string) :
  strip_prefix pre s = Some rest -> s = pre ++ rest.
Proof.
  revert s. induction pre as [|a pre IH]; intros s; simpl.
  - intros H. now injection H as ->.
  - destruct s as [|b s]; [discriminate|].
    destruct (Ascii.eqb a b) eqn:E; [|discriminate].
    apply Ascii.eqb_eq in E. subst b. intros H. now rewrite (IH _ H).
Qed.

(** A stripped text keeps its head when the head is not stripped. *)
Lemma rstrip_keep (chars : ascii -> bool) (c : ascii) (s : string) :
  chars c = false -> rstrip chars (String c s) = String c (rstrip chars s).
Proof.
  intros H. simpl. rewrite H. now destruct (rstrip chars s).
Qed.

Lemma rstrip_app (chars : ascii -> bool) (a b : string) (c : ascii) (r : string) :
  rstrip chars b = String c r -> rstrip chars (a ++ b) = a ++ String c r.
Proof.
  intros H. induction a as [|x a IH]; simpl; [exact H|].
  rewrite IH. destruct a; reflexivity.
Qed.

(** Stripping the end of a text that holds [d] followed by a character
    that is kept leaves them in it. *)
Lemma rstrip_holds (chars : ascii -> bool) (before d after : string) (c : ascii) :
  chars c = false ->
  str_in (d ++ String c "")
    (rstrip chars (before ++ (d ++ String c "") ++ after)) = true.
Proof.
  intros H. apply PyFacts.str_in_iff.
  exists before, (rstrip chars after).
  assert (E1 : (d ++ String c "") ++ after = d ++ String c after)
    by now rewrite ParserMore.append_assoc.
  assert (E2 : (d ++ String c "") ++ rstrip chars after
               = d ++ String c (rstrip chars after))
    by now rewrite ParserMore.append_assoc.
  assert (E3 : rstrip chars (d ++ String c after)
               = d ++ String c (rstrip chars after))
    by (apply rstrip_app; now apply rstrip_keep).
  rewrite E1, E2.
  destruct (d ++ String c (rstrip chars after)) as [|x r] eqn:E4.
  - destruct d; discriminate.
  - now apply rstrip_app.
Qed.

Lemma domain_here_inv (domain s m : string) :
  domain_here domain s = Some m -> exists after, m = domain ++ after.
Proof.
  unfold domain_here. destruct (strip_prefix domain s); [|discriminate].
  intros H. injection H as <-. eauto.
Qed.

Lemma host_here_inv (domain s m : string) :
  host_here domain s = Some m -> exists before after, m = before ++ domain ++ after.
Proof.
  unfold host_here. destruct (strip_prefix "www." s) as [s'|].
  - destruct (domain_here domain s') as [m'|] eqn:E.
    + intros H. injection H as <-.
      destruct (domain_here_inv _ _ _ E) as [after ->]. now exists "www.", after.
    + intros H. destruct (domain_here_inv _ _ _ H) as [after ->].
      now exists "", after.
  - intros H. destruct (domain_here_inv _ _ _ H) as [after ->].
    now exists "", after.
Qed.

Lemma colon_here_inv (domain s m : string) :
  colon_here domain s = Some m -> exists before after, m = before ++ domain ++ after.
Proof.
  unfold colon_here. destruct (strip_prefix "://" s) as [s'|]; [|discriminate].
  destruct (host_here domain s') as [m'|] eqn:E; [|discriminate].
  intros H. injection H as <-.
  destruct (host_here_inv _ _ _ E) as [before [after ->]].
  exists ("://" ++ before), after. now rewrite ParserMore.append_assoc.
Qed.

Lemma url_here_inv (domain s m : string) :
  url_here domain s = Some m ->
  exists before after, m = "http" ++ before ++ domain ++ after.
Proof.
  unfold url_here. destruct (strip_prefix "http" s) as [s'|]; [|discriminate].
  destruct (strip_prefix "s" s') as [s''|].
  - destruct (colon_here domain s'') as [m'|] eqn:E.
    + intros H. injection H as <-.
      destruct (colon_here_inv _ _ _ E) as [before [after ->]].
      exists ("s" ++ before), after. reflexivity.
    + destruct (colon_here domain s') as [m'|] eqn:E'; [|discriminate].
      intros H. injection H as <-.
      destruct (colon_here_inv _ _ _ E') as [before [after ->]].
      exists before, after. reflexivity.
  - destruct (colon_here domain s') as [m'|] eqn:E'; [|discriminate].
    intros H. injection H as <-.
    destruct (colon_here_inv _ _ _ E') as [before [after ->]].
    exists before, after. reflexivity.
Qed.

Lemma first_url_inv (domain text m : string) :
  first_url domain text = Some m ->
  exists before after, m = "http" ++ before ++ domain ++ after.
Proof.
  induction text as [|c text IH]; cbn [first_url].
  - destruct (url_here domain "") as [m'|] eqn:E; [|discriminate].
    intros H. injection H as <-. eapply url_here_inv. exact E.
  - destruct (url_here domain (String c text)) as [m'|] eqn:E.
    + intros H. injection H as <-. eapply url_here_inv. exact E.
    + exact IH.
Qed.

Lemma first_link_inv (domain : string) (organic : list (option string))
    (url : string) :
  first_link domain organic = Some url -> str_in domain url = true.
Proof.
  induction organic as [|result rest IH]; simpl; [discriminate|].
  destruct (str_in domain (if_not_none result "")) eqn:E.
  - intros H. injection H as <-. exact E.
  - exact IH.
Qed.

(** A URL that [_extract_url] returns mentions the domain asked for:
    for a dict it is a link that contains it, for a text it still contains
    it after the trailing punctuation is stripped, as long as the domain
    does not itself end in one of the stripped characters. *)
Theorem extract_url_mentions_domain (results : search_results)
    (d : string) (c : ascii) (url : string) :
  trailing c = false ->
  _extract_url results (d ++ String c "") = Some url ->
  str_in (d ++ String c "") url = true.
Proof.
  intros Hc. destruct results as [organic|text|]; simpl.
  - apply first_link_inv.
  - destruct (first_url (d ++ String c "") text) as [m|] eqn:E; [|discriminate].
    intros H. injection H as <-.
    destruct (first_url_inv _ _ _ E) as [before [after ->]].
    rewrite <- ParserMore.append_assoc.
    now apply rstrip_holds.
  - discriminate.
Qed.

Lemma extract_url_mentions_domain_witness :
  trailing "m" = false /\
  _extract_url (ResultsStr "See (https://www.github.com/octocat).") "github.com"
  = Some "https://www.github.com/octocat" /\
  str_in "github.com" "https://www.github.com/octocat" = true.
Proof.
  split; [reflexivity|]. split; [reflexivity|].
  apply (extract_url_mentions_domain
           (ResultsStr "See (https://www.github.com/octocat).")
           "github.co" "m" "https://www.github.com/octocat");
    reflexivity.
Defined.

(** When both searches raise, the tool makes both all the same, the
    GitHub one first, and answers that neither profile was found; the
    reason is not in the answer. *)
Theorem failed_searches_read_as_not_found
    (serper_run : list string -> string -> res search_results)
    (person_name : string) (email : option string) (queries : list string)
    (e1 e2 : string) :
  serper_run queries (github_query person_name email) = Exc e1 ->
  serper_run (github_query person_name email :: queries)
    (linkedin_query person_name) = Exc e2 ->
  _run (Ok tt) serper_run person_name email queries
  = ("Profile search results for " ++ person_name ++ ":" ++ Rag.newline
     ++ "GitHub: Not found" ++ Rag.newline ++ "LinkedIn: Not found",
     linkedin_query person_name :: github_query person_name email :: queries).
Proof.
  intros H1 H2.
  unfold _run, try_except, bind, run_query. rewrite H1, H2. cbn [found_url profile_line Rag.join].
  rewrite !ParserMore.append_assoc. reflexivity.
Qed.

Lemma failed_searches_read_as_not_found_witness :
  _run (Ok tt) (fun _ _ => Exc "403 Forbidden") "Jane Roe"
    (Some "jane@example.org") []
  = ("Profile search results for Jane Roe:" ++ Rag.newline
     ++ "GitHub: Not found" ++ Rag.newline ++ "LinkedIn: Not found",
     [linkedin_query "Jane Roe";
      github_query "Jane Roe" (Some "jane@example.org")]).
Proof.
  apply (failed_searches_read_as_not_found (fun _ _ => Exc "403 Forbidden")
           "Jane Roe" (Some "jane@example.org") [] "403 Forbidden"
           "403 Forbidden"); reflexivity.
Defined.

End SerperFacts.
